(** * Registration form backend: validator, submission pipeline, CSV export

    A shallow embedding of the Appwrite function [src/functions/index.cjs]
    (validator [isValidFormData], [verifyCaptcha], [validateAdminKey] and the
    routes of [module.exports]) and of the Express routes [/submit] and
    [/to_csv] of [src/services/server.ts].

    JavaScript values are an inductive type, objects are association lists in
    insertion order, the document store and the sequence of store calls are an
    explicit state threaded through a small state-and-exception monad.
    Logging calls ([log], [error], [console.error]) have no effect on any
    response or on the store and are left out. *)

From Stdlib Require Import String Ascii List ZArith NArith Bool Lia QArith.
From Stdlib Require Import DecimalString.
Import ListNotations.

Local Open Scope string_scope.
Local Open Scope Z_scope.

(* ===================================================================== *)
(** ** JavaScript values *)
(* ===================================================================== *)

(** Strings are sequences of code units; the model covers code units below
    256.  Numbers that reach the code as JSON are modelled as integers (the
    form's [roll_number]); a [Date] is its time value in milliseconds. *)
#[warnings="-register-all"]
Inductive jsval : Type :=
| JUndefined
| JNull
| JBool (b : bool)
| JNum (n : Z)
| JStr (s : string)
| JDate (ms : Z)
| JArr (xs : list jsval)
| JObj (fields : list (string * jsval)).

(** The result of the [typeof] operator. *)
Inductive jstype : Type :=
| TUndefined | TObject | TBoolean | TNumber | TString.

Definition typeof (v : jsval) : jstype :=
  match v with
  | JUndefined => TUndefined
  | JNull => TObject
  | JBool _ => TBoolean
  | JNum _ => TNumber
  | JStr _ => TString
  | JDate _ => TObject
  | JArr _ => TObject
  | JObj _ => TObject
  end.

Definition jstype_eqb (a b : jstype) : bool :=
  match a, b with
  | TUndefined, TUndefined | TObject, TObject | TBoolean, TBoolean
  | TNumber, TNumber | TString, TString => true
  | _, _ => false
  end.

(** ToBoolean: what [!v] and [v && ...] look at. *)
Definition truthy (v : jsval) : bool :=
  match v with
  | JUndefined => false
  | JNull => false
  | JBool b => b
  | JNum n => negb (n =? 0)
  | JStr s => negb (s =? "")%string
  | JDate _ => true
  | JArr _ => true
  | JObj _ => true
  end.

Definition is_undefined (v : jsval) : bool :=
  match v with JUndefined => true | _ => false end.

Definition is_null (v : jsval) : bool :=
  match v with JNull => true | _ => false end.

(** [v === w] for a value read from one object and a value read from
    another: primitives compare by value, two objects are never the same
    reference. *)
Definition strict_eq (v w : jsval) : bool :=
  match v, w with
  | JUndefined, JUndefined => true
  | JNull, JNull => true
  | JBool a, JBool b => Bool.eqb a b
  | JNum a, JNum b => a =? b
  | JStr a, JStr b => (a =? b)%string
  | _, _ => false
  end.

(** *** Objects as ordered association lists *)

Definition props := list (string * jsval).

(** Own-property read [o[k]]: the first binding of [k], [undefined] if none. *)
Fixpoint lookup (k : string) (o : props) : jsval :=
  match o with
  | [] => JUndefined
  | (k', v) :: o' => if (k' =? k)%string then v else lookup k o'
  end.

(** [v.k] on any value: only plain objects carry the fields read here. *)
Definition get (v : jsval) (k : string) : jsval :=
  match v with
  | JObj o => lookup k o
  | _ => JUndefined
  end.

(** Property write [o[k] = v] as performed by an object literal or spread:
    an existing key keeps its position, a new key goes last. *)
Fixpoint set (k : string) (v : jsval) (o : props) : props :=
  match o with
  | [] => [(k, v)]
  | (k', v') :: o' =>
      if (k' =? k)%string then (k', v) :: o' else (k', v') :: set k v o'
  end.

(** Rest destructuring [const { k, ...rest } = o]: [rest] is [o] without [k]. *)
Definition omit (k : string) (o : props) : props :=
  filter (fun kv => negb (fst kv =? k)%string) o.

(** [Object.keys(o)]: the list is kept in the order in which own
    properties are enumerated. *)
Definition keys (o : props) : list string := map fst o.

(* ===================================================================== *)
(** ** Regular expressions *)
(* ===================================================================== *)

(** The fragment of the regular-expression syntax that the source uses:
    character classes, literal characters, concatenation and [+]; matching is
    by derivatives, which decides the same language as the backtracking
    matcher for a pattern anchored with [^] and [$]. *)
Inductive regex : Type :=
| ReNone
| ReEps
| ReClass (p : ascii -> bool)
| ReSeq (r1 r2 : regex)
| ReAlt (r1 r2 : regex)
| ReStar (r : regex).

Definition RePlus (r : regex) : regex := ReSeq r (ReStar r).

Definition ReChar (c : ascii) : regex := ReClass (fun x => Ascii.eqb x c).

Fixpoint nullable (r : regex) : bool :=
  match r with
  | ReNone => false
  | ReEps => true
  | ReClass _ => false
  | ReSeq r1 r2 => nullable r1 && nullable r2
  | ReAlt r1 r2 => nullable r1 || nullable r2
  | ReStar _ => true
  end.

Fixpoint deriv (c : ascii) (r : regex) : regex :=
  match r with
  | ReNone => ReNone
  | ReEps => ReNone
  | ReClass p => if p c then ReEps else ReNone
  | ReSeq r1 r2 =>
      if nullable r1
      then ReAlt (ReSeq (deriv c r1) r2) (deriv c r2)
      else ReSeq (deriv c r1) r2
  | ReAlt r1 r2 => ReAlt (deriv c r1) (deriv c r2)
  | ReStar r1 => ReSeq (deriv c r1) (ReStar r1)
  end.

(** Whole-string match of an anchored pattern [/^r$/]. *)
Fixpoint matches (r : regex) (s : string) : bool :=
  match s with
  | EmptyString => nullable r
  | String c s' => matches (deriv c r) s'
  end.

(** The class [\s] on code units below 256: tab, line feed, vertical tab,
    form feed, carriage return, space and no-break space. *)
Definition is_space (c : ascii) : bool :=
  let n := N_of_ascii c in
  ((9 <=? n) && (n <=? 13) || (n =? 32) || (n =? 160))%N.

(** The class [[^\s@]]. *)
Definition not_space_at (c : ascii) : bool :=
  negb (is_space c) && negb (Ascii.eqb c "@").

(** [const emailRegex = /^[^\s@]+@[^\s@]+\.[^\s@]+$/;] *)
Definition emailRegex : regex :=
  ReSeq (RePlus (ReClass not_space_at))
    (ReSeq (ReChar "@")
       (ReSeq (RePlus (ReClass not_space_at))
          (ReSeq (ReChar ".")
             (RePlus (ReClass not_space_at))))).

(** [re.test(v)].  Both call sites pass a value already known to be a
    string (a [typeof] guard returns before them otherwise). *)
Definition test (r : regex) (v : jsval) : bool :=
  match v with
  | JStr s => matches r s
  | _ => false
  end.

(* ===================================================================== *)
(** ** The validator ([isValidFormData], index.cjs) *)
(* ===================================================================== *)

Inductive verdict : Type :=
| Valid
| Invalid (error : string).

Definition valid (v : verdict) : bool :=
  match v with Valid => true | Invalid _ => false end.

Definition optionalStringFields : list string :=
  ["github_link"; "linkedin_link"; "instagram_link";
   "team_name"; "referrer_name"; "referrer_email"].

(** The [for (const field of optionalStringFields)] loop: the first field
    that is defined and not a string ends the validation. *)
Fixpoint check_optional (body : jsval) (fields : list string) : option string :=
  match fields with
  | [] => None
  | field :: rest =>
      if negb (is_undefined (get body field))
         && negb (jstype_eqb (typeof (get body field)) TString)
      then Some (field ++ " must be a string if provided")
      else check_optional body rest
  end.

Definition isValidFormData (body : jsval) : verdict :=
  if negb (jstype_eqb (typeof body) TObject) || is_null body then
    Invalid "Request body must be an object"
  else if negb (truthy (get body "captchaToken"))
          || negb (jstype_eqb (typeof (get body "captchaToken")) TString) then
    Invalid "CAPTCHA token is required"
  else if negb (truthy (get body "name"))
          || negb (jstype_eqb (typeof (get body "name")) TString) then
    Invalid "Name is required and must be a string"
  else if negb (truthy (get body "roll_number"))
          || negb (jstype_eqb (typeof (get body "roll_number")) TNumber) then
    Invalid "Roll number is required and must be a number"
  else if negb (truthy (get body "gender"))
          || (negb (strict_eq (get body "gender") (JStr "M"))
              && negb (strict_eq (get body "gender") (JStr "F"))) then
    Invalid "Gender is required and must be 'M' or 'F'"
  else if negb (truthy (get body "email"))
          || negb (jstype_eqb (typeof (get body "email")) TString) then
    Invalid "Email is required and must be a string"
  else if negb (truthy (get body "about"))
          || negb (jstype_eqb (typeof (get body "about")) TString) then
    Invalid "About is required and must be a string"
  else if negb (test emailRegex (get body "email")) then
    Invalid "Invalid email format"
  else
    match check_optional body optionalStringFields with
    | Some e => Invalid e
    | None =>
        if truthy (get body "referrer_email")
           && negb (test emailRegex (get body "referrer_email"))
        then Invalid "Invalid referrer email format"
        else Valid
    end.

(* ===================================================================== *)
(** ** Results, the store and the request monad *)
(* ===================================================================== *)

(** The outcome of a call that may throw; a thrown [Error] is its message. *)
Inductive result (A : Type) : Type :=
| Ok (a : A)
| Throw (message : string).
Arguments Ok {A} a.
Arguments Throw {A} message.

(** The calls a handler makes on the MongoDB client and collection. *)
Inductive store_call : Type :=
| Connect
| FindOne (roll_number email : jsval)
| InsertOne (doc : props)
| FindAll
| Close.

(** The collection (documents in insertion order), every store call
    attempted so far, and the number of clock readings taken. *)
Record world : Type := mkWorld {
  docs : list props;
  calls : list store_call;
  reads : nat
}.

(** The answer of the reCAPTCHA [siteverify] endpoint, as far as the code
    reads it: [data.success], [data.score], [data['error-codes']]. *)
Record siteverify_data : Type := mkData {
  data_success : bool;
  data_score : option Q;
  data_error_codes : jsval
}.

(** The call either throws an [Error], given by its name and its message,
    or returns the parsed answer. *)
Inductive fetch_result : Type :=
| FetchThrows (name message : string)
| FetchJson (data : siteverify_data).

(** The text of a thrown [Error] in a template literal
    ([Error.prototype.toString]): the name, a colon and the message, or the
    one of the two that is not empty. *)
Definition thrown_text (name message : string) : string :=
  if (name =? "")%string then message
  else if (message =? "")%string then name
  else name ++ ": " ++ message.

(** Everything a request reads from outside the program: [process.env], the
    remote verification service, the clock, the renderings of dates and
    identifiers that the runtime provides, and the store call (if any) that
    throws. *)
Record env : Type := mkEnv {
  FRONTEND_URL : option string;
  GOOGLE_CAPTCHA_SECRET_KEY : option string;
  ADMIN_KEY : option string;
  NODE_ENV : option string;
  siteverify : string -> fetch_result;
  clock : nat -> Z;
  toISOString : Z -> string;
  dateToString : Z -> string;
  newObjectId : nat -> string;
  store_fault : store_call -> option string
}.

Definition M (A : Type) : Type := world -> result A * world.

Definition ret {A : Type} (a : A) : M A := fun w => (Ok a, w).

Definition throw {A : Type} (message : string) : M A :=
  fun w => (Throw message, w).

Definition bind {A B : Type} (m : M A) (f : A -> M B) : M B :=
  fun w =>
    match m w with
    | (Ok a, w') => f a w'
    | (Throw e, w') => (Throw e, w')
    end.

Declare Scope request_scope.
Delimit Scope request_scope with request.
Notation "x <- m ;; k" := (bind m (fun x => k))
  (at level 61, m at next level, right associativity) : request_scope.
Notation "m ;; k" := (bind m (fun _ => k))
  (at level 61, right associativity) : request_scope.

(** [try { m } catch (e) { h e }] around a computation that responds. *)
Definition try_catch {A : Type} (m : M A) (h : string -> world -> A * world)
  : world -> A * world :=
  fun w =>
    match m w with
    | (Ok a, w') => (a, w')
    | (Throw e, w') => h e w'
    end.

(** One store call: it is recorded, then it throws if the environment says so. *)
Definition store_op (e : env) (c : store_call) : M unit :=
  fun w =>
    let w' := mkWorld (docs w) (calls w ++ [c]) (reads w) in
    match store_fault e c with
    | Some message => (Throw message, w')
    | None => (Ok tt, w')
    end.

(** [new Date()]: the next clock reading. *)
Definition new_Date (e : env) : M Z :=
  fun w => (Ok (clock e (reads w)), mkWorld (docs w) (calls w) (S (reads w))).

(** A document matches [{ field: q }] when its field holds the same scalar. *)
Definition doc_matches (roll_number email : jsval) (d : props) : bool :=
  strict_eq (lookup "roll_number" d) roll_number
  || strict_eq (lookup "email" d) email.

(** [collection.findOne({ $or: [{ roll_number }, { email }] })]: the first
    matching document, [null] (here [None]) if there is none. *)
Definition findOne (e : env) (roll_number email : jsval) : M (option props) :=
  (_ <- store_op e (FindOne roll_number email) ;;
   fun w => (Ok (find (doc_matches roll_number email) (docs w)), w))%request.

(** [collection.insertOne(doc)]: appends the document and returns the
    store-assigned identifier, rendered as by [insertedId.toString()]. *)
Definition insertOne (e : env) (doc : props) : M string :=
  (_ <- store_op e (InsertOne doc) ;;
   fun w =>
     (Ok (newObjectId e (List.length (docs w))),
      mkWorld (docs w ++ [doc]) (calls w) (reads w)))%request.

(** [collection.find({}).toArray()]. *)
Definition find_all (e : env) : M (list props) :=
  (_ <- store_op e FindAll ;; fun w => (Ok (docs w), w))%request.

(* ===================================================================== *)
(** ** Responses *)
(* ===================================================================== *)

Inductive payload : Type :=
| Json (v : jsval)
| Text (s : string).

Record response : Type := mkResponse {
  status : Z;
  headers : list (string * string);
  content : payload
}.

(** [a || b] on values that are a string or [undefined]. *)
Definition or_else (a b : option string) : option string :=
  match a with
  | Some s => if (s =? "")%string then b else a
  | None => b
  end.

Definition or_default (a : option string) (d : string) : string :=
  match a with
  | Some s => if (s =? "")%string then d else s
  | None => d
  end.

Definition is_set (a : option string) : bool :=
  match a with
  | Some s => negb (s =? "")%string
  | None => false
  end.

Definition of_option (a : option string) : jsval :=
  match a with Some s => JStr s | None => JUndefined end.

Fixpoint assoc (k : string) (l : list (string * string)) : option string :=
  match l with
  | [] => None
  | (k', v) :: l' => if (k' =? k)%string then Some v else assoc k l'
  end.

(* ===================================================================== *)
(** ** Rendering values as text *)
(* ===================================================================== *)

Definition string_of_Z (n : Z) : string := NilZero.string_of_int (Z.to_int n).

Definition string_of_nat (n : nat) : string :=
  NilZero.string_of_uint (Nat.to_uint n).

Section ToString.

Variable renderDate : Z -> string.

(** ToString, with [Array.prototype.join] leaving out [null] and
    [undefined] elements. *)
Fixpoint js_toString (v : jsval) : string :=
  match v with
  | JUndefined => "undefined"
  | JNull => "null"
  | JBool true => "true"
  | JBool false => "false"
  | JNum n => string_of_Z n
  | JStr s => s
  | JDate ms => renderDate ms
  | JArr xs =>
      String.concat ","
        ((fix elems (l : list jsval) : list string :=
            match l with
            | [] => []
            | JUndefined :: l' => "" :: elems l'
            | JNull :: l' => "" :: elems l'
            | x :: l' => js_toString x :: elems l'
            end) xs)
  | JObj _ => "[object Object]"
  end.

(** The element text that [join] uses. *)
Definition join_text (v : jsval) : string :=
  match v with
  | JUndefined => ""
  | JNull => ""
  | _ => js_toString v
  end.

End ToString.

(* ===================================================================== *)
(** ** The abuse check ([verifyCaptcha], index.cjs) *)
(* ===================================================================== *)

Record captcha_result : Type := mkCaptcha {
  success : bool;
  error : option string;
  details : jsval;
  score : option Q
}.

(** [x < y] on the score, a number between 0 and 1. *)
Definition Qlt_bool (x y : Q) : bool := negb (Qle_bool y x).

Definition verifyCaptcha (e : env) (token : jsval) : captcha_result :=
  if negb (truthy token) then
    mkCaptcha false (Some "CAPTCHA token is required") JUndefined None
  else if negb (is_set (GOOGLE_CAPTCHA_SECRET_KEY e)) then
    mkCaptcha false (Some "reCAPTCHA not configured on server") JUndefined None
  else
    match siteverify e
            ("secret=" ++ or_default (GOOGLE_CAPTCHA_SECRET_KEY e) ""
             ++ "&response=" ++ js_toString (dateToString e) token) with
    | FetchThrows _ message =>
        mkCaptcha false (Some "CAPTCHA verification error") (JStr message) None
    | FetchJson data =>
        if negb (data_success data) then
          mkCaptcha false (Some "CAPTCHA verification failed")
            (if truthy (data_error_codes data)
             then data_error_codes data else JArr [])
            None
        else
          match data_score data with
          | Some s =>
              if Qlt_bool s (1 # 2) then
                mkCaptcha false (Some "CAPTCHA score too low, please try again")
                  JUndefined None
              else mkCaptcha true None JUndefined (Some s)
          | None => mkCaptcha true None JUndefined None
          end
    end.

(* ===================================================================== *)
(** ** The admin key check ([validateAdminKey], index.cjs) *)
(* ===================================================================== *)

(** [Buffer.from(s)]: the UTF-8 bytes of a string of code units below 256. *)
Definition utf8_unit (c : ascii) : list N :=
  let n := N_of_ascii c in
  if (n <? 128)%N then [n] else [(192 + n / 64)%N; (128 + n mod 64)%N].

Definition Buffer_from (s : string) : list N :=
  flat_map utf8_unit (list_ascii_of_string s).

Fixpoint bytes_eqb (a b : list N) : bool :=
  match a, b with
  | [], [] => true
  | x :: a', y :: b' => (x =? y)%N && bytes_eqb a' b'
  | _, _ => false
  end.

(** [crypto.timingSafeEqual(a, b)]: throws on buffers of different length,
    otherwise tells whether they hold the same bytes. *)
Definition timingSafeEqual (a b : list N) : result bool :=
  if (List.length a =? List.length b)%nat
  then Ok (bytes_eqb a b)
  else Throw "Input buffers must have the same byte length".

(** The keys are a string or [undefined]. *)
Definition validateAdminKey (providedKey actualKey : option string) : bool :=
  match providedKey, actualKey with
  | Some p, Some a =>
      if negb (is_set providedKey) || negb (is_set actualKey) then false
      else
        let providedBuf := Buffer_from p in
        let actualBuf := Buffer_from a in
        if negb (List.length providedBuf =? List.length actualBuf)%nat then false
        else
          match timingSafeEqual providedBuf actualBuf with
          | Ok b => b
          | Throw _ => false
          end
  | _, _ => false
  end.

(** Modelled from the spec: the running time of [crypto.timingSafeEqual],
    a builtin of the runtime whose code is not among the sources.  The
    specification has the secret compared in constant time; the builtin is
    modelled as the loop that this describes, which folds every pair of
    bytes into one accumulator and leaves none out, and its time as the
    number of pairs that the loop visits. *)
Fixpoint fold_differences (acc : N) (a b : list N) : N * nat :=
  match a, b with
  | x :: a', y :: b' =>
      let (r, visited) := fold_differences (N.lor acc (N.lxor x y)) a' b' in
      (r, S visited)
  | _, _ => (acc, 0%nat)
  end.

Definition timingSafeEqual_timed (a b : list N) : result bool * nat :=
  if (List.length a =? List.length b)%nat
  then let (r, visited) := fold_differences 0%N a b in (Ok (r =? 0)%N, visited)
  else (Throw "Input buffers must have the same byte length", 0%nat).

(** [validateAdminKey] with the time of its comparison: the same steps, the
    builtin replaced by its timed model. *)
Definition validateAdminKey_timed (providedKey actualKey : option string)
  : bool * nat :=
  match providedKey, actualKey with
  | Some p, Some a =>
      if negb (is_set providedKey) || negb (is_set actualKey) then (false, 0%nat)
      else
        let providedBuf := Buffer_from p in
        let actualBuf := Buffer_from a in
        if negb (List.length providedBuf =? List.length actualBuf)%nat
        then (false, 0%nat)
        else
          match timingSafeEqual_timed providedBuf actualBuf with
          | (Ok b, visited) => (b, visited)
          | (Throw _, visited) => (false, visited)
          end
  | _, _ => (false, 0%nat)
  end.

(** The time of the comparison of server.ts, where the length check and the
    builtin are written in line. *)
Definition keysMatch_timed (adminKey providedKey : string) : bool * nat :=
  let adminBuf := Buffer_from adminKey in
  let providedBuf := Buffer_from providedKey in
  if (List.length adminBuf =? List.length providedBuf)%nat
  then match timingSafeEqual_timed adminBuf providedBuf with
       | (Ok b, visited) => (b, visited)
       | (Throw _, visited) => (false, visited)
       end
  else (false, 0%nat).

(* ===================================================================== *)
(** ** CSV text (the [/csv] route of index.cjs) *)
(* ===================================================================== *)

Definition dquote_char : ascii := ascii_of_nat 34.
Definition dquote : string := String dquote_char EmptyString.
Definition newline : string := String (ascii_of_nat 10) EmptyString.

(** The global replace of the cell: every double quote is doubled. *)
Fixpoint escape_quotes (s : string) : string :=
  match s with
  | EmptyString => EmptyString
  | String c s' =>
      if Ascii.eqb c dquote_char
      then String dquote_char (String dquote_char (escape_quotes s'))
      else String c (escape_quotes s')
  end.

(** One cell: a string is quoted and escaped, any other value is returned
    as it is and rendered by the [join] of the row. *)
Definition csv_cell (e : env) (row : props) (field : string) : string :=
  match lookup field row with
  | JStr value => dquote ++ escape_quotes value ++ dquote
  | value => join_text (dateToString e) value
  end.

Definition csv_row (e : env) (headers : list string) (row : props) : string :=
  String.concat "," (map (csv_cell e row) headers).

Definition csvRows (e : env) (documents : list props) : list string :=
  match documents with
  | [] => []
  | first :: _ =>
      let headers := keys first in
      String.concat "," headers :: map (csv_row e headers) documents
  end.

Definition to_csv (e : env) (documents : list props) : string :=
  String.concat newline (csvRows e documents).

(* ===================================================================== *)
(** ** The Appwrite function ([module.exports], index.cjs) *)
(* ===================================================================== *)

Record request : Type := mkRequest {
  method : string;
  path : option string;
  url : option string;
  req_headers : list (string * string);
  query : list (string * string);
  body : jsval
}.

Definition cors_headers (e : env) : list (string * string) :=
  [("Access-Control-Allow-Origin",
    or_default (FRONTEND_URL e) "http://localhost:5173");
   ("Access-Control-Allow-Methods", "GET, POST, OPTIONS");
   ("Access-Control-Allow-Headers", "Content-Type, X-Admin-Key");
   ("Access-Control-Allow-Credentials", "true")].

Definition sendJsonResponse (e : env) (data : jsval) (statusCode : Z) : response :=
  mkResponse statusCode (cors_headers e) (Json data).

Definition csv_headers : list (string * string) :=
  [("Content-Type", "text/csv");
   ("Content-Disposition", "attachment; filename=registrations.csv")].

(** [process.env.NODE_ENV === "development" ? errorMessage : undefined] *)
Definition dev_details (e : env) (errorMessage : string) : jsval :=
  match NODE_ENV e with
  | Some m => if (m =? "development")%string then JStr errorMessage else JUndefined
  | None => JUndefined
  end.

Definition fields_of (v : jsval) : props :=
  match v with JObj o => o | _ => [] end.

(** The document handed to [insertOne]:
    [{ ...dataToSave, createdAt: new Date(), submittedAt: new Date().toISOString() }]. *)
Definition stamped (e : env) (dataToSave : props) (createdAt submittedAt : Z) : props :=
  set "submittedAt" (JStr (toISOString e submittedAt))
    (set "createdAt" (JDate createdAt) dataToSave).

(** The body of [if (path === "/submit" && method === "POST")].  Creating the
    client is part of [Connect]. *)
Definition submit (e : env) (reqBody : jsval) : world -> response * world :=
  try_catch
    (match isValidFormData reqBody with
     | Invalid validationError =>
         ret (sendJsonResponse e (JObj [("error", JStr validationError)]) 400)
     | Valid =>
         let formData := reqBody in
         let captchaResult := verifyCaptcha e (get formData "captchaToken") in
         if negb (success captchaResult) then
           ret (sendJsonResponse e
                  (JObj [("error", of_option (error captchaResult));
                         ("details", details captchaResult)]) 400)
         else
           let dataToSave := omit "captchaToken" (fields_of formData) in
           (_ <- store_op e Connect ;;
            existingData <- findOne e (lookup "roll_number" dataToSave)
                                      (lookup "email" dataToSave) ;;
            match existingData with
            | Some existing =>
                _ <- store_op e Close ;;
                let duplicateField :=
                  if strict_eq (lookup "roll_number" existing)
                               (lookup "roll_number" dataToSave)
                  then "roll number" else "email" in
                let errorMsg :=
                  "Registration with this " ++ duplicateField ++ " already exists" in
                ret (sendJsonResponse e (JObj [("error", JStr errorMsg)]) 409)
            | None =>
                createdAt <- new_Date e ;;
                submittedAt <- new_Date e ;;
                insertedId <- insertOne e (stamped e dataToSave createdAt submittedAt) ;;
                _ <- store_op e Close ;;
                ret (sendJsonResponse e
                       (JObj [("success", JBool true);
                              ("id", JStr insertedId);
                              ("message", JStr "Form submitted successfully")]) 200)
            end)%request
     end)
    (fun errorMessage w =>
       (sendJsonResponse e
          (JObj [("error", JStr "Failed to save data");
                 ("details", dev_details e errorMessage)]) 500, w)).

(** [req.headers["x-admin-key"] || req.headers["X-Admin-Key"] || req.query.key] *)
Definition provided_admin_key (req : request) : option string :=
  or_else (or_else (assoc "x-admin-key" (req_headers req))
                   (assoc "X-Admin-Key" (req_headers req)))
          (assoc "key" (query req)).

(** The body of [if (path === "/csv" && method === "GET")]. *)
Definition export_csv (e : env) (req : request) : world -> response * world :=
  try_catch
    (let adminKey := provided_admin_key req in
     if negb (validateAdminKey adminKey (ADMIN_KEY e)) then
       ret (sendJsonResponse e (JObj [("error", JStr "Invalid admin key")]) 401)
     else
       (_ <- store_op e Connect ;;
        documents <- find_all e ;;
        _ <- store_op e Close ;;
        if (List.length documents =? 0)%nat then
          ret (mkResponse 200 csv_headers (Text ""))
        else
          ret (mkResponse 200 csv_headers (Text (to_csv e documents))))%request)
    (fun errorMessage w =>
       (sendJsonResponse e
          (JObj [("error", JStr "Failed to export CSV");
                 ("details", dev_details e errorMessage)]) 500, w)).

Definition health (e : env) : M response :=
  (now <- new_Date e ;;
   ret (sendJsonResponse e
          (JObj [("status", JStr "OK");
                 ("message", JStr "Appwrite function is running");
                 ("timestamp", JStr (toISOString e now))]) 200))%request.

Definition lift {A : Type} (f : world -> A * world) : M A :=
  fun w => let (a, w') := f w in (Ok a, w').

(** [module.exports = async function (context)] *)
Definition handler (e : env) (req : request) : world -> response * world :=
  try_catch
    (if (method req =? "OPTIONS")%string then
       ret (mkResponse 200 (cors_headers e) (Text ""))
     else
       let path := or_default (or_else (path req) (url req)) "/" in
       if (path =? "/health")%string || (path =? "/")%string then
         health e
       else if (path =? "/submit")%string && (method req =? "POST")%string then
         lift (submit e (body req))
       else if (path =? "/csv")%string && (method req =? "GET")%string then
         lift (export_csv e req)
       else
         ret (sendJsonResponse e
                (JObj [("error", JStr "Not found");
                       ("path", JStr path);
                       ("method", JStr (method req))]) 404))
    (fun errorMessage w =>
       (sendJsonResponse e
          (JObj [("error", JStr "Internal server error");
                 ("details", dev_details e errorMessage)]) 500, w)).

(* ===================================================================== *)
(** ** The Express server (server.ts) *)
(* ===================================================================== *)

Module Express.

(** [verifyCaptcha] of server.ts: as in index.cjs, without [details]; the
    thrown error itself is interpolated into the error text. *)
Definition verifyCaptcha (e : env) (token : jsval) : captcha_result :=
  if negb (truthy token) then
    mkCaptcha false (Some "CAPTCHA token is required") JUndefined None
  else if negb (is_set (GOOGLE_CAPTCHA_SECRET_KEY e)) then
    mkCaptcha false (Some "reCAPTCHA not configured on server") JUndefined None
  else
    match siteverify e
            ("secret=" ++ or_default (GOOGLE_CAPTCHA_SECRET_KEY e) ""
             ++ "&response=" ++ js_toString (dateToString e) token) with
    | FetchThrows name message =>
        mkCaptcha false
          (Some ("CAPTCHA verification error: " ++ thrown_text name message))
          JUndefined None
    | FetchJson data =>
        if negb (data_success data) then
          mkCaptcha false (Some "CAPTCHA verification failed") JUndefined None
        else
          match data_score data with
          | Some s =>
              if Qlt_bool s (1 # 2) then
                mkCaptcha false (Some "CAPTCHA score too low, please try again")
                  JUndefined None
              else mkCaptcha true None JUndefined (Some s)
          | None => mkCaptcha true None JUndefined None
          end
    end.

(** The own enumerable properties of an array or of a string: its
    elements under their indices. *)
Definition index_props (xs : list jsval) : props :=
  combine (map string_of_nat (seq 0 (List.length xs))) xs.

(** [const { k, ...rest } = v]: throws on [undefined] and [null]. *)
Definition destructure (k : string) (v : jsval) : result (jsval * props) :=
  match v with
  | JUndefined => Throw "Cannot destructure property of undefined"
  | JNull => Throw "Cannot destructure property of null"
  | JObj o => Ok (lookup k o, omit k o)
  | JArr xs => Ok (JUndefined, omit k (index_props xs))
  | JStr s =>
      Ok (JUndefined,
          omit k (index_props
                    (map (fun c => JStr (String c EmptyString))
                         (list_ascii_of_string s))))
  | _ => Ok (JUndefined, [])
  end.

(** The value of [req.query.key]: absent, one string, or a repeated
    parameter.  Nested query objects are outside the model. *)
Inductive query_value : Type :=
| QAbsent
| QString (s : string)
| QArray (xs : list string).

(** [Array.isArray(rawKey) ? rawKey[0]
      : typeof rawKey === "string" ? rawKey : undefined] *)
Definition provided_key (rawKey : query_value) : option string :=
  match rawKey with
  | QArray xs => nth_error xs 0
  | QString s => Some s
  | QAbsent => None
  end.

Section Routes.

(** [insertData] and [collection_to_csv] come from
    [services/data_handler], which is not part of the sources at hand:
    they are any computations on the store. *)
Variable insertData : jsval -> M unit.
Variable collection_to_csv : M string.

(** [app.post("/submit", ...)] *)
Definition submit (e : env) (reqBody : jsval) : world -> response * world :=
  try_catch
    (match destructure "captchaToken" reqBody with
     | Throw message => throw message
     | Ok (captchaToken, formData) =>
         let captchaResult := verifyCaptcha e captchaToken in
         if negb (success captchaResult) then
           ret (mkResponse 400 []
                  (Json (JObj [("success", JBool false);
                               ("message",
                                JStr (or_default (error captchaResult)
                                        "CAPTCHA verification failed"))])))
         else
           (_ <- insertData (JObj formData) ;;
            ret (mkResponse 200 [] (Text "Data submitted successfully!")))%request
     end)
    (fun errorMessage w =>
       (mkResponse 500 []
          (Json (JObj [("success", JBool false);
                       ("message", JStr errorMessage)])), w)).

(** [app.get("/to_csv", ...)]: no [try] surrounds the key comparison. *)
Definition to_csv (e : env) (rawKey : query_value) : M response :=
  let adminKey := ADMIN_KEY e in
  let providedKey := provided_key rawKey in
  if negb (is_set adminKey) || negb (is_set providedKey) then
    ret (mkResponse 403 [] (Text "Forbidden: Admin key required"))
  else
    let adminBuf := Buffer_from (or_default adminKey "") in
    let providedBuf := Buffer_from (or_default providedKey "") in
    (keysMatch <-
       (if (List.length adminBuf =? List.length providedBuf)%nat
        then match timingSafeEqual adminBuf providedBuf with
             | Ok b => ret b
             | Throw message => throw message
             end
        else ret false) ;;
     if negb keysMatch then
       ret (mkResponse 403 [] (Text "Forbidden: Invalid admin key"))
     else
       lift (try_catch
               (csv <- collection_to_csv ;;
                ret (mkResponse 200
                       [("Content-Type", "text/csv");
                        ("Content-Disposition",
                         "attachment; filename=" ++ dquote ++ "data.csv" ++ dquote)]
                       (Text csv)))
               (fun _ w =>
                  (mkResponse 500 []
                     (Json (JObj [("success", JBool false);
                                  ("message", JStr "Failed to export CSV")])),
                   w))))%request.

End Routes.

End Express.

(* ===================================================================== *)
(** ** The rules of the validator, one by one *)
(* ===================================================================== *)

(** A rule: when it fails on a body, and the reason it then gives. *)
Record rule : Type := mkRule {
  fails : jsval -> bool;
  reason : string
}.

Definition rule_object : rule :=
  mkRule (fun body => negb (jstype_eqb (typeof body) TObject) || is_null body)
         "Request body must be an object".

Definition rule_token : rule :=
  mkRule (fun body =>
            negb (truthy (get body "captchaToken"))
            || negb (jstype_eqb (typeof (get body "captchaToken")) TString))
         "CAPTCHA token is required".

Definition rule_name : rule :=
  mkRule (fun body =>
            negb (truthy (get body "name"))
            || negb (jstype_eqb (typeof (get body "name")) TString))
         "Name is required and must be a string".

Definition rule_roll_number : rule :=
  mkRule (fun body =>
            negb (truthy (get body "roll_number"))
            || negb (jstype_eqb (typeof (get body "roll_number")) TNumber))
         "Roll number is required and must be a number".

Definition rule_gender : rule :=
  mkRule (fun body =>
            negb (truthy (get body "gender"))
            || (negb (strict_eq (get body "gender") (JStr "M"))
                && negb (strict_eq (get body "gender") (JStr "F"))))
         "Gender is required and must be 'M' or 'F'".

Definition rule_email_present : rule :=
  mkRule (fun body =>
            negb (truthy (get body "email"))
            || negb (jstype_eqb (typeof (get body "email")) TString))
         "Email is required and must be a string".

Definition rule_email_pattern : rule :=
  mkRule (fun body => negb (test emailRegex (get body "email")))
         "Invalid email format".

Definition rule_about : rule :=
  mkRule (fun body =>
            negb (truthy (get body "about"))
            || negb (jstype_eqb (typeof (get body "about")) TString))
         "About is required and must be a string".

Definition rule_optional (field : string) : rule :=
  mkRule (fun body =>
            negb (is_undefined (get body field))
            && negb (jstype_eqb (typeof (get body field)) TString))
         (field ++ " must be a string if provided").

Definition rule_referrer_email : rule :=
  mkRule (fun body =>
            truthy (get body "referrer_email")
            && negb (test emailRegex (get body "referrer_email")))
         "Invalid referrer email format".

(** The verdict of a list of rules: the reason of the first that fails. *)
Definition first_failure (rules : list rule) (body : jsval) : verdict :=
  match find (fun r => fails r body) rules with
  | Some r => Invalid (reason r)
  | None => Valid
  end.

(** The order in which the specification lists the rules: the email pattern
    (rule 6) before [about] (rule 7). *)
Definition rules_in_spec_order : list rule :=
  [rule_object; rule_token; rule_name; rule_roll_number; rule_gender;
   rule_email_present; rule_email_pattern; rule_about]
  ++ map rule_optional optionalStringFields
  ++ [rule_referrer_email].

(** The order in which [isValidFormData] applies them: every presence check
    first, then the email pattern. *)
Definition rules_in_code_order : list rule :=
  [rule_object; rule_token; rule_name; rule_roll_number; rule_gender;
   rule_email_present; rule_about; rule_email_pattern]
  ++ map rule_optional optionalStringFields
  ++ [rule_referrer_email].

(** The required fields and the rule that checks each. *)
Inductive required_field : Type :=
| F_captchaToken | F_name | F_roll_number | F_gender | F_email | F_about.

Definition field_key (f : required_field) : string :=
  match f with
  | F_captchaToken => "captchaToken"
  | F_name => "name"
  | F_roll_number => "roll_number"
  | F_gender => "gender"
  | F_email => "email"
  | F_about => "about"
  end.

Definition field_rule (f : required_field) : rule :=
  match f with
  | F_captchaToken => rule_token
  | F_name => rule_name
  | F_roll_number => rule_roll_number
  | F_gender => rule_gender
  | F_email => rule_email_present
  | F_about => rule_about
  end.

Definition required_fields : list required_field :=
  [F_captchaToken; F_name; F_roll_number; F_gender; F_email; F_about].

(** The required fields checked before a given one. *)
Definition earlier (f : required_field) : list required_field :=
  match f with
  | F_captchaToken => []
  | F_name => [F_captchaToken]
  | F_roll_number => [F_captchaToken; F_name]
  | F_gender => [F_captchaToken; F_name; F_roll_number]
  | F_email => [F_captchaToken; F_name; F_roll_number; F_gender]
  | F_about => [F_captchaToken; F_name; F_roll_number; F_gender; F_email]
  end.

(** A required field is missing when reading it gives a falsy value:
    absent, [null], the empty string, zero or [false]. *)
Definition missing (f : required_field) (body : jsval) : bool :=
  negb (truthy (get body (field_key f))).

(** Every required field is present and well-typed: non-empty text for the
    token, the name and [about], a non-zero number for the roll number, ["M"]
    or ["F"] for the gender, non-empty text of the email shape for the email. *)
Definition required_ok (body : jsval) : bool :=
  forallb (fun f => negb (fails (field_rule f) body)) required_fields
  && test emailRegex (get body "email").

(** The optional fields are acceptable: each is absent or text, and the
    referrer email is absent, empty or of the email shape. *)
Definition optional_ok (body : jsval) : bool :=
  forallb (fun field => negb (fails (rule_optional field) body))
          optionalStringFields
  && negb (fails rule_referrer_email body).

(* ===================================================================== *)
(** ** The email shape and the language of an expression *)
(* ===================================================================== *)

(** The shape [local@domain.tld]: three non-empty parts without white space
    or [@], the first two separated by [@], the last two by a dot. *)
Definition part_ok (s : string) : Prop :=
  s <> EmptyString
  /\ Forall (fun c => not_space_at c = true) (list_ascii_of_string s).

Definition email_shape (s : string) : Prop :=
  exists local domain tld,
    s = local ++ "@" ++ domain ++ "." ++ tld
    /\ part_ok local /\ part_ok domain /\ part_ok tld.

Definition matches_email_pattern (v : jsval) : Prop :=
  exists s, v = JStr s /\ email_shape s.

(** The words of a regular expression. *)
Inductive lang : regex -> string -> Prop :=
| L_eps : lang ReEps EmptyString
| L_class p c : p c = true -> lang (ReClass p) (String c EmptyString)
| L_seq r1 r2 s1 s2 : lang r1 s1 -> lang r2 s2 -> lang (ReSeq r1 r2) (s1 ++ s2)
| L_alt_l r1 r2 s : lang r1 s -> lang (ReAlt r1 r2) s
| L_alt_r r1 r2 s : lang r2 s -> lang (ReAlt r1 r2) s
| L_star_nil r : lang (ReStar r) EmptyString
| L_star_app r s1 s2 :
    lang r s1 -> lang (ReStar r) s2 -> lang (ReStar r) (s1 ++ s2).

(* ===================================================================== *)
(** ** Vocabulary for the pipeline and the export *)
(* ===================================================================== *)

(** No store call throws. *)
Definition no_fault (e : env) : Prop := forall c, store_fault e c = None.

(** The store calls that a request adds to [calls]. *)
Definition new_calls (before after : world) : list store_call :=
  skipn (List.length (calls before)) (calls after).

(** The 409 answer that names a field. *)
Definition duplicate_response (e : env) (field : string) : response :=
  sendJsonResponse e
    (JObj [("error",
            JStr ("Registration with this " ++ field ++ " already exists"))])
    409.

(** The 403 answers of the Express server and the 401 answer of the
    Appwrite function. *)
Definition forbidden (message : string) : response :=
  mkResponse 403 [] (Text message).

Definition invalid_admin_key (e : env) : response :=
  sendJsonResponse e (JObj [("error", JStr "Invalid admin key")]) 401.


(* ===================================================================== *)
(** ** Sample environments, records and stores *)
(* ===================================================================== *)

(** A verification service that answers every token with a given score. *)
Definition env_with (adminKey : option string) (score : Q) : env :=
  mkEnv (Some "https://form.example") (Some "secret") adminKey None
        (fun _ => FetchJson (mkData true (Some score) JUndefined))
        (fun n => 1700000000000 + Z.of_nat n)
        (fun _ => "2023-11-14T22:13:20.000Z")
        (fun _ => "Tue Nov 14 2023 22:13:20 GMT+0000")
        (fun n => "id" ++ string_of_nat n)
        (fun _ => None).

Definition sample_env : env := env_with (Some "admin-key") (9 # 10).

(** The service reports a low score. *)
Definition low_score_env : env := env_with (Some "admin-key") (3 # 10).

(** No admin key is configured. *)
Definition no_admin_key_env : env := env_with None (9 # 10).

Definition empty_world : world := mkWorld [] [] 0.

Definition ann : props :=
  [("name", JStr "Ann"); ("roll_number", JNum 7); ("gender", JStr "F");
   ("email", JStr "ann@x.com"); ("about", JStr "hi");
   ("captchaToken", JStr "valid")].

(** A second registrant with Ann's roll number and another email. *)
Definition bob : props :=
  [("name", JStr "Bob"); ("roll_number", JNum 7); ("gender", JStr "M");
   ("email", JStr "bob@x.com"); ("about", JStr "hello");
   ("captchaToken", JStr "valid")].

(** A malformed email and no [about]. *)
Definition bad_email_no_about : jsval :=
  JObj [("name", JStr "Ann"); ("roll_number", JNum 7); ("gender", JStr "F");
        ("email", JStr "not-an-email"); ("captchaToken", JStr "valid")].

(** Every required field in order, and an optional field that is a number. *)
Definition ann_numeric_link : jsval :=
  JObj (ann ++ [("github_link", JNum 5)]).

(** Every required field in order, and an empty referrer email. *)
Definition ann_empty_referrer : jsval :=
  JObj (ann ++ [("referrer_email", JStr "")]).

(** A stored record with a quoted nickname in its name. *)
Definition nicknamed : props :=
  [("name", JStr ("Ann " ++ dquote ++ "A" ++ dquote));
   ("roll_number", JNum 7)].

Definition one_record_world : world := mkWorld [nicknamed] [] 0.

(** An export request carrying a given key in the query string. *)
Definition csv_request (key : option string) : request :=
  mkRequest "GET" (Some "/csv") None []
            (match key with Some k => [("key", k)] | None => [] end)
            JUndefined.

(* ===================================================================== *)
(** ** Vocabulary for sequences of submissions and for the stored records *)
(* ===================================================================== *)

(** The form body that [verifyCaptcha] posts to the verification service. *)
Definition siteverify_body (e : env) (token : jsval) : string :=
  "secret=" ++ or_default (GOOGLE_CAPTCHA_SECRET_KEY e) ""
  ++ "&response=" ++ js_toString (dateToString e) token.

(** Requests to [POST /submit] handled one after the other, each in its own
    environment. *)
Fixpoint submit_all (requests : list (env * jsval)) (w : world) : world :=
  match requests with
  | [] => w
  | (e, reqBody) :: rest => submit_all rest (snd (submit e reqBody w))
  end.

(** Two stored records collide when they hold the same roll number or the
    same email. *)
Definition collide (d d' : props) : bool :=
  strict_eq (lookup "roll_number" d) (lookup "roll_number" d')
  || strict_eq (lookup "email" d) (lookup "email" d').

(** No record of the list collides with a later one. *)
Fixpoint distinct_keys (ds : list props) : bool :=
  match ds with
  | [] => true
  | d :: rest => forallb (fun d' => negb (collide d d')) rest && distinct_keys rest
  end.

(** A stored record as the data model wants it: no token, a non-empty name
    and [about], a non-zero roll number, gender ["M"] or ["F"], an email of
    the email shape, and acceptable optional fields. *)
Definition record_ok (d : props) : bool :=
  is_undefined (lookup "captchaToken" d)
  && forallb (fun f => negb (fails (field_rule f) (JObj d)))
             [F_name; F_roll_number; F_gender; F_email; F_about]
  && test emailRegex (lookup "email" d)
  && optional_ok (JObj d).

(** The keys that the validator reads. *)
Definition validated_keys : list string :=
  map field_key required_fields ++ optionalStringFields.

(** Number of occurrences of a character. *)
Fixpoint count_char (c : ascii) (s : string) : nat :=
  match s with
  | EmptyString => 0
  | String c' s' => (if Ascii.eqb c' c then 1 else 0) + count_char c s'
  end.

(** Reading a row of the export back.  A cell of a row is quoted text, in
    which a doubled quote stands for one quote, or bare text that runs to
    the next comma. *)
Inductive cell : Type :=
| Quoted (text : string)
| Bare (text : string).

(** The states of the reader: at the start of a cell, inside quoted text,
    after a quote met inside quoted text, and inside bare text. *)
Inductive row_state : Type :=
| AtCellStart
| InQuoted
| AfterQuote
| InBare.

Definition comma_char : ascii := ascii_of_nat 44.

Fixpoint scan_row (st : row_state) (text : string) (done : list cell)
         (s : string) : option (list cell) :=
  match s with
  | EmptyString =>
      match st with
      | AtCellStart => Some (done ++ [Bare EmptyString])%list
      | InQuoted => None
      | AfterQuote => Some (done ++ [Quoted text])%list
      | InBare => Some (done ++ [Bare text])%list
      end
  | String c s' =>
      match st with
      | AtCellStart =>
          if Ascii.eqb c dquote_char then scan_row InQuoted EmptyString done s'
          else if Ascii.eqb c comma_char
               then scan_row AtCellStart EmptyString
                      (done ++ [Bare EmptyString])%list s'
               else scan_row InBare (String c EmptyString) done s'
      | InQuoted =>
          if Ascii.eqb c dquote_char then scan_row AfterQuote text done s'
          else scan_row InQuoted (text ++ String c EmptyString) done s'
      | AfterQuote =>
          if Ascii.eqb c dquote_char
          then scan_row InQuoted (text ++ dquote) done s'
          else if Ascii.eqb c comma_char
               then scan_row AtCellStart EmptyString
                      (done ++ [Quoted text])%list s'
               else None
      | InBare =>
          if Ascii.eqb c comma_char
          then scan_row AtCellStart EmptyString (done ++ [Bare text])%list s'
          else scan_row InBare (text ++ String c EmptyString) done s'
      end
  end.

(** The cells of a row; a row always has at least one cell. *)
Definition read_row (s : string) : option (list cell) :=
  scan_row AtCellStart EmptyString [] s.

(** The cell that a field of a record should read back as: a string as
    quoted text, any other value as the bare text that [join] renders. *)
Definition cell_of (e : env) (row : props) (field : string) : cell :=
  match lookup field row with
  | JStr value => Quoted value
  | value => Bare (join_text (dateToString e) value)
  end.

(** How a cell is written. *)
Definition render (c : cell) : string :=
  match c with
  | Quoted text => dquote ++ escape_quotes text ++ dquote
  | Bare text => text
  end.

(** Bare text that a reader takes for one cell: no comma in it and no
    quote at its start. *)
Definition bare_ok (text : string) : bool :=
  (count_char comma_char text =? 0)%nat
  && match text with
     | String c _ => negb (Ascii.eqb c dquote_char)
     | EmptyString => true
     end.

Definition cell_ok (c : cell) : bool :=
  match c with
  | Quoted _ => true
  | Bare text => bare_ok text
  end.

(** A registrant whose [about] holds a comma and quotes. *)
Definition carol : props :=
  [("name", JStr "Carol"); ("roll_number", JNum 12); ("gender", JStr "F");
   ("email", JStr "carol@x.com");
   ("about", JStr ("Likes " ++ dquote ++ "Go" ++ dquote ++ ", chess"));
   ("captchaToken", JStr "valid")].

(** The record that [/submit] stores for her in an empty store. *)
Definition carol_stored : props :=
  stamped sample_env (omit "captchaToken" carol)
          (clock sample_env 0) (clock sample_env 1).

(** A faulty store: the given call throws with a message, every other call
    goes through. *)
Definition store_call_eqb (a b : store_call) : bool :=
  match a, b with
  | Connect, Connect => true
  | FindOne _ _, FindOne _ _ => true
  | InsertOne _, InsertOne _ => true
  | FindAll, FindAll => true
  | Close, Close => true
  | _, _ => false
  end.

Definition env_failing (kind : store_call) (message : string)
           (mode : option string) : env :=
  mkEnv (Some "https://form.example") (Some "secret") (Some "admin-key") mode
        (fun _ => FetchJson (mkData true (Some (9 # 10)) JUndefined))
        (fun n => 1700000000000 + Z.of_nat n)
        (fun _ => "2023-11-14T22:13:20.000Z")
        (fun _ => "Tue Nov 14 2023 22:13:20 GMT+0000")
        (fun n => "id" ++ string_of_nat n)
        (fun c => if store_call_eqb c kind then Some message else None).

(** The verification service cannot be reached: [fetch] throws. *)
Definition unreachable_env : env :=
  mkEnv (Some "https://form.example") (Some "secret") (Some "admin-key") None
        (fun _ => FetchThrows "TypeError" "fetch failed")
        (fun n => 1700000000000 + Z.of_nat n)
        (fun _ => "2023-11-14T22:13:20.000Z")
        (fun _ => "Tue Nov 14 2023 22:13:20 GMT+0000")
        (fun n => "id" ++ string_of_nat n)
        (fun _ => None).

(** The path that [module.exports] routes on: [req.path || req.url || "/"]. *)
Definition resolved_path (req : request) : string :=
  or_default (or_else (path req) (url req)) "/".

(** The 404 answer of [module.exports]. *)
Definition not_found (e : env) (req : request) : response :=
  sendJsonResponse e
    (JObj [("error", JStr "Not found");
           ("path", JStr (resolved_path req));
           ("method", JStr (method req))]) 404.

(** The 500 answer of the export. *)
Definition export_failed (e : env) (message : string) : response :=
  sendJsonResponse e
    (JObj [("error", JStr "Failed to export CSV");
           ("details", dev_details e message)]) 500.

(** The answers of the Express routes. *)
Definition express_csv (csv : string) : response :=
  mkResponse 200
    [("Content-Type", "text/csv");
     ("Content-Disposition",
      "attachment; filename=" ++ dquote ++ "data.csv" ++ dquote)]
    (Text csv).

Definition express_failure (message : string) : response :=
  mkResponse 500 []
    (Json (JObj [("success", JBool false); ("message", JStr message)])).

Definition express_submitted : response :=
  mkResponse 200 [] (Text "Data submitted successfully!").

(** An [insertData] that appends the record to the collection, and one
    that throws. *)
Definition insert_plainly (e : env) (record : jsval) : M unit :=
  (_ <- insertOne e (fields_of record) ;; ret tt)%request.

Definition insert_refused (record : jsval) : M unit :=
  throw "E11000 duplicate key".

(* ===================================================================== *)
(** ** The admin-key functions (index.js and the second function of index.ts) *)
(* ===================================================================== *)

(** The two files hold the same program up to the guard of the body
    ([isValidFormData] in index.js, [isFormDataWithAdminKey] in index.ts)
    and the two paths ([/submit] and [/data] in index.js, [/api/submit] and
    [/api/data] in index.ts); the TLS options of the client, which differ
    too, are part of [Connect]. *)
Module AdminKeyFunction.

(** [k in v] for the keys read here, none of which is inherited: true on a
    plain object that has the key. *)
Definition key_in (k : string) (v : jsval) : bool :=
  match v with
  | JObj o => existsb (fun kv => (fst kv =? k)%string) o
  | _ => false
  end.

(** [isValidFormData] of index.js. *)
Definition isValidFormData (body : jsval) : bool :=
  jstype_eqb (typeof body) TObject
  && negb (is_null body)
  && key_in "adminKey" body
  && key_in "name" body
  && key_in "email" body.

(** [isFormDataWithAdminKey] of index.ts. *)
Definition isFormDataWithAdminKey (body : jsval) : bool :=
  jstype_eqb (typeof body) TObject
  && negb (is_null body)
  && key_in "adminKey" body.

(** The headers set with [res.setHeader] before anything else. *)
Definition cors_headers : list (string * string) :=
  [("Access-Control-Allow-Origin", "*");
   ("Access-Control-Allow-Methods", "GET, POST, OPTIONS");
   ("Access-Control-Allow-Headers", "Content-Type, X-Admin-Key")].

Definition json (data : jsval) (statusCode : Z) : response :=
  mkResponse statusCode cors_headers (Json data).

Section Variant.

Variable guard : jsval -> bool.
Variable submitPath : string.
Variable dataPath : string.

(** The body of the submit route. *)
Definition submit (e : env) (reqBody : jsval) : world -> response * world :=
  try_catch
    (if negb (guard reqBody) then
       ret (json (JObj [("error", JStr "Invalid form data")]) 400)
     else
       let formData := reqBody in
       if negb (truthy (get formData "adminKey"))
          || negb (strict_eq (get formData "adminKey") (of_option (ADMIN_KEY e)))
       then ret (json (JObj [("error", JStr "Invalid admin key")]) 401)
       else
         let dataToSave := omit "adminKey" (fields_of formData) in
         (_ <- store_op e Connect ;;
          createdAt <- new_Date e ;;
          submittedAt <- new_Date e ;;
          insertedId <- insertOne e (stamped e dataToSave createdAt submittedAt) ;;
          _ <- store_op e Close ;;
          ret (json (JObj [("success", JBool true);
                           ("id", JStr insertedId);
                           ("message", JStr "Form submitted successfully")])
                    200))%request)
    (fun errorMessage w =>
       (json (JObj [("error", JStr "Failed to save data");
                    ("details", dev_details e errorMessage)]) 500, w)).

(** The body of the data route. *)
Definition data (e : env) (req : request) : world -> response * world :=
  try_catch
    (let adminKey :=
       or_else (assoc "x-admin-key" (req_headers req))
               (assoc "X-Admin-Key" (req_headers req)) in
     if negb (is_set adminKey)
        || negb (strict_eq (of_option adminKey) (of_option (ADMIN_KEY e)))
     then ret (json (JObj [("error", JStr "Invalid admin key")]) 401)
     else
       (_ <- store_op e Connect ;;
        documents <- find_all e ;;
        _ <- store_op e Close ;;
        ret (json (JArr (map JObj documents)) 200))%request)
    (fun errorMessage w =>
       (json (JObj [("error", JStr "Failed to fetch data");
                    ("details", dev_details e errorMessage)]) 500, w)).

(** The entry point. *)
Definition handler (e : env) (req : request) : world -> response * world :=
  try_catch
    (if (method req =? "OPTIONS")%string then
       ret (mkResponse 200 cors_headers (Text ""))
     else
       let path := or_default (or_else (path req) (url req)) "/" in
       if (path =? "/health")%string || (path =? "/")%string then
         (now <- new_Date e ;;
          ret (json (JObj [("status", JStr "OK");
                           ("message", JStr "Appwrite function is running");
                           ("timestamp", JStr (toISOString e now))]) 200))%request
       else if (path =? submitPath)%string && (method req =? "POST")%string then
         lift (submit e (body req))
       else if (path =? dataPath)%string && (method req =? "GET")%string then
         lift (data e req)
       else
         ret (json (JObj [("error", JStr "Not found");
                          ("path", JStr path);
                          ("method", JStr (method req))]) 404))
    (fun errorMessage w =>
       (json (JObj [("error", JStr "Internal server error");
                    ("details", dev_details e errorMessage)]) 500, w)).

End Variant.

(** index.js *)
Definition index_js : env -> request -> world -> response * world :=
  handler isValidFormData "/submit" "/data".

(** The second function of index.ts *)
Definition index_ts : env -> request -> world -> response * world :=
  handler isFormDataWithAdminKey "/api/submit" "/api/data".

End AdminKeyFunction.

(* ===================================================================== *)
(** ** The data-handler function (the first function of index.ts) *)
(* ===================================================================== *)

Module DataHandlerFunction.

Definition corsHeaders (e : env) : list (string * string) :=
  [("Access-Control-Allow-Origin", or_default (FRONTEND_URL e) "*");
   ("Access-Control-Allow-Methods", "GET, POST, OPTIONS");
   ("Access-Control-Allow-Headers", "Content-Type, Authorization")].

Definition json (e : env) (data : jsval) (statusCode : Z) : response :=
  mkResponse statusCode (corsHeaders e) (Json data).

(** Reading a property throws on [undefined] and [null]. *)
Definition read (v : jsval) (k : string) : M jsval :=
  match v with
  | JUndefined => throw "Cannot read properties of undefined"
  | JNull => throw "Cannot read properties of null"
  | _ => ret (get v k)
  end.

Section Routes.

(** The four operations of [services/data_handler], which is not part of
    the sources at hand: any computations on the store. *)
Variable connectDB : M unit.
Variable closeDB : M unit.
Variable insertData : jsval -> M unit.
Variable collection_to_csv : M string.

(** The submit route: [!formData.name || !formData.email] reads [email]
    only when [name] is truthy. *)
Definition submit (e : env) (formData : jsval) : M response :=
  (name <- read formData "name" ;;
   missing <- (if negb (truthy name) then ret true
               else (email <- read formData "email" ;;
                     ret (negb (truthy email)))) ;;
   if (missing : bool) then
     ret (json e (JObj [("success", JBool false);
                        ("message", JStr "Name and email are required")]) 400)
   else
     lift (try_catch
             (_ <- insertData formData ;;
              ret (json e (JObj [("success", JBool true);
                                 ("message", JStr "Form submitted successfully")])
                        200))
             (fun errorMessage w =>
                (json e (JObj [("success", JBool false);
                               ("message", JStr errorMessage)]) 500, w))))%request.

(** The export route. *)
Definition export_csv (e : env) : M response :=
  lift (try_catch
          (csvData <- collection_to_csv ;;
           ret (mkResponse 200
                  (corsHeaders e
                   ++ [("Content-Type", "text/csv");
                       ("Content-Disposition",
                        "attachment; filename=" ++ dquote ++ "form_data.csv"
                        ++ dquote)])
                  (Text csvData)))%request
          (fun _ w =>
             (json e (JObj [("success", JBool false);
                            ("message", JStr "Failed to export CSV")]) 500, w))).

(** The entry point: the preflight answer comes before the [try]. *)
Definition handler (e : env) (req : request) : world -> response * world :=
  if (method req =? "OPTIONS")%string then
    fun w => (json e (JObj []) 200, w)
  else
    try_catch
      (let is_path p :=
         match path req with Some q => (q =? p)%string | None => false end in
       if (method req =? "GET")%string && is_path "/health" then
         (_ <- connectDB ;;
          ret (json e (JObj [("message", JStr "Server is running! DB Connected")])
                    200))%request
       else if (method req =? "POST")%string && is_path "/submit" then
         submit e (body req)
       else if (method req =? "GET")%string && is_path "/csv" then
         export_csv e
       else if (method req =? "GET")%string && is_path "/close" then
         (_ <- closeDB ;;
          ret (json e
                 (JObj [("message",
                         JStr "Server is shutting down! DB Connection Closed")])
                 200))%request
       else
         ret (json e (JObj [("success", JBool false);
                            ("message", JStr "Endpoint not found")]) 404))
      (fun _ w =>
         (json e (JObj [("success", JBool false);
                        ("message", JStr "Internal server error")]) 500, w)).

End Routes.

End DataHandlerFunction.

(** A request to a route of a function, with a body and headers. *)
Definition post (path : string) (reqBody : jsval) : request :=
  mkRequest "POST" (Some path) None [] [] reqBody.

Definition get_with_headers (path : string) (hs : list (string * string))
  : request :=
  mkRequest "GET" (Some path) None hs [] JUndefined.

(** A record with the admin key in its body and neither name nor email. *)
Definition keyed_only : props :=
  [("adminKey", JStr "admin-key"); ("captchaToken", JStr "t");
   ("roll_number", JNum 7)].

(* ===================================================================== *)
(** ** Routing *)
(* ===================================================================== *)

(** The entry point hands [POST /submit] to the submission pipeline and
    [GET /csv] to the export. *)
Lemma handler_submit (e : env) (req : request) (w : world) :
  method req = "POST" -> path req = Some "/submit" ->
  handler e req w = submit e (body req) w.
Proof.
  intros Hm Hp. unfold handler, try_catch, lift. rewrite Hm, Hp. simpl.
  destruct (submit e (body req) w). reflexivity.
Qed.

Lemma handler_csv (e : env) (req : request) (w : world) :
  method req = "GET" -> path req = Some "/csv" ->
  handler e req w = export_csv e req w.
Proof.
  intros Hm Hp. unfold handler, try_catch, lift. rewrite Hm, Hp. simpl.
  destruct (export_csv e req w). reflexivity.
Qed.

(* ===================================================================== *)
(** ** Strings *)
(* ===================================================================== *)

Lemma append_empty_r (s : string) : s ++ "" = s.
Proof. induction s as [|c s IH]; simpl; [reflexivity | now rewrite IH]. Qed.

Lemma append_assoc (a b c : string) : (a ++ b) ++ c = a ++ (b ++ c).
Proof. induction a as [|x a IH]; simpl; [reflexivity | now rewrite IH]. Qed.

Lemma append_eq_empty (a b : string) : a ++ b = "" -> a = "" /\ b = "".
Proof. destruct a; simpl; intros H; [auto | discriminate]. Qed.

Lemma list_ascii_app (a b : string) :
  list_ascii_of_string (a ++ b) = (list_ascii_of_string a ++ list_ascii_of_string b)%list.
Proof. induction a as [|x a IH]; simpl; [reflexivity | now rewrite IH]. Qed.

(* ===================================================================== *)
(** ** The matcher decides the language of the expression *)
(* ===================================================================== *)

Lemma lang_none_inv (s : string) : ~ lang ReNone s.
Proof. intros H; inversion H. Qed.

Lemma lang_eps_inv (s : string) : lang ReEps s -> s = "".
Proof. intros H; inversion H; reflexivity. Qed.

Lemma lang_class_inv (p : ascii -> bool) (s : string) :
  lang (ReClass p) s -> exists c, s = String c "" /\ p c = true.
Proof. intros H; inversion H; subst; eauto. Qed.

Lemma lang_seq_inv (r1 r2 : regex) (s : string) :
  lang (ReSeq r1 r2) s ->
  exists s1 s2, s = s1 ++ s2 /\ lang r1 s1 /\ lang r2 s2.
Proof. intros H; inversion H; subst; eauto. Qed.

Lemma lang_alt_inv (r1 r2 : regex) (s : string) :
  lang (ReAlt r1 r2) s -> lang r1 s \/ lang r2 s.
Proof. intros H; inversion H; subst; auto. Qed.

(** A non-empty word of a starred expression starts with a non-empty word
    of the expression. *)
Lemma lang_star_cons (r : regex) (c : ascii) (s : string) :
  lang (ReStar r) (String c s) ->
  exists s1 s2, s = s1 ++ s2 /\ lang r (String c s1) /\ lang (ReStar r) s2.
Proof.
  intros H.
  remember (ReStar r) as r' eqn:Er.
  remember (String c s) as t eqn:Et.
  revert c s Et.
  induction H; intros c0 s0 Et; try discriminate.
  inversion Er; subst r0.
  destruct s1 as [|c1 s1'].
  - simpl in Et. apply IHlang2; auto.
  - simpl in Et. inversion Et; subst. exists s1', s2. auto.
Qed.

Lemma nullable_lang (r : regex) : nullable r = true <-> lang r "".
Proof.
  induction r as [| |p|r1 IH1 r2 IH2|r1 IH1 r2 IH2|r IH]; simpl.
  - split; [discriminate | intros H; inversion H].
  - split; [constructor | reflexivity].
  - split; [discriminate | intros H; inversion H].
  - rewrite andb_true_iff, IH1, IH2. split.
    + intros [H1 H2]. change (lang (ReSeq r1 r2) ("" ++ "")). now constructor.
    + intros H. apply lang_seq_inv in H. destruct H as (s1 & s2 & E & H1 & H2).
      symmetry in E. apply append_eq_empty in E. destruct E; subst. auto.
  - rewrite orb_true_iff, IH1, IH2. split.
    + intros [H|H]; [now apply L_alt_l | now apply L_alt_r].
    + apply lang_alt_inv.
  - split; [constructor | reflexivity].
Qed.

Lemma deriv_lang (r : regex) (c : ascii) (s : string) :
  lang (deriv c r) s <-> lang r (String c s).
Proof.
  revert s.
  induction r as [| |p|r1 IH1 r2 IH2|r1 IH1 r2 IH2|r IH]; intros s; simpl.
  - split; intros H; inversion H.
  - split; intros H; inversion H.
  - destruct (p c) eqn:Ep; split; intros H.
    + apply lang_eps_inv in H. subst. now constructor.
    + inversion H; subst. constructor.
    + inversion H.
    + inversion H; subst. congruence.
  - assert (Hseq : lang (ReSeq (deriv c r1) r2) s ->
                   lang (ReSeq r1 r2) (String c s)).
    { intros H. apply lang_seq_inv in H. destruct H as (s1 & s2 & E & H1 & H2).
      subst. apply IH1 in H1.
      change (lang (ReSeq r1 r2) (String c s1 ++ s2)). now constructor. }
    assert (Hinv : lang (ReSeq r1 r2) (String c s) ->
                   lang (ReSeq (deriv c r1) r2) s
                   \/ (lang r1 "" /\ lang (deriv c r2) s)).
    { intros H. apply lang_seq_inv in H. destruct H as (s1 & s2 & E & H1 & H2).
      destruct s1 as [|c1 s1']; simpl in E.
      - right. subst s2. split; [assumption | now apply IH2].
      - left. inversion E; subst. constructor; [now apply IH1 | assumption]. }
    destruct (nullable r1) eqn:En.
    + split; intros H.
      * apply lang_alt_inv in H. destruct H as [H|H]; [now apply Hseq|].
        apply IH2 in H. apply nullable_lang in En.
        change (lang (ReSeq r1 r2) ("" ++ String c s)). now constructor.
      * destruct (Hinv H) as [H'|[_ H']]; [now apply L_alt_l | now apply L_alt_r].
    + split; intros H; [now apply Hseq|].
      destruct (Hinv H) as [H'|[H' _]]; [assumption|].
      apply nullable_lang in H'. congruence.
  - split; intros H.
    + apply lang_alt_inv in H.
      destruct H as [H|H]; [apply L_alt_l; now apply IH1 | apply L_alt_r; now apply IH2].
    + apply lang_alt_inv in H.
      destruct H as [H|H]; [apply L_alt_l; now apply IH1 | apply L_alt_r; now apply IH2].
  - split; intros H.
    + apply lang_seq_inv in H. destruct H as (s1 & s2 & E & H1 & H2). subst.
      apply IH in H1.
      change (lang (ReStar r) (String c s1 ++ s2)). now constructor.
    + apply lang_star_cons in H. destruct H as (s1 & s2 & E & H1 & H2). subst.
      constructor; [now apply IH | assumption].
Qed.

Lemma matches_lang (r : regex) (s : string) : matches r s = true <-> lang r s.
Proof.
  revert r. induction s as [|c s IH]; intros r; simpl.
  - apply nullable_lang.
  - rewrite IH. apply deriv_lang.
Qed.

(** One or more characters of a class: a non-empty string of such characters. *)
Lemma lang_star_class (p : ascii -> bool) (s : string) :
  lang (ReStar (ReClass p)) s <->
  Forall (fun c => p c = true) (list_ascii_of_string s).
Proof.
  split.
  - revert p. induction s as [|c s IH]; intros p H; simpl; [constructor|].
    apply lang_star_cons in H. destruct H as (s1 & s2 & E & H1 & H2).
    inversion H1; subst. simpl. constructor; [assumption | now apply IH].
  - induction s as [|c s IH]; simpl; intros H; [constructor|].
    inversion H; subst.
    change (lang (ReStar (ReClass p)) (String c "" ++ s)).
    constructor; [now constructor | now apply IH].
Qed.

Lemma lang_plus_class (p : ascii -> bool) (s : string) :
  lang (RePlus (ReClass p)) s <->
  s <> "" /\ Forall (fun c => p c = true) (list_ascii_of_string s).
Proof.
  unfold RePlus. split.
  - intros H. apply lang_seq_inv in H. destruct H as (s1 & s2 & E & H1 & H2).
    inversion H1; subst. simpl. split; [discriminate|].
    constructor; [assumption | now apply lang_star_class].
  - intros [Hne H]. destruct s as [|c s]; [congruence|].
    simpl in H. inversion H; subst.
    change (lang (ReSeq (ReClass p) (ReStar (ReClass p))) (String c "" ++ s)).
    constructor; [now constructor | now apply lang_star_class].
Qed.

Lemma lang_char (c : ascii) (s : string) :
  lang (ReChar c) s <-> s = String c "".
Proof.
  unfold ReChar. split.
  - intros H. inversion H; subst. apply Ascii.eqb_eq in H1. now subst.
  - intros ->. constructor. apply Ascii.eqb_refl.
Qed.

(** The email expression accepts exactly the strings of the shape
    [local@domain.tld]. *)
Lemma emailRegex_shape (s : string) :
  matches emailRegex s = true <-> email_shape s.
Proof.
  rewrite matches_lang. unfold emailRegex, email_shape, part_ok. split.
  - intros H.
    apply lang_seq_inv in H. destruct H as (l & s1 & -> & Hl & H).
    apply lang_seq_inv in H. destruct H as (a & s2 & -> & Ha & H).
    apply lang_seq_inv in H. destruct H as (d & s3 & -> & Hd & H).
    apply lang_seq_inv in H. destruct H as (dot & t & -> & Hdot & Ht).
    apply lang_char in Ha, Hdot. subst.
    apply lang_plus_class in Hl, Hd, Ht.
    exists l, d, t. auto.
  - intros (l & d & t & -> & Hl & Hd & Ht).
    apply lang_plus_class in Hl, Hd, Ht.
    repeat (constructor; try assumption); now apply lang_char.
Qed.

(* ===================================================================== *)
(** ** The validator *)
(* ===================================================================== *)

Lemma first_failure_cons (r : rule) (rules : list rule) (body : jsval) :
  first_failure (r :: rules) body =
  if fails r body then Invalid (reason r) else first_failure rules body.
Proof. unfold first_failure. simpl. destruct (fails r body); reflexivity. Qed.

(** The loop over the optional fields is the list of their rules. *)
Lemma first_failure_optional (fields : list string) (rest : list rule) (body : jsval) :
  first_failure (map rule_optional fields ++ rest) body =
  match check_optional body fields with
  | Some e => Invalid e
  | None => first_failure rest body
  end.
Proof.
  induction fields as [|field fields IH]; simpl; [reflexivity|].
  rewrite first_failure_cons. cbn [fails reason rule_optional].
  destruct (negb (is_undefined (get body field))
            && negb (jstype_eqb (typeof (get body field)) TString));
    [reflexivity | exact IH].
Qed.

Lemma isValidFormData_rules (body : jsval) :
  isValidFormData body = first_failure rules_in_code_order body.
Proof.
  unfold rules_in_code_order. cbn [app].
  rewrite !first_failure_cons, first_failure_optional.
  unfold first_failure at 1. cbn [find].
  unfold isValidFormData.
  cbn [fails reason rule_object rule_token rule_name rule_roll_number
       rule_gender rule_email_present rule_about rule_email_pattern
       rule_referrer_email].
  repeat match goal with
         | |- (if ?c then _ else _) = _ => destruct c; [reflexivity|]
         end.
  destruct (check_optional body optionalStringFields); [reflexivity|].
  destruct (truthy (get body "referrer_email")
            && negb (test emailRegex (get body "referrer_email")));
    reflexivity.
Qed.

(** Every rule that the validator applies passes on an accepted body, and a
    body on which every rule passes is accepted. *)
Lemma first_failure_valid (rules : list rule) (body : jsval) :
  first_failure rules body = Valid <->
  forall r, In r rules -> fails r body = false.
Proof.
  induction rules as [|r rules IH]; simpl.
  - split; [intros _ r [] | reflexivity].
  - rewrite first_failure_cons. destruct (fails r body) eqn:E.
    + split; [discriminate|]. intros H. specialize (H r (or_introl eq_refl)). congruence.
    + rewrite IH. split.
      * intros H r' [<-|Hin]; auto.
      * intros H r' Hin. apply H. now right.
Qed.

Lemma first_failure_invalid (rules : list rule) (body : jsval) (r : rule) :
  In r rules -> fails r body = true -> valid (first_failure rules body) = false.
Proof.
  intros Hin Hf. destruct (first_failure rules body) eqn:E; [|reflexivity].
  rewrite first_failure_valid in E. specialize (E r Hin). congruence.
Qed.

Lemma field_rule_in_code_order (f : required_field) :
  In (field_rule f) rules_in_code_order.
Proof. destruct f; simpl; auto 10. Qed.

Lemma test_shape (v : jsval) :
  test emailRegex v = true <-> matches_email_pattern v.
Proof.
  unfold matches_email_pattern. split.
  - destruct v; simpl; try discriminate. intros H. exists s. split; [reflexivity|].
    now apply emailRegex_shape.
  - intros (s & -> & H). simpl. now apply emailRegex_shape.
Qed.

Lemma test_not_shape (v : jsval) :
  ~ matches_email_pattern v -> test emailRegex v = false.
Proof.
  intros H. destruct (test emailRegex v) eqn:E; [|reflexivity].
  apply test_shape in E. contradiction.
Qed.

(** The reason returned belongs to a rule that fails and that no failing
    rule precedes. *)
Lemma first_failure_first (rules : list rule) (body : jsval) (e : string) :
  first_failure rules body = Invalid e ->
  exists before r after,
    rules = (before ++ r :: after)%list
    /\ fails r body = true /\ reason r = e
    /\ forall r', In r' before -> fails r' body = false.
Proof.
  induction rules as [|r rules IH]; [discriminate|].
  rewrite first_failure_cons. destruct (fails r body) eqn:E.
  - intros H. inversion H; subst. exists [], r, rules. simpl. intuition.
  - intros H. destruct (IH H) as (before & r0 & after & -> & Hf & Hr & Hb).
    exists (r :: before), r0, after. simpl. repeat split; auto.
    intros r' [<-|Hin]; auto.
Qed.

(** The order of the specification and the order of the code give the same
    verdict unless the email is malformed and [about] fails as well. *)
Lemma orders_agree (body : jsval) :
  fails rule_email_pattern body = false \/ fails rule_about body = false ->
  first_failure rules_in_spec_order body
  = first_failure rules_in_code_order body.
Proof.
  intros H. unfold rules_in_spec_order, rules_in_code_order. cbn [app].
  rewrite !first_failure_cons.
  destruct (fails rule_email_pattern body) eqn:Ep;
    destruct (fails rule_about body) eqn:Ea; try reflexivity.
  destruct H; discriminate.
Qed.

(** C1, as the code has it.  The validator returns the reason of the first
    failing rule in the order object check, token, name, roll_number,
    gender, email presence, about, email pattern, optional-field types,
    referrer_email pattern; no rule after the first failing one is consulted.
    For the record with a malformed email and no [about] the reason is the
    one of [about]. *)
Theorem validator_first_failure_wins :
  (forall body, isValidFormData body = first_failure rules_in_code_order body)
  /\ (forall body e,
        isValidFormData body = Invalid e ->
        exists before r after,
          rules_in_code_order = (before ++ r :: after)%list
          /\ fails r body = true /\ reason r = e
          /\ forall r', In r' before -> fails r' body = false)
  /\ isValidFormData bad_email_no_about
     = Invalid "About is required and must be a string".
Proof.
  split; [exact isValidFormData_rules|]. split; [|reflexivity].
  intros body e H. rewrite isValidFormData_rules in H.
  now apply first_failure_first.
Qed.

Lemma validator_first_failure_wins_witness :
  exists before r after,
    rules_in_code_order = (before ++ r :: after)%list
    /\ fails r bad_email_no_about = true
    /\ reason r = "About is required and must be a string"
    /\ forall r', In r' before -> fails r' bad_email_no_about = false.
Proof.
  destruct validator_first_failure_wins as (_ & H & _).
  apply (H bad_email_no_about "About is required and must be a string").
  reflexivity.
Defined.

(** C1, as the specification words it, fails: with the email pattern ranked
    before [about], the record with a malformed email and no [about] would
    get the malformed-email reason, and the validator gives the one of
    [about]. *)
Lemma validator_spec_order_refuted :
  first_failure rules_in_spec_order bad_email_no_about
  = Invalid "Invalid email format"
  /\ isValidFormData bad_email_no_about
     = Invalid "About is required and must be a string"
  /\ ~ (forall body,
          isValidFormData body = first_failure rules_in_spec_order body).
Proof.
  split; [reflexivity|]. split; [reflexivity|].
  intros H. specialize (H bad_email_no_about). discriminate H.
Qed.

Lemma missing_fails (f : required_field) (body : jsval) :
  missing f body = true -> fails (field_rule f) body = true.
Proof.
  unfold missing. destruct f; cbn [field_key field_rule fails rule_token
    rule_name rule_roll_number rule_gender rule_email_present rule_about];
    intros ->; reflexivity.
Qed.

Lemma required_ok_rules (body : jsval) :
  required_ok body = true <->
  (forall f, fails (field_rule f) body = false)
  /\ fails rule_email_pattern body = false.
Proof.
  unfold required_ok, required_fields. cbn [forallb fails rule_email_pattern].
  rewrite !andb_true_iff, !negb_true_iff, negb_false_iff. split.
  - intros ((H1 & H2 & H3 & H4 & H5 & H6 & _) & H7). split; [|assumption].
    intros []; assumption.
  - intros (H & H7). repeat split; auto.
Qed.

Lemma optional_ok_rules (body : jsval) :
  optional_ok body = true <->
  (forall field, In field optionalStringFields ->
                 fails (rule_optional field) body = false)
  /\ fails rule_referrer_email body = false.
Proof.
  unfold optional_ok. rewrite andb_true_iff, forallb_forall, negb_true_iff.
  split; intros (H & H'); (split; [|assumption]);
    intros field Hin; specialize (H field Hin);
    now (apply negb_true_iff in H || apply negb_true_iff).
Qed.

(** A body that is an object and on which the rules of the required fields,
    the email pattern and the rules of the optional fields pass is accepted. *)
Lemma accepted_when_all_pass (body : jsval) :
  fails rule_object body = false ->
  (forall f, fails (field_rule f) body = false) ->
  fails rule_email_pattern body = false ->
  optional_ok body = true ->
  isValidFormData body = Valid.
Proof.
  intros Hobj Hreq Hpat Hopt. apply optional_ok_rules in Hopt.
  destruct Hopt as (Hopt & Href).
  rewrite isValidFormData_rules. apply first_failure_valid.
  intros r Hin. unfold rules_in_code_order in Hin.
  cbn [app] in Hin.
  repeat (destruct Hin as [<-|Hin];
          [first [assumption
                 | exact (Hreq F_captchaToken) | exact (Hreq F_name)
                 | exact (Hreq F_roll_number) | exact (Hreq F_gender)
                 | exact (Hreq F_email) | exact (Hreq F_about)]|]).
  apply in_app_or in Hin. destruct Hin as [Hin|[<-|[]]]; [|assumption].
  apply in_map_iff in Hin. destruct Hin as (field & <- & Hin). now apply Hopt.
Qed.

Lemma missing_rejected (body : jsval) (f : required_field) :
  missing f body = true -> valid (isValidFormData body) = false.
Proof.
  intros Hm. rewrite isValidFormData_rules.
  apply (first_failure_invalid _ _ (field_rule f)).
  - apply field_rule_in_code_order.
  - now apply missing_fails.
Qed.

Lemma missing_reason (body : jsval) (f : required_field) :
  fails rule_object body = false ->
  missing f body = true ->
  (forall g, In g (earlier f) -> fails (field_rule g) body = false) ->
  isValidFormData body = Invalid (reason (field_rule f)).
Proof.
  intros Hobj Hm Hearlier. apply missing_fails in Hm.
  rewrite isValidFormData_rules. unfold rules_in_code_order. cbn [app].
  rewrite first_failure_cons, Hobj.
  destruct f; cbn [earlier field_rule] in *;
    repeat (rewrite first_failure_cons;
            first
              [ rewrite Hm; reflexivity
              | match goal with
                | |- context [fails ?r body] =>
                    let H := fresh "Hpass" in
                    assert (H : fails r body = false)
                      by (first [ apply (Hearlier F_captchaToken)
                                | apply (Hearlier F_name)
                                | apply (Hearlier F_roll_number)
                                | apply (Hearlier F_gender)
                                | apply (Hearlier F_email) ];
                          simpl; auto 10);
                    rewrite H
                end ]).
Qed.

(** C2, as the code has it.  A record in which a required field is missing
    is rejected; the reason is the one of that field when the required
    fields checked before it (token, name, roll_number, gender, email, about,
    in this order) pass; and a record is accepted when every required field
    is present and well-typed, the email has the email shape, and the
    optional fields are absent or text, with a referrer email that is empty
    or of the email shape. *)
Theorem required_fields_checked (body : jsval) :
  (forall f, missing f body = true -> valid (isValidFormData body) = false)
  /\ (forall f,
        fails rule_object body = false ->
        missing f body = true ->
        (forall g, In g (earlier f) -> fails (field_rule g) body = false) ->
        isValidFormData body = Invalid (reason (field_rule f)))
  /\ (fails rule_object body = false ->
      required_ok body = true ->
      optional_ok body = true ->
      isValidFormData body = Valid).
Proof.
  split; [|split].
  - intros f. apply missing_rejected.
  - intros f. apply missing_reason.
  - intros Hobj Hreq Hopt. apply required_ok_rules in Hreq.
    destruct Hreq as (Hreq & Hpat). now apply accepted_when_all_pass.
Qed.

Lemma required_fields_checked_witness :
  valid (isValidFormData bad_email_no_about) = false
  /\ isValidFormData bad_email_no_about = Invalid (reason (field_rule F_about))
  /\ isValidFormData (JObj ann) = Valid.
Proof.
  split; [|split].
  - apply (proj1 (required_fields_checked bad_email_no_about) F_about).
    reflexivity.
  - apply (proj1 (proj2 (required_fields_checked bad_email_no_about)) F_about).
    + reflexivity.
    + reflexivity.
    + intros g Hin. simpl in Hin.
      repeat (destruct Hin as [<-|Hin]; [reflexivity|]). destruct Hin.
  - apply (proj2 (proj2 (required_fields_checked (JObj ann)))); reflexivity.
Defined.

(** C2, as stated, fails: every required field of this record is present
    and well-typed, and the record is rejected for the number in its
    optional [github_link]. *)
Lemma required_ok_not_enough :
  fails rule_object ann_numeric_link = false
  /\ required_ok ann_numeric_link = true
  /\ isValidFormData ann_numeric_link
     = Invalid "github_link must be a string if provided".
Proof. repeat split. Qed.

Lemma rule_email_pattern_in_code_order : In rule_email_pattern rules_in_code_order.
Proof. simpl; auto 10. Qed.

Lemma rule_referrer_email_in_code_order :
  In rule_referrer_email rules_in_code_order.
Proof. simpl; auto 20. Qed.

Lemma rule_optional_in_code_order (field : string) :
  In field optionalStringFields ->
  In (rule_optional field) rules_in_code_order.
Proof.
  intros H. unfold rules_in_code_order. apply in_or_app. right.
  apply in_or_app. left. now apply in_map.
Qed.

(** C3, as the code has it.  A record whose email does not have the shape
    [local@domain.tld] is rejected; so is a record whose referrer email is
    present, is not the empty string and does not have that shape.  A
    record with the email [a@b.co] is accepted when its other rules pass,
    and a record with the email [not-an-email] is rejected. *)
Theorem email_pattern_enforced (body : jsval) :
  (~ matches_email_pattern (get body "email") ->
   valid (isValidFormData body) = false)
  /\ (get body "referrer_email" <> JUndefined ->
      get body "referrer_email" <> JStr "" ->
      ~ matches_email_pattern (get body "referrer_email") ->
      valid (isValidFormData body) = false)
  /\ (fails rule_object body = false ->
      get body "email" = JStr "a@b.co" ->
      (forall f, f <> F_email -> fails (field_rule f) body = false) ->
      optional_ok body = true ->
      isValidFormData body = Valid)
  /\ (get body "email" = JStr "not-an-email" ->
      valid (isValidFormData body) = false).
Proof.
  repeat split.
  - intros H. apply test_not_shape in H. rewrite isValidFormData_rules.
    apply (first_failure_invalid _ _ rule_email_pattern).
    + apply rule_email_pattern_in_code_order.
    + cbn [fails rule_email_pattern]. now rewrite H.
  - intros Hdef Hne H. apply test_not_shape in H.
    rewrite isValidFormData_rules.
    destruct (get body "referrer_email") as [| | | |s| | |] eqn:E;
      try congruence;
      try (apply (first_failure_invalid _ _ (rule_optional "referrer_email"));
           [ apply rule_optional_in_code_order; simpl; auto 10
           | cbn [fails rule_optional]; rewrite E; reflexivity ]).
    apply (first_failure_invalid _ _ rule_referrer_email).
    + apply rule_referrer_email_in_code_order.
    + cbn [fails rule_referrer_email]. rewrite E, H. simpl.
      destruct s; [congruence | reflexivity].
  - intros Hobj Hemail Hothers Hopt. apply accepted_when_all_pass; auto.
    + intros f. destruct f; try (apply Hothers; discriminate).
      cbn [field_rule fails rule_email_present]. rewrite Hemail. reflexivity.
    + cbn [fails rule_email_pattern]. rewrite Hemail. reflexivity.
  - intros Hemail. rewrite isValidFormData_rules.
    apply (first_failure_invalid _ _ rule_email_pattern).
    + apply rule_email_pattern_in_code_order.
    + cbn [fails rule_email_pattern]. rewrite Hemail. reflexivity.
Qed.

Lemma email_pattern_enforced_witness :
  valid (isValidFormData bad_email_no_about) = false
  /\ valid (isValidFormData (JObj (ann ++ [("referrer_email", JStr "nobody")])))
     = false
  /\ isValidFormData (JObj (set "email" (JStr "a@b.co") ann)) = Valid.
Proof.
  split; [|split].
  - apply (proj2 (proj2 (proj2 (email_pattern_enforced bad_email_no_about)))).
    reflexivity.
  - apply (proj1 (proj2 (email_pattern_enforced
                           (JObj (ann ++ [("referrer_email", JStr "nobody")]))))).
    + discriminate.
    + discriminate.
    + intros H. apply test_shape in H. discriminate H.
  - apply (proj1 (proj2 (proj2 (email_pattern_enforced
                                  (JObj (set "email" (JStr "a@b.co") ann)))))).
    + reflexivity.
    + reflexivity.
    + intros f _. destruct f; reflexivity.
    + reflexivity.
Defined.

(** C3, as stated, fails: the referrer email of this record is present and
    does not have the email shape, being the empty string, and the record is
    accepted. *)
Lemma empty_referrer_email_accepted :
  get ann_empty_referrer "referrer_email" <> JUndefined
  /\ ~ matches_email_pattern (get ann_empty_referrer "referrer_email")
  /\ isValidFormData ann_empty_referrer = Valid.
Proof.
  split; [discriminate|]. split; [|reflexivity].
  intros H. apply test_shape in H. discriminate H.
Qed.

(** C9.  A record whose [roll_number] is the number 0 is rejected, and the
    reason, when the rules before it (object, token, name) pass, is the one
    of the roll number: zero is of type number, and it is falsy, so the field
    counts as missing. *)
Theorem zero_roll_number_rejected (body : jsval) :
  get body "roll_number" = JNum 0 ->
  typeof (get body "roll_number") = TNumber
  /\ missing F_roll_number body = true
  /\ valid (isValidFormData body) = false
  /\ (fails rule_object body = false ->
      fails rule_token body = false ->
      fails rule_name body = false ->
      isValidFormData body
      = Invalid "Roll number is required and must be a number").
Proof.
  intros H.
  assert (Hm : missing F_roll_number body = true).
  { unfold missing. cbn [field_key]. rewrite H. reflexivity. }
  split; [now rewrite H|]. split; [assumption|]. split.
  - apply (missing_rejected body F_roll_number Hm).
  - intros Hobj Htok Hname.
    apply (missing_reason body F_roll_number Hobj Hm).
    intros g Hin. simpl in Hin.
    destruct Hin as [<-|[<-|[]]]; assumption.
Qed.

Lemma zero_roll_number_rejected_witness :
  isValidFormData (JObj (set "roll_number" (JNum 0) ann))
  = Invalid "Roll number is required and must be a number".
Proof.
  apply (zero_roll_number_rejected (JObj (set "roll_number" (JNum 0) ann)));
    reflexivity.
Defined.

(* ===================================================================== *)
(** ** Objects *)
(* ===================================================================== *)

Lemma lookup_set_eq (k : string) (v : jsval) (o : props) :
  lookup k (set k v o) = v.
Proof.
  induction o as [|[k' v'] o IH]; simpl.
  - now rewrite String.eqb_refl.
  - destruct (k' =? k)%string eqn:E; simpl; rewrite E; [reflexivity | exact IH].
Qed.

Lemma lookup_set_ne (k k' : string) (v : jsval) (o : props) :
  k <> k' -> lookup k (set k' v o) = lookup k o.
Proof.
  intros Hne. induction o as [|[k0 v0] o IH]; simpl.
  - destruct (k' =? k)%string eqn:E; [|reflexivity].
    apply String.eqb_eq in E. congruence.
  - destruct (k0 =? k')%string eqn:E; simpl.
    + apply String.eqb_eq in E. subst k0.
      destruct (k' =? k)%string eqn:E'; [|reflexivity].
      apply String.eqb_eq in E'. congruence.
    + destruct (k0 =? k)%string; [reflexivity | exact IH].
Qed.

Lemma lookup_omit_eq (k : string) (o : props) : lookup k (omit k o) = JUndefined.
Proof.
  induction o as [|[k' v'] o IH]; simpl; [reflexivity|].
  destruct (k' =? k)%string eqn:E; simpl; [exact IH|].
  rewrite E. exact IH.
Qed.

Lemma lookup_omit_ne (k k' : string) (o : props) :
  k <> k' -> lookup k (omit k' o) = lookup k o.
Proof.
  intros Hne. induction o as [|[k0 v0] o IH]; simpl; [reflexivity|].
  destruct (k0 =? k')%string eqn:E; simpl.
  - apply String.eqb_eq in E. subst k0.
    destruct (k' =? k)%string eqn:E'; [|exact IH].
    apply String.eqb_eq in E'. congruence.
  - destruct (k0 =? k)%string; [reflexivity | exact IH].
Qed.

Lemma keys_set (k k' : string) (v : jsval) (o : props) :
  In k (keys (set k' v o)) <-> In k (keys o) \/ k = k'.
Proof.
  unfold keys. induction o as [|[k0 v0] o IH]; simpl.
  - intuition.
  - destruct (k0 =? k')%string eqn:E; simpl.
    + apply String.eqb_eq in E. subst k0. intuition.
    + rewrite IH. intuition.
Qed.

Lemma keys_omit (k k' : string) (o : props) :
  In k (keys (omit k' o)) <-> In k (keys o) /\ k <> k'.
Proof.
  unfold keys, omit. rewrite !in_map_iff. split.
  - intros ([k0 v0] & <- & Hin). apply filter_In in Hin. destruct Hin as (Hin & Hne).
    simpl in *. apply negb_true_iff, String.eqb_neq in Hne. split; [|assumption].
    exists (k0, v0). auto.
  - intros (([k0 v0] & <- & Hin) & Hne). exists (k0, v0). split; [reflexivity|].
    apply filter_In. split; [assumption|]. simpl.
    now apply negb_true_iff, String.eqb_neq.
Qed.

(** The stamped document: the token is gone, the two stamps are there, and
    every other field is the one of the submitted record. *)
Lemma stamped_fields (e : env) (o : props) (createdAt submittedAt : Z) :
  let doc := stamped e (omit "captchaToken" o) createdAt submittedAt in
  lookup "captchaToken" doc = JUndefined
  /\ lookup "createdAt" doc = JDate createdAt
  /\ lookup "submittedAt" doc = JStr (toISOString e submittedAt)
  /\ (forall k, k <> "captchaToken" -> k <> "createdAt" -> k <> "submittedAt" ->
                lookup k doc = lookup k o)
  /\ (forall k, In k (keys doc) <->
                (In k (keys o) /\ k <> "captchaToken")
                \/ k = "createdAt" \/ k = "submittedAt").
Proof.
  unfold stamped. cbn zeta. repeat split.
  - rewrite !lookup_set_ne by discriminate. apply lookup_omit_eq.
  - rewrite lookup_set_ne by discriminate. apply lookup_set_eq.
  - apply lookup_set_eq.
  - intros k H1 H2 H3. rewrite !lookup_set_ne by assumption.
    now apply lookup_omit_ne.
  - rewrite !keys_set, keys_omit. tauto.
  - rewrite !keys_set, keys_omit. tauto.
Qed.

(* ===================================================================== *)
(** ** The submission pipeline *)
(* ===================================================================== *)

(** What an accepted body looks like. *)
Lemma valid_body (body : jsval) :
  isValidFormData body = Valid ->
  exists o n s,
    body = JObj o
    /\ lookup "roll_number" o = JNum n
    /\ lookup "email" o = JStr s.
Proof.
  intros H. rewrite isValidFormData_rules in H.
  rewrite first_failure_valid in H.
  assert (Hroll := H rule_roll_number (field_rule_in_code_order F_roll_number)).
  assert (Hemail := H rule_email_present (field_rule_in_code_order F_email)).
  cbn [fails rule_roll_number rule_email_present] in Hroll, Hemail.
  apply orb_false_iff in Hroll, Hemail.
  destruct Hroll as (Hr1 & Hr2). destruct Hemail as (He1 & He2).
  destruct body as [| | | | | | |o]; try discriminate.
  simpl in *. exists o.
  destruct (lookup "roll_number" o) as [| | |n| | | |]; try discriminate.
  destruct (lookup "email" o) as [| | | |s| | |]; try discriminate.
  eauto.
Qed.

(** The pipeline on an accepted body whose token the collaborator accepts,
    when no store call throws. *)
Lemma submit_accepted (e : env) (o : props) (w : world) :
  isValidFormData (JObj o) = Valid ->
  success (verifyCaptcha e (lookup "captchaToken" o)) = true ->
  (forall c, store_fault e c = None) ->
  let roll := lookup "roll_number" o in
  let email := lookup "email" o in
  submit e (JObj o) w =
  match find (doc_matches roll email) (docs w) with
  | Some existing =>
      (sendJsonResponse e
         (JObj [("error",
                 JStr ("Registration with this "
                       ++ (if strict_eq (lookup "roll_number" existing) roll
                           then "roll number" else "email")
                       ++ " already exists"))]) 409,
       mkWorld (docs w) (calls w ++ [Connect; FindOne roll email; Close])
               (reads w))
  | None =>
      let doc := stamped e (omit "captchaToken" o)
                   (clock e (reads w)) (clock e (S (reads w))) in
      (sendJsonResponse e
         (JObj [("success", JBool true);
                ("id", JStr (newObjectId e (List.length (docs w))));
                ("message", JStr "Form submitted successfully")]) 200,
       mkWorld (docs w ++ [doc])
               (calls w ++ [Connect; FindOne roll email; InsertOne doc; Close])
               (S (S (reads w))))
  end.
Proof.
  intros Hvalid Hcaptcha Hfault roll email.
  unfold submit, try_catch. rewrite Hvalid. cbn [get]. rewrite Hcaptcha.
  cbn [negb fields_of].
  rewrite !(lookup_omit_ne _ "captchaToken") by discriminate.
  fold roll email.
  unfold bind, findOne, insertOne, store_op, new_Date, bind, ret.
  rewrite !Hfault. cbn [docs calls reads].
  destruct (find (doc_matches roll email) (docs w)) as [existing|].
  - rewrite ?Hfault. cbn [docs calls reads]. rewrite <- !app_assoc. reflexivity.
  - rewrite ?Hfault. cbn [docs calls reads]. rewrite <- !app_assoc. reflexivity.
Qed.

(** The pipeline answers 200 only after it has inserted the stamped record. *)
Lemma submit_success (e : env) (body : jsval) (w : world) :
  status (fst (submit e body w)) = 200 ->
  exists o,
    body = JObj o
    /\ isValidFormData body = Valid
    /\ success (verifyCaptcha e (get body "captchaToken")) = true
    /\ find (doc_matches (lookup "roll_number" o) (lookup "email" o)) (docs w)
       = None
    /\ let doc := stamped e (omit "captchaToken" o)
                    (clock e (reads w)) (clock e (S (reads w))) in
       snd (submit e body w)
       = mkWorld (docs w ++ [doc])
           (calls w ++ [Connect;
                        FindOne (lookup "roll_number" o) (lookup "email" o);
                        InsertOne doc; Close])
           (S (S (reads w))).
Proof.
  unfold submit, try_catch.
  destruct (isValidFormData body) eqn:Hvalid; [|simpl; discriminate].
  destruct (valid_body body Hvalid) as (o & n & s & -> & Hroll & Hemail).
  cbn [get fields_of].
  destruct (success (verifyCaptcha e (lookup "captchaToken" o))) eqn:Hcaptcha;
    [|simpl; discriminate].
  cbn [negb].
  rewrite !(lookup_omit_ne _ "captchaToken") by discriminate.
  unfold bind, findOne, insertOne, store_op, new_Date, bind, ret.
  destruct (store_fault e Connect); [simpl; discriminate|].
  destruct (store_fault e (FindOne _ _)); [simpl; discriminate|].
  cbn [docs calls reads].
  destruct (find _ (docs w)) as [existing|] eqn:Hfind.
  - destruct (store_fault e Close); simpl; discriminate.
  - destruct (store_fault e (InsertOne _)); [simpl; discriminate|].
    cbn [docs calls reads].
    destruct (store_fault e Close); [simpl; discriminate|].
    intros _. exists o. repeat split; try assumption.
    cbn [snd]. rewrite <- !app_assoc. reflexivity.
Qed.

(** The pipeline stops before the store when the validator or the
    collaborator rejects. *)
Lemma submit_rejected (e : env) (body : jsval) (w : world) :
  success (verifyCaptcha e (get body "captchaToken")) = false ->
  snd (submit e body w) = w /\ status (fst (submit e body w)) = 400.
Proof.
  intros Hcaptcha. unfold submit, try_catch.
  destruct (isValidFormData body); [|split; reflexivity].
  rewrite Hcaptcha. split; reflexivity.
Qed.

Lemma strict_eq_refl_num (n : Z) : strict_eq (JNum n) (JNum n) = true.
Proof. simpl. apply Z.eqb_refl. Qed.



(** C5.  When the Appwrite function answers a submission with 200, the
    store holds one more document: the submitted record without
    [captchaToken], with [createdAt] set to the date of the first clock
    reading and [submittedAt] to the ISO text of the second.  Every other
    field is stored as submitted, the two stamps are the only added keys,
    and the document has no [captchaToken].  In the Express server the
    record handed to [insertData] is the body without [captchaToken]. *)
Theorem persisted_document (e : env) :
  (forall body w,
     status (fst (submit e body w)) = 200 ->
     exists o doc,
       body = JObj o
       /\ doc = stamped e (omit "captchaToken" o)
                  (clock e (reads w)) (clock e (S (reads w)))
       /\ docs (snd (submit e body w)) = (docs w ++ [doc])%list
       /\ In (InsertOne doc) (calls (snd (submit e body w)))
       /\ lookup "captchaToken" doc = JUndefined
       /\ lookup "createdAt" doc = JDate (clock e (reads w))
       /\ lookup "submittedAt" doc
          = JStr (toISOString e (clock e (S (reads w))))
       /\ (forall k,
             k <> "captchaToken" -> k <> "createdAt" -> k <> "submittedAt" ->
             lookup k doc = lookup k o)
       /\ (forall k,
             In k (keys doc) <->
             (In k (keys o) /\ k <> "captchaToken")
             \/ k = "createdAt" \/ k = "submittedAt"))
  /\ (forall insertData o w,
        success (Express.verifyCaptcha e (lookup "captchaToken" o)) = true ->
        let formData := omit "captchaToken" o in
        lookup "captchaToken" formData = JUndefined
        /\ (forall k, k <> "captchaToken" -> lookup k formData = lookup k o)
        /\ snd (Express.submit insertData e (JObj o) w)
           = snd (insertData (JObj formData) w)).
Proof.
  split.
  - intros body w H200.
    destruct (submit_success e body w H200) as (o & -> & _ & _ & _ & Hw).
    cbn zeta in Hw. rewrite Hw. cbn [docs calls].
    destruct (stamped_fields e o (clock e (reads w)) (clock e (S (reads w))))
      as (H1 & H2 & H3 & H4 & H5).
    eexists o, _. repeat split; try eassumption; try reflexivity.
    + apply in_or_app. right. simpl. auto.
    + apply H5.
    + apply H5.
  - intros insertData o w Hcaptcha formData. split; [apply lookup_omit_eq|].
    split; [intros k Hk; now apply lookup_omit_ne|].
    unfold Express.submit, try_catch. cbn [Express.destructure].
    rewrite Hcaptcha. cbn [negb]. unfold bind, ret.
    fold formData. destruct (insertData (JObj formData) w) as [[[]|m] w'];
      reflexivity.
Qed.

Lemma persisted_document_witness :
  exists o doc,
    JObj ann = JObj o
    /\ docs (snd (submit sample_env (JObj ann) empty_world)) = [doc]
    /\ lookup "captchaToken" doc = JUndefined
    /\ lookup "name" doc = lookup "name" o.
Proof.
  destruct (proj1 (persisted_document sample_env) (JObj ann) empty_world)
    as (o & doc & Ho & _ & Hdocs & _ & Htoken & _ & _ & Hframe & _).
  - reflexivity.
  - exists o, doc. repeat split; try assumption.
    apply Hframe; discriminate.
Defined.

Lemma Qlt_bool_true (x y : Q) : (x < y)%Q -> Qlt_bool x y = true.
Proof.
  intros H. unfold Qlt_bool. apply negb_true_iff.
  destruct (Qle_bool y x) eqn:E; [|reflexivity].
  apply Qle_bool_iff in E. now apply Qlt_not_le in H.
Qed.

Lemma new_calls_same (w : world) : new_calls w w = [].
Proof. unfold new_calls. apply skipn_all. Qed.

(** C6.  The collaborator reports a missing or empty token as rejected,
    and a score below 0.5 as rejected.  Whenever it reports the token of a
    submission as rejected, the request leaves the store as it was and makes
    no store call at all: no connection, no query, no insert.  This holds
    for the Appwrite function, which answers 400, and for the Express
    server, whatever [insertData] does. *)
Theorem rejected_token_never_reaches_store (e : env) :
  (forall token,
     truthy token = false ->
     success (verifyCaptcha e token) = false
     /\ success (Express.verifyCaptcha e token) = false)
  /\ (forall token data s,
        siteverify e
          ("secret=" ++ or_default (GOOGLE_CAPTCHA_SECRET_KEY e) ""
           ++ "&response=" ++ js_toString (dateToString e) token)
        = FetchJson data ->
        data_score data = Some s ->
        (s < 1 # 2)%Q ->
        success (verifyCaptcha e token) = false
        /\ success (Express.verifyCaptcha e token) = false)
  /\ (forall body w,
        success (verifyCaptcha e (get body "captchaToken")) = false ->
        snd (submit e body w) = w
        /\ new_calls w (snd (submit e body w)) = []
        /\ status (fst (submit e body w)) = 400)
  /\ (forall insertData body w,
        success (Express.verifyCaptcha e (get body "captchaToken")) = false ->
        snd (Express.submit insertData e body w) = w
        /\ new_calls w (snd (Express.submit insertData e body w)) = []).
Proof.
  split; [|split; [|split]].
  - intros token H. split.
    + unfold verifyCaptcha. now rewrite H.
    + unfold Express.verifyCaptcha. now rewrite H.
  - intros token data s Hfetch Hscore Hlow. split.
    + unfold verifyCaptcha. rewrite Hfetch, Hscore.
      destruct (truthy token); [|reflexivity].
      destruct (is_set (GOOGLE_CAPTCHA_SECRET_KEY e)); [|reflexivity].
      cbn [negb]. destruct (data_success data); [|reflexivity].
      cbn [negb]. now rewrite (Qlt_bool_true _ _ Hlow).
    + unfold Express.verifyCaptcha. rewrite Hfetch, Hscore.
      destruct (truthy token); [|reflexivity].
      destruct (is_set (GOOGLE_CAPTCHA_SECRET_KEY e)); [|reflexivity].
      cbn [negb]. destruct (data_success data); [|reflexivity].
      cbn [negb]. now rewrite (Qlt_bool_true _ _ Hlow).
  - intros reqBody w H. destruct (submit_rejected e reqBody w H) as (Hw & Hs).
    split; [assumption|]. split; [|assumption].
    rewrite Hw. apply new_calls_same.
  - intros insertData reqBody w H.
    assert (Hw : snd (Express.submit insertData e reqBody w) = w).
    { unfold Express.submit, try_catch.
      destruct reqBody; cbn [Express.destructure get] in *; try reflexivity;
        try (rewrite H; reflexivity). }
    rewrite Hw. split; [reflexivity | apply new_calls_same].
Qed.

Lemma rejected_token_never_reaches_store_witness :
  snd (submit low_score_env (JObj ann) empty_world) = empty_world
  /\ snd (submit sample_env (JObj (omit "captchaToken" ann)) empty_world)
     = empty_world
  /\ snd (Express.submit (fun d => store_op low_score_env (InsertOne (fields_of d)))
            low_score_env (JObj ann) empty_world)
     = empty_world.
Proof.
  destruct (rejected_token_never_reaches_store low_score_env)
    as (Hmissing & Hscore & Hsubmit & Hexpress).
  destruct (rejected_token_never_reaches_store sample_env)
    as (Hmissing' & _ & Hsubmit' & _).
  assert (Hlow : success (verifyCaptcha low_score_env (JStr "valid")) = false
                 /\ success (Express.verifyCaptcha low_score_env (JStr "valid"))
                    = false).
  { apply (Hscore (JStr "valid")
             (mkData true (Some (3 # 10)) JUndefined) (3 # 10));
      reflexivity. }
  split; [|split].
  - apply Hsubmit. apply Hlow.
  - apply Hsubmit'. apply Hmissing'. reflexivity.
  - apply Hexpress. apply Hlow.
Defined.

(* ===================================================================== *)
(** ** The admin key *)
(* ===================================================================== *)

Lemma bytes_eqb_eq (a b : list N) : bytes_eqb a b = true <-> a = b.
Proof.
  revert b. induction a as [|x a IH]; intros [|y b]; simpl;
    try (split; [discriminate | congruence]); [tauto|].
  rewrite andb_true_iff, N.eqb_eq, IH. split.
  - intros (-> & ->). reflexivity.
  - intros H. inversion H. auto.
Qed.

Lemma cons_eq_inv {A : Type} (x y : A) (l1 l2 : list A) :
  x :: l1 = y :: l2 -> x = y /\ l1 = l2.
Proof. intros H. injection H. auto. Qed.

(** The first byte of an encoded code unit tells how many bytes it takes,
    so the encoding can be read back unit by unit. *)
Lemma utf8_unit_app_inj (c1 c2 : ascii) (l1 l2 : list N) :
  (utf8_unit c1 ++ l1 = utf8_unit c2 ++ l2)%list -> c1 = c2 /\ l1 = l2.
Proof.
  unfold utf8_unit. cbn zeta.
  assert (Hinj : N_of_ascii c1 = N_of_ascii c2 -> c1 = c2).
  { intros H. rewrite <- (ascii_N_embedding c1), <- (ascii_N_embedding c2).
    now rewrite H. }
  pose proof (N.div_mod (N_of_ascii c1) 64 ltac:(discriminate)) as D1.
  pose proof (N.div_mod (N_of_ascii c2) 64 ltac:(discriminate)) as D2.
  pose proof (N.mod_lt (N_of_ascii c1) 64 ltac:(discriminate)) as M1.
  pose proof (N.mod_lt (N_of_ascii c2) 64 ltac:(discriminate)) as M2.
  revert D1 D2 M1 M2.
  generalize (N_of_ascii c1 / 64)%N (N_of_ascii c1 mod 64)%N
             (N_of_ascii c2 / 64)%N (N_of_ascii c2 mod 64)%N.
  intros q1 r1 q2 r2 D1 D2 M1 M2.
  destruct (N.ltb_spec (N_of_ascii c1) 128);
    destruct (N.ltb_spec (N_of_ascii c2) 128);
    cbn [app]; intros E; apply cons_eq_inv in E; destruct E as (E1 & E2).
  - split; [now apply Hinj | assumption].
  - exfalso. lia.
  - exfalso. lia.
  - apply cons_eq_inv in E2. destruct E2 as (E3 & E4).
    split; [apply Hinj; lia | assumption].
Qed.

Lemma Buffer_from_inj (s1 s2 : string) :
  Buffer_from s1 = Buffer_from s2 -> s1 = s2.
Proof.
  unfold Buffer_from. revert s2.
  induction s1 as [|c1 s1 IH]; intros [|c2 s2]; simpl; intros H.
  - reflexivity.
  - exfalso. unfold utf8_unit in H.
    destruct (N_of_ascii c2 <? 128)%N; discriminate.
  - exfalso. unfold utf8_unit in H.
    destruct (N_of_ascii c1 <? 128)%N; discriminate.
  - apply utf8_unit_app_inj in H. destruct H as (-> & H).
    now rewrite (IH s2 H).
Qed.

(** The check grants access exactly to a non-empty provided key equal to a
    configured key. *)
Lemma validateAdminKey_true (providedKey actualKey : option string) :
  validateAdminKey providedKey actualKey = true <->
  exists s, s <> "" /\ providedKey = Some s /\ actualKey = Some s.
Proof.
  unfold validateAdminKey. split.
  - destruct providedKey as [p|]; [|discriminate].
    destruct actualKey as [a|]; [|discriminate].
    cbn [is_set].
    destruct (p =? "")%string eqn:Ep; [discriminate|].
    destruct (a =? "")%string eqn:Ea; [discriminate|].
    cbn [negb orb].
    destruct (List.length (Buffer_from p) =? List.length (Buffer_from a))%nat
      eqn:El; [|discriminate].
    cbn [negb]. unfold timingSafeEqual. rewrite El.
    intros H. apply bytes_eqb_eq, Buffer_from_inj in H. subst a.
    exists p. apply String.eqb_neq in Ep. auto.
  - intros (s & Hne & -> & ->). cbn [is_set].
    apply String.eqb_neq in Hne. rewrite Hne. cbn [negb orb].
    unfold timingSafeEqual. rewrite Nat.eqb_refl. cbn [negb].
    now apply bytes_eqb_eq.
Qed.

Lemma validateAdminKey_false (providedKey actualKey : option string) :
  is_set providedKey = false \/ providedKey <> actualKey ->
  validateAdminKey providedKey actualKey = false.
Proof.
  intros H. destruct (validateAdminKey providedKey actualKey) eqn:E;
    [|reflexivity].
  apply validateAdminKey_true in E. destruct E as (s & Hne & -> & ->).
  destruct H as [H|H]; [|congruence].
  simpl in H. apply negb_false_iff, String.eqb_eq in H. congruence.
Qed.

Lemma validateAdminKey_unset (providedKey actualKey : option string) :
  is_set actualKey = false -> validateAdminKey providedKey actualKey = false.
Proof.
  intros H. destruct (validateAdminKey providedKey actualKey) eqn:E;
    [|reflexivity].
  apply validateAdminKey_true in E. destruct E as (s & Hne & -> & ->).
  simpl in H. apply negb_false_iff, String.eqb_eq in H. congruence.
Qed.

(** A request that fails the check gets 401 from the Appwrite function,
    before any store call. *)
Lemma export_csv_rejected (e : env) (req : request) (w : world) :
  validateAdminKey (provided_admin_key req) (ADMIN_KEY e) = false ->
  export_csv e req w = (invalid_admin_key e, w).
Proof. intros H. unfold export_csv, try_catch. rewrite H. reflexivity. Qed.

(** A request without the configured key gets 403 from the Express server,
    before [collection_to_csv] is run. *)
Lemma Express_to_csv_rejected (collection_to_csv : M string) (e : env)
      (rawKey : Express.query_value) (w : world) :
  is_set (Express.provided_key rawKey) = false
  \/ Express.provided_key rawKey <> ADMIN_KEY e ->
  Express.to_csv collection_to_csv e rawKey w
  = (Ok (forbidden (if negb (is_set (ADMIN_KEY e))
                       || negb (is_set (Express.provided_key rawKey))
                    then "Forbidden: Admin key required"
                    else "Forbidden: Invalid admin key")), w).
Proof.
  intros H. unfold Express.to_csv.
  destruct (negb (is_set (ADMIN_KEY e))
            || negb (is_set (Express.provided_key rawKey))) eqn:Eset;
    [reflexivity|].
  apply orb_false_iff in Eset. destruct Eset as (Ea & Ep).
  apply negb_false_iff in Ea, Ep.
  destruct H as [H|H]; [congruence|].
  destruct (ADMIN_KEY e) as [a|]; [|discriminate].
  destruct (Express.provided_key rawKey) as [p|]; [|discriminate].
  simpl in Ea, Ep. apply negb_true_iff in Ea, Ep.
  unfold or_default. rewrite Ea, Ep. unfold bind.
  destruct (List.length (Buffer_from a) =? List.length (Buffer_from p))%nat
    eqn:El; [|reflexivity].
  unfold timingSafeEqual. rewrite El.
  destruct (bytes_eqb (Buffer_from a) (Buffer_from p)) eqn:Eb; [|reflexivity].
  apply bytes_eqb_eq, Buffer_from_inj in Eb. congruence.
Qed.

(** The accumulator of the builtin's loop is zero at the end exactly when
    it was zero at the start and no pair of bytes differed. *)
Lemma fold_differences_zero (a b : list N) :
  forall acc,
    List.length a = List.length b ->
    (fst (fold_differences acc a b) =? 0)%N = ((acc =? 0)%N && bytes_eqb a b)%bool.
Proof.
  revert b. induction a as [|x a IH]; intros [|y b] acc Hlen;
    try discriminate Hlen.
  - simpl. now rewrite andb_true_r.
  - cbn [fold_differences bytes_eqb].
    assert (Hlen' : List.length a = List.length b) by (simpl in Hlen; lia).
    specialize (IH b (N.lor acc (N.lxor x y)) Hlen').
    destruct (fold_differences (N.lor acc (N.lxor x y)) a b) as [r visited].
    cbn [fst] in *. rewrite IH, andb_assoc. f_equal.
    destruct (N.eqb_spec (N.lor acc (N.lxor x y)) 0) as [Hz|Hz].
    + apply N.lor_eq_0_iff in Hz. destruct Hz as (-> & Hxy).
      apply N.lxor_eq in Hxy. subst y. now rewrite !N.eqb_refl.
    + destruct (N.eqb_spec acc 0) as [->|]; [|reflexivity].
      destruct (N.eqb_spec x y) as [->|]; [|reflexivity].
      exfalso. apply Hz. now rewrite N.lxor_nilpotent.
Qed.

(** The loop visits every pair of bytes, whatever the bytes are. *)
Lemma fold_differences_visited (a b : list N) :
  forall acc,
    List.length a = List.length b ->
    snd (fold_differences acc a b) = List.length a.
Proof.
  revert b. induction a as [|x a IH]; intros [|y b] acc Hlen;
    try discriminate Hlen; [reflexivity|].
  cbn [fold_differences].
  assert (Hlen' : List.length a = List.length b) by (simpl in Hlen; lia).
  specialize (IH b (N.lor acc (N.lxor x y)) Hlen').
  destruct (fold_differences (N.lor acc (N.lxor x y)) a b) as [r visited].
  cbn [snd] in *. simpl. now rewrite IH.
Qed.

(** The timed builtin answers as [timingSafeEqual] does, after as many
    steps as the buffers are long. *)
Lemma timingSafeEqual_timed_spec (a b : list N) :
  timingSafeEqual_timed a b
  = (timingSafeEqual a b,
     if (List.length a =? List.length b)%nat then List.length a else 0%nat).
Proof.
  unfold timingSafeEqual_timed, timingSafeEqual.
  destruct (List.length a =? List.length b)%nat eqn:Hlen; [|reflexivity].
  apply Nat.eqb_eq in Hlen.
  pose proof (fold_differences_zero a b 0%N Hlen) as Hzero.
  pose proof (fold_differences_visited a b 0%N Hlen) as Hvisited.
  destruct (fold_differences 0 a b) as [r visited]. cbn [fst snd] in *.
  now rewrite Hzero, Hvisited.
Qed.

Lemma Buffer_from_nonempty (s : string) :
  s <> "" -> List.length (Buffer_from s) <> 0%nat.
Proof.
  destruct s as [|c s]; [congruence|]. intros _.
  unfold Buffer_from. cbn [list_ascii_of_string flat_map].
  rewrite length_app. unfold utf8_unit. cbn zeta.
  destruct (N_of_ascii c <? 128)%N; simpl; lia.
Qed.

(** [validateAdminKey_timed]: the verdict of [validateAdminKey], and a time
    that the lengths of the two keys decide. *)
Lemma validateAdminKey_timed_spec (providedKey actualKey : option string) :
  validateAdminKey_timed providedKey actualKey
  = (validateAdminKey providedKey actualKey,
     match providedKey, actualKey with
     | Some p, Some a =>
         if is_set providedKey && is_set actualKey
            && (List.length (Buffer_from p) =? List.length (Buffer_from a))%nat
         then List.length (Buffer_from p)
         else 0%nat
     | _, _ => 0%nat
     end).
Proof.
  unfold validateAdminKey_timed, validateAdminKey.
  destruct providedKey as [p|]; [|reflexivity].
  destruct actualKey as [a|]; [|reflexivity].
  destruct (is_set (Some p)); [|reflexivity].
  destruct (is_set (Some a)); [|reflexivity].
  cbn [negb orb andb]. rewrite timingSafeEqual_timed_spec.
  destruct (List.length (Buffer_from p) =? List.length (Buffer_from a))%nat;
    [|reflexivity].
  cbn [negb]. destruct (timingSafeEqual (Buffer_from p) (Buffer_from a));
    reflexivity.
Qed.

Lemma validateAdminKey_timed_equal_length (p q : string) (actualKey : option string) :
  List.length (Buffer_from p) = List.length (Buffer_from q) ->
  snd (validateAdminKey_timed (Some p) actualKey)
  = snd (validateAdminKey_timed (Some q) actualKey).
Proof.
  intros Hlen. rewrite !validateAdminKey_timed_spec. cbn [snd].
  destruct actualKey as [a|]; [|reflexivity].
  rewrite Hlen. cbn [is_set].
  destruct (String.eqb_spec p "") as [->|Hp];
    destruct (String.eqb_spec q "") as [->|Hq]; try reflexivity; exfalso.
  - now apply (Buffer_from_nonempty q Hq).
  - now apply (Buffer_from_nonempty p Hp).
Qed.

Lemma keysMatch_timed_spec (adminKey providedKey : string) :
  keysMatch_timed adminKey providedKey
  = (if (List.length (Buffer_from adminKey)
         =? List.length (Buffer_from providedKey))%nat
     then (bytes_eqb (Buffer_from adminKey) (Buffer_from providedKey),
           List.length (Buffer_from adminKey))
     else (false, 0%nat)).
Proof.
  unfold keysMatch_timed. cbn zeta. rewrite timingSafeEqual_timed_spec.
  unfold timingSafeEqual.
  destruct (List.length (Buffer_from adminKey)
            =? List.length (Buffer_from providedKey))%nat; reflexivity.
Qed.

(** C8, as the code has it.  The check accepts a provided key exactly when
    it is non-empty and equal to the configured key.  A CSV export request
    whose key is missing or differs from the configured key gets no CSV
    data and leaves the store untouched: the Express route [/to_csv] answers
    403 with a text that starts with Forbidden, and the Appwrite route
    [/csv] answers 401 with the JSON body [{ error: "Invalid admin key" }].
    With the comparison builtin taking one step per pair of bytes, the
    timed check gives the verdict of the check, and the comparison takes
    the same time for any two provided keys of one byte length: for a wrong
    key as long as the configured key and for the configured key itself it
    takes as many steps as the configured key has bytes.  The same holds of
    the comparison written in line in the Express route. *)
Theorem wrong_admin_key_rejected (e : env) :
  (forall providedKey,
     validateAdminKey providedKey (ADMIN_KEY e) = true <->
     exists s, s <> "" /\ providedKey = Some s /\ ADMIN_KEY e = Some s)
  /\ (forall collection_to_csv rawKey w,
        is_set (Express.provided_key rawKey) = false
        \/ Express.provided_key rawKey <> ADMIN_KEY e ->
        exists message,
          Express.to_csv collection_to_csv e rawKey w
          = (Ok (mkResponse 403 [] (Text message)), w)
          /\ (message = "Forbidden: Admin key required"
              \/ message = "Forbidden: Invalid admin key"))
  /\ (forall req w,
        is_set (provided_admin_key req) = false
        \/ provided_admin_key req <> ADMIN_KEY e ->
        export_csv e req w
        = (sendJsonResponse e (JObj [("error", JStr "Invalid admin key")]) 401,
           w))
  /\ (forall req w,
        is_set (provided_admin_key req) = false
        \/ provided_admin_key req <> ADMIN_KEY e ->
        status (fst (export_csv e req w)) = 401
        /\ content (fst (export_csv e req w))
           = Json (JObj [("error", JStr "Invalid admin key")])
        /\ snd (export_csv e req w) = w)
  /\ (forall providedKey,
        fst (validateAdminKey_timed providedKey (ADMIN_KEY e))
        = validateAdminKey providedKey (ADMIN_KEY e))
  /\ (forall p q,
        List.length (Buffer_from p) = List.length (Buffer_from q) ->
        snd (validateAdminKey_timed (Some p) (ADMIN_KEY e))
        = snd (validateAdminKey_timed (Some q) (ADMIN_KEY e)))
  /\ (forall s wrong,
        ADMIN_KEY e = Some s -> s <> "" -> wrong <> s ->
        List.length (Buffer_from wrong) = List.length (Buffer_from s) ->
        validateAdminKey_timed (Some wrong) (ADMIN_KEY e)
        = (false, List.length (Buffer_from s))
        /\ validateAdminKey_timed (Some s) (ADMIN_KEY e)
           = (true, List.length (Buffer_from s)))
  /\ (forall adminKey p q,
        (fst (keysMatch_timed adminKey p) = true <-> adminKey = p)
        /\ (List.length (Buffer_from p) = List.length (Buffer_from q) ->
            snd (keysMatch_timed adminKey p) = snd (keysMatch_timed adminKey q))).
Proof.
  split; [|split; [|split; [|split; [|split; [|split; [|split]]]]]].
  - intros providedKey. apply validateAdminKey_true.
  - intros collection_to_csv rawKey w H.
    rewrite (Express_to_csv_rejected collection_to_csv e rawKey w H).
    eexists. split; [reflexivity|].
    destruct (negb (is_set (ADMIN_KEY e))
              || negb (is_set (Express.provided_key rawKey))); auto.
  - intros req w H. apply export_csv_rejected.
    now apply validateAdminKey_false.
  - intros req w H.
    rewrite (export_csv_rejected e req w (validateAdminKey_false _ _ H)).
    repeat split.
  - intros providedKey. now rewrite validateAdminKey_timed_spec.
  - intros p q. apply validateAdminKey_timed_equal_length.
  - intros s wrong Hkey Hs Hwrong Hlen. rewrite Hkey.
    rewrite !validateAdminKey_timed_spec. cbn [is_set].
    assert (Hw : wrong <> "").
    { intros ->. apply (Buffer_from_nonempty s Hs). now rewrite <- Hlen. }
    apply String.eqb_neq in Hs, Hw. rewrite Hs, Hw, Hlen, Nat.eqb_refl.
    cbn [negb andb]. split; f_equal.
    + apply validateAdminKey_false. right. congruence.
    + apply validateAdminKey_true. exists s.
      apply String.eqb_neq in Hs. auto.
  - intros adminKey p q. rewrite !keysMatch_timed_spec. split.
    + destruct (List.length (Buffer_from adminKey)
                =? List.length (Buffer_from p))%nat eqn:Hlen; cbn [fst].
      * rewrite bytes_eqb_eq. split; [apply Buffer_from_inj | congruence].
      * split; [discriminate|]. intros ->.
        now rewrite Nat.eqb_refl in Hlen.
    + intros Hlen. rewrite Hlen.
      destruct (List.length (Buffer_from adminKey)
                =? List.length (Buffer_from q))%nat; reflexivity.
Qed.

Lemma wrong_admin_key_rejected_witness :
  Express.to_csv (ret "never sent") sample_env (Express.QString "wrong")
                 empty_world
  = (Ok (mkResponse 403 [] (Text "Forbidden: Invalid admin key")), empty_world)
  /\ export_csv sample_env (csv_request None) empty_world
     = (sendJsonResponse sample_env
          (JObj [("error", JStr "Invalid admin key")]) 401, empty_world)
  /\ status (fst (export_csv sample_env (csv_request (Some "wrong"))
                    empty_world)) = 401
  /\ validateAdminKey_timed (Some "admin-kez") (ADMIN_KEY sample_env)
     = (false, 9%nat)
  /\ validateAdminKey_timed (Some "admin-key") (ADMIN_KEY sample_env)
     = (true, 9%nat).
Proof.
  destruct (wrong_admin_key_rejected sample_env)
    as (_ & Hexpress & Happwrite & Hstatus & _ & _ & Htime & _).
  split; [|split; [|split]].
  - destruct (Hexpress (ret "never sent") (Express.QString "wrong") empty_world)
      as (message & Heq & _).
    + right. discriminate.
    + reflexivity.
  - apply Happwrite. left. reflexivity.
  - apply Hstatus. right. discriminate.
  - apply (Htime "admin-key" "admin-kez");
      [reflexivity | discriminate | discriminate | reflexivity].
Defined.

(** C8, as stated, fails: the Appwrite route answers a wrong key with 401,
    not with 403. *)
Lemma appwrite_wrong_key_is_401 :
  provided_admin_key (csv_request (Some "wrong")) <> ADMIN_KEY sample_env
  /\ status (fst (export_csv sample_env (csv_request (Some "wrong"))
                    empty_world)) = 401
  /\ status (fst (export_csv sample_env (csv_request (Some "wrong"))
                    empty_world)) <> 403.
Proof. split; [discriminate|]. split; [reflexivity | discriminate]. Qed.

(** C10.  When the configured admin key is unset or empty, the check
    returns false for every provided key, and every CSV export request is
    rejected without a store call: 401 from the Appwrite route, 403 from the
    Express route. *)
Theorem unset_admin_key_fails_closed (e : env) :
  is_set (ADMIN_KEY e) = false ->
  (forall providedKey, validateAdminKey providedKey (ADMIN_KEY e) = false)
  /\ (forall req w, export_csv e req w = (invalid_admin_key e, w))
  /\ (forall collection_to_csv rawKey w,
        Express.to_csv collection_to_csv e rawKey w
        = (Ok (forbidden "Forbidden: Admin key required"), w)).
Proof.
  intros Hunset. split; [|split].
  - intros providedKey. now apply validateAdminKey_unset.
  - intros req w. apply export_csv_rejected. now apply validateAdminKey_unset.
  - intros collection_to_csv rawKey w. unfold Express.to_csv.
    rewrite Hunset. reflexivity.
Qed.

Lemma unset_admin_key_fails_closed_witness :
  validateAdminKey (Some "admin-key") (ADMIN_KEY no_admin_key_env) = false
  /\ export_csv no_admin_key_env (csv_request (Some "admin-key")) empty_world
     = (invalid_admin_key no_admin_key_env, empty_world).
Proof.
  destruct (unset_admin_key_fails_closed no_admin_key_env eq_refl)
    as (Hcheck & Hexport & _).
  split; [apply Hcheck | apply Hexport].
Defined.

(* ===================================================================== *)
(** ** CSV export *)
(* ===================================================================== *)






(* ===================================================================== *)
(** ** The abuse check, in full *)
(* ===================================================================== *)

Lemma Qlt_bool_false (x y : Q) : Qlt_bool x y = false <-> (y <= x)%Q.
Proof.
  unfold Qlt_bool. rewrite negb_false_iff. apply Qle_bool_iff.
Qed.

(** X1.  [verifyCaptcha] accepts a token exactly when the token is truthy,
    the secret key is configured, the verification service answers (does
    not throw), its answer says success, and the score, if there is one, is
    at least 1/2.  An acceptance carries no error and the score of the
    answer; a rejection always carries an error text. *)
Theorem verifyCaptcha_accepts_iff (e : env) (token : jsval) :
  (success (verifyCaptcha e token) = true <->
   truthy token = true
   /\ is_set (GOOGLE_CAPTCHA_SECRET_KEY e) = true
   /\ exists data,
        siteverify e (siteverify_body e token) = FetchJson data
        /\ data_success data = true
        /\ match data_score data with
           | Some s => (1 # 2 <= s)%Q
           | None => True
           end)
  /\ (success (verifyCaptcha e token) = true ->
      error (verifyCaptcha e token) = None
      /\ forall data,
           siteverify e (siteverify_body e token) = FetchJson data ->
           score (verifyCaptcha e token) = data_score data)
  /\ (success (verifyCaptcha e token) = false ->
      exists message, error (verifyCaptcha e token) = Some message).
Proof.
  unfold verifyCaptcha. fold (siteverify_body e token).
  destruct (truthy token); cbn [negb].
  2:{ split; [split; [discriminate | intros (H & _); discriminate]|].
      split; [discriminate | intros _; eexists; reflexivity]. }
  destruct (is_set (GOOGLE_CAPTCHA_SECRET_KEY e)); cbn [negb].
  2:{ split; [split; [discriminate | intros (_ & H & _); discriminate]|].
      split; [discriminate | intros _; eexists; reflexivity]. }
  destruct (siteverify e (siteverify_body e token)) as [m|data].
  { split; [split; [discriminate | intros (_ & _ & d & H & _); discriminate]|].
    split; [discriminate | intros _; eexists; reflexivity]. }
  destruct (data_success data) eqn:Hs; cbn [negb].
  2:{ split; [split; [discriminate|]|split; [discriminate | intros _; eexists; reflexivity]].
      intros (_ & _ & d & H & Hd & _). inversion H; subst. congruence. }
  destruct (data_score data) as [s|] eqn:Hscore.
  - destruct (Qlt_bool s (1 # 2)) eqn:Hlt.
    + split; [split; [discriminate|]|split; [discriminate | intros _; eexists; reflexivity]].
      intros (_ & _ & d & H & _ & Hd). inversion H; subst.
      rewrite Hscore in Hd. apply Qlt_bool_false in Hd. congruence.
    + apply Qlt_bool_false in Hlt. split; [|split; [|discriminate]].
      * split; [|reflexivity]. intros _. repeat split.
        exists data. rewrite Hscore. auto.
      * intros _. split; [reflexivity|]. intros d H. inversion H; subst.
        now rewrite Hscore.
  - split; [|split; [|discriminate]].
    + split; [|reflexivity]. intros _. repeat split.
      exists data. rewrite Hscore. auto.
    + intros _. split; [reflexivity|]. intros d H. inversion H; subst.
      now rewrite Hscore.
Qed.

Lemma verifyCaptcha_accepts_iff_witness :
  error (verifyCaptcha sample_env (JStr "valid")) = None
  /\ exists message,
       error (verifyCaptcha low_score_env (JStr "valid")) = Some message.
Proof.
  split.
  - apply (proj1 (proj2 (verifyCaptcha_accepts_iff sample_env (JStr "valid")))).
    reflexivity.
  - apply (proj2 (proj2 (verifyCaptcha_accepts_iff low_score_env (JStr "valid")))).
    reflexivity.
Defined.

(** X2.  The [verifyCaptcha] of server.ts and the one of index.cjs give the
    same verdict and the same score on every token in every environment;
    their error texts are the same except when the call to the service
    throws, where server.ts interpolates the thrown error, name and message,
    into the error text and index.cjs puts the message alone in
    [details]. *)
Theorem verifyCaptcha_variants_agree (e : env) (token : jsval) :
  success (Express.verifyCaptcha e token) = success (verifyCaptcha e token)
  /\ score (Express.verifyCaptcha e token) = score (verifyCaptcha e token)
  /\ (error (Express.verifyCaptcha e token) = error (verifyCaptcha e token)
      \/ exists name message,
           siteverify e (siteverify_body e token) = FetchThrows name message
           /\ error (verifyCaptcha e token) = Some "CAPTCHA verification error"
           /\ details (verifyCaptcha e token) = JStr message
           /\ details (Express.verifyCaptcha e token) = JUndefined
           /\ error (Express.verifyCaptcha e token)
              = Some ("CAPTCHA verification error: "
                      ++ thrown_text name message))
  /\ thrown_text "Error" "boom" = "Error: boom"
  /\ (forall name message,
        name <> "" -> message <> "" ->
        thrown_text name message = name ++ ": " ++ message).
Proof.
  assert (Hcases :
            success (Express.verifyCaptcha e token)
            = success (verifyCaptcha e token)
            /\ score (Express.verifyCaptcha e token)
               = score (verifyCaptcha e token)
            /\ (error (Express.verifyCaptcha e token)
                = error (verifyCaptcha e token)
                \/ exists name message,
                     siteverify e (siteverify_body e token)
                     = FetchThrows name message
                     /\ error (verifyCaptcha e token)
                        = Some "CAPTCHA verification error"
                     /\ details (verifyCaptcha e token) = JStr message
                     /\ details (Express.verifyCaptcha e token) = JUndefined
                     /\ error (Express.verifyCaptcha e token)
                        = Some ("CAPTCHA verification error: "
                                ++ thrown_text name message))).
  { unfold Express.verifyCaptcha, verifyCaptcha.
    fold (siteverify_body e token).
    destruct (truthy token); cbn [negb]; [|auto].
    destruct (is_set (GOOGLE_CAPTCHA_SECRET_KEY e)); cbn [negb]; [|auto].
    destruct (siteverify e (siteverify_body e token)) as [name message|data].
    - split; [reflexivity|]. split; [reflexivity|]. right.
      exists name, message. auto 10.
    - destruct (data_success data); cbn [negb]; [|auto].
      destruct (data_score data) as [s|]; [|auto].
      destruct (Qlt_bool s (1 # 2)); auto. }
  destruct Hcases as (H1 & H2 & H3).
  split; [exact H1|]. split; [exact H2|]. split; [exact H3|].
  split; [reflexivity|].
  intros name message Hn Hm. unfold thrown_text.
  apply String.eqb_neq in Hn, Hm. now rewrite Hn, Hm.
Qed.

Lemma verifyCaptcha_variants_agree_witness :
  error (Express.verifyCaptcha unreachable_env (JStr "token"))
  = Some "CAPTCHA verification error: TypeError: fetch failed"
  /\ error (verifyCaptcha unreachable_env (JStr "token"))
     = Some "CAPTCHA verification error"
  /\ details (verifyCaptcha unreachable_env (JStr "token")) = JStr "fetch failed"
  /\ success (Express.verifyCaptcha unreachable_env (JStr "token"))
     = success (verifyCaptcha unreachable_env (JStr "token")).
Proof.
  destruct (verifyCaptcha_variants_agree unreachable_env (JStr "token"))
    as (Hsuccess & _ & [Hsame | (name & message & Hthrown & Hcjs & Hdetails
                                 & _ & Hexpress)] & _).
  - discriminate Hsame.
  - injection Hthrown as <- <-.
    split; [exact Hexpress|]. split; [exact Hcjs|].
    split; [exact Hdetails | exact Hsuccess].
Defined.

(* ===================================================================== *)
(** ** The submission pipeline, every outcome *)
(* ===================================================================== *)

Lemma new_calls_app (ds : list props) (cs added : list store_call) (n m : nat)
      (ds' : list props) :
  new_calls (mkWorld ds cs n) (mkWorld ds' (cs ++ added) m) = added.
Proof.
  unfold new_calls. cbn [calls]. rewrite skipn_app, skipn_all, Nat.sub_diag.
  reflexivity.
Qed.

Lemma world_eta (w : world) : w = mkWorld (docs w) (calls w) (reads w).
Proof. destruct w; reflexivity. Qed.

Lemma new_calls_added (w : world) (ds' : list props) (added : list store_call)
      (m : nat) :
  new_calls w (mkWorld ds' (calls w ++ added) m) = added.
Proof. rewrite (world_eta w) at 1. apply new_calls_app. Qed.

(** Every way through the pipeline: the validator, the collaborator, then
    each store call in turn. *)
Ltac submit_cases e reqBody w :=
  unfold submit, try_catch;
  let Hvalid := fresh "Hvalid" in
  destruct (isValidFormData reqBody) eqn:Hvalid;
  [ let o := fresh "o" in
    let n := fresh "n" in
    let s := fresh "s" in
    let Hroll := fresh "Hroll" in
    let Hemail := fresh "Hemail" in
    destruct (valid_body reqBody Hvalid) as (o & n & s & -> & Hroll & Hemail);
    cbn [get fields_of];
    let Hcaptcha := fresh "Hcaptcha" in
    destruct (success (verifyCaptcha e (lookup "captchaToken" o))) eqn:Hcaptcha;
    cbn [negb];
    [ rewrite !(lookup_omit_ne _ "captchaToken") by discriminate;
      unfold bind, findOne, insertOne, store_op, new_Date, bind, ret;
      let HfC := fresh "HfConnect" in
      destruct (store_fault e Connect) eqn:HfC;
      [ | let HfF := fresh "HfFindOne" in
          destruct (store_fault e (FindOne _ _)) eqn:HfF;
          [ | cbn [docs calls reads];
              let Hfind := fresh "Hfind" in
              destruct (find _ (docs w)) eqn:Hfind;
              [ let HfX := fresh "HfClose" in
                destruct (store_fault e Close) eqn:HfX
              | cbn [docs calls reads];
                let HfI := fresh "HfInsertOne" in
                destruct (store_fault e (InsertOne _)) eqn:HfI;
                [ | cbn [docs calls reads];
                    let HfX := fresh "HfClose" in
                    destruct (store_fault e Close) eqn:HfX ] ] ] ]
    | ]
  | ];
  cbn [fst snd status content headers sendJsonResponse docs calls reads];
  rewrite <- ?app_assoc; cbn [app].

(** X3.  [POST /submit] answers 400 exactly when the validator rejects the
    body or the collaborator rejects its token; the error of the answer is
    then the validator's reason, or else the collaborator's error. *)
Theorem submit_400_iff (e : env) (reqBody : jsval) (w : world) :
  (status (fst (submit e reqBody w)) = 400 <->
   isValidFormData reqBody <> Valid
   \/ success (verifyCaptcha e (get reqBody "captchaToken")) = false)
  /\ (forall reason,
        isValidFormData reqBody = Invalid reason ->
        fst (submit e reqBody w)
        = sendJsonResponse e (JObj [("error", JStr reason)]) 400)
  /\ (isValidFormData reqBody = Valid ->
      success (verifyCaptcha e (get reqBody "captchaToken")) = false ->
      fst (submit e reqBody w)
      = sendJsonResponse e
          (JObj [("error",
                  of_option (error (verifyCaptcha e (get reqBody "captchaToken"))));
                 ("details",
                  details (verifyCaptcha e (get reqBody "captchaToken")))])
          400).
Proof.
  submit_cases e reqBody w;
    try (split; [split; [discriminate | intros [H|H]; congruence]|];
         split; [discriminate | congruence]).
  - split; [split; [intros _; right; reflexivity | reflexivity]|].
    split; [discriminate | intros _ _; reflexivity].
  - split; [split; [intros _; left; discriminate | reflexivity]|].
    split; [|discriminate]. intros r H. inversion H. reflexivity.
Qed.

Lemma submit_400_iff_witness :
  fst (submit sample_env bad_email_no_about empty_world)
  = sendJsonResponse sample_env
      (JObj [("error", JStr "About is required and must be a string")]) 400.
Proof.
  apply (proj1 (proj2 (submit_400_iff sample_env bad_email_no_about empty_world))).
  reflexivity.
Defined.

(** X4.  [POST /submit] answers 500 exactly when a store call that it
    attempts throws.  That call is then the last one attempted, the error of
    the answer is Failed to save data, and the thrown message is passed on
    in [details] only when NODE_ENV is development. *)
Theorem submit_500_iff (e : env) (reqBody : jsval) (w : world) :
  let r := fst (submit e reqBody w) in
  let w' := snd (submit e reqBody w) in
  (status r = 500 <->
   exists c, In c (new_calls w w') /\ store_fault e c <> None)
  /\ (status r = 500 ->
      exists before c message,
        new_calls w w' = (before ++ [c])%list
        /\ store_fault e c = Some message
        /\ r = sendJsonResponse e
                 (JObj [("error", JStr "Failed to save data");
                        ("details", dev_details e message)]) 500
        /\ (NODE_ENV e <> Some "development" ->
            dev_details e message = JUndefined)
        /\ (NODE_ENV e = Some "development" ->
            dev_details e message = JStr message)).
Proof.
  assert (Hdev : forall message,
             (NODE_ENV e <> Some "development" ->
              dev_details e message = JUndefined)
             /\ (NODE_ENV e = Some "development" ->
                 dev_details e message = JStr message)).
  { intros message. unfold dev_details. destruct (NODE_ENV e) as [m|].
    - destruct (m =? "development")%string eqn:E.
      + apply String.eqb_eq in E. subst. split; [congruence | reflexivity].
      + apply String.eqb_neq in E. split; [reflexivity | congruence].
    - split; [reflexivity | discriminate]. }
  cbn zeta.
  submit_cases e reqBody w; rewrite ?new_calls_added, ?new_calls_same.
  all: try (split;
            [ split; [discriminate|];
              intros (c & Hin & Hc); simpl in Hin;
              repeat (destruct Hin as [<-|Hin]; [congruence|]); destruct Hin
            | discriminate ]).
  all: split;
    [ split; [intros _|reflexivity];
      eexists; split; [|match goal with H : store_fault _ _ = Some _ |- _ =>
                           rewrite H; discriminate end];
      simpl; tauto
    | intros _;
      match goal with
      | H : store_fault _ ?c = Some ?m |- _ =>
          first [ exists [], c, m; split; [reflexivity|]
                | exists [Connect], c, m; split; [reflexivity|]
                | eexists [Connect; _], c, m; split; [reflexivity|]
                | eexists [Connect; _; _], c, m; split; [reflexivity|] ];
          split; [assumption|]; split; [reflexivity | apply Hdev]
      end ].
Qed.

Lemma submit_500_iff_witness :
  exists before c message,
    new_calls empty_world
      (snd (submit (env_failing Connect "no route to host" (Some "development"))
              (JObj ann) empty_world))
    = (before ++ [c])%list
    /\ fst (submit (env_failing Connect "no route to host" (Some "development"))
              (JObj ann) empty_world)
       = sendJsonResponse
           (env_failing Connect "no route to host" (Some "development"))
           (JObj [("error", JStr "Failed to save data");
                  ("details", JStr message)]) 500.
Proof.
  destruct (proj2 (submit_500_iff
                     (env_failing Connect "no route to host" (Some "development"))
                     (JObj ann) empty_world))
    as (before & c & message & Hcalls & _ & Hr & _ & Hdev).
  - reflexivity.
  - exists before, c, message. split; [exact Hcalls|].
    rewrite <- (Hdev eq_refl). exact Hr.
Defined.

(** X5.  Once [POST /submit] has opened a connection, it closes it exactly
    when no call before the close throws: a failure of connect, of the
    duplicate query or of the insert leaves the connection unclosed. *)
Theorem submit_closes_iff (e : env) (reqBody : jsval) (w : world) :
  let added := new_calls w (snd (submit e reqBody w)) in
  In Connect added ->
  (In Close added <->
   forall c, In c added -> c <> Close -> store_fault e c = None).
Proof.
  cbn zeta.
  submit_cases e reqBody w; rewrite ?new_calls_added, ?new_calls_same;
    intros Hconnect; try (destruct Hconnect; fail).
  all: split;
    [ intros Hclose;
      try (simpl in Hclose;
           repeat (destruct Hclose as [Hclose|Hclose]; [discriminate|]);
           destruct Hclose);
      intros c Hin Hne; simpl in Hin;
      repeat (destruct Hin as [<-|Hin]; [congruence|]); destruct Hin
    | intros Hall; try (simpl; tauto); exfalso ].
  - specialize (Hall Connect (or_introl eq_refl)). 
    assert (store_fault e Connect = None) by (apply Hall; discriminate).
    congruence.
  - match goal with
    | H : store_fault e ?c = Some _ |- _ =>
        assert (store_fault e c = None)
          by (apply Hall; [simpl; tauto | discriminate]); congruence
    end.
  - match goal with
    | H : store_fault e (InsertOne ?d) = Some _ |- _ =>
        assert (store_fault e (InsertOne d) = None)
          by (apply Hall; [simpl; tauto | discriminate]); congruence
    end.
Qed.

Lemma submit_closes_iff_witness :
  In Close
    (new_calls empty_world
       (snd (submit (env_failing (InsertOne []) "write refused" None)
               (JObj ann) empty_world)))
  <-> forall c,
        In c (new_calls empty_world
                (snd (submit (env_failing (InsertOne []) "write refused" None)
                        (JObj ann) empty_world))) ->
        c <> Close ->
        store_fault (env_failing (InsertOne []) "write refused" None) c = None.
Proof.
  apply (submit_closes_iff (env_failing (InsertOne []) "write refused" None)
           (JObj ann) empty_world).
  vm_compute. tauto.
Defined.

Lemma find_app {A : Type} (f : A -> bool) (l1 l2 : list A) :
  find f (l1 ++ l2) = match find f l1 with
                      | Some x => Some x
                      | None => find f l2
                      end.
Proof.
  induction l1 as [|x l1 IH]; simpl; [reflexivity|].
  destruct (f x); [reflexivity | exact IH].
Qed.

(** The record that the pipeline stores collides with a later submission of
    the same roll number. *)
Lemma stamped_matches_roll (e : env) (o : props) (t1 t2 : Z) (n : Z)
      (email : jsval) :
  lookup "roll_number" o = JNum n ->
  doc_matches (JNum n) email (stamped e (omit "captchaToken" o) t1 t2) = true
  /\ strict_eq
       (lookup "roll_number" (stamped e (omit "captchaToken" o) t1 t2))
       (JNum n) = true.
Proof.
  intros Hroll.
  destruct (stamped_fields e o t1 t2) as (_ & _ & _ & Hframe & _).
  unfold doc_matches. rewrite (Hframe "roll_number") by discriminate.
  rewrite Hroll, strict_eq_refl_num. split; reflexivity.
Qed.

(** X6.  When every store call of a submission goes through except the
    final close, the answer is 500 although the record has been stored; the
    same body sent again, to a store that answers, is then refused as a
    duplicate of its own first attempt. *)
Theorem submit_close_failure_persists (e : env) (reqBody : jsval) (w : world)
        (message : string) :
  isValidFormData reqBody = Valid ->
  success (verifyCaptcha e (get reqBody "captchaToken")) = true ->
  (forall c, c <> Close -> store_fault e c = None) ->
  store_fault e Close = Some message ->
  find (doc_matches (get reqBody "roll_number") (get reqBody "email")) (docs w)
  = None ->
  let w' := snd (submit e reqBody w) in
  status (fst (submit e reqBody w)) = 500
  /\ docs w' = (docs w ++ [stamped e (omit "captchaToken" (fields_of reqBody))
                             (clock e (reads w)) (clock e (S (reads w)))])%list
  /\ forall e',
       no_fault e' ->
       success (verifyCaptcha e' (get reqBody "captchaToken")) = true ->
       fst (submit e' reqBody w') = duplicate_response e' "roll number".
Proof.
  intros Hvalid Hcaptcha Hok Hclose Hfind. cbn zeta.
  assert (Hsubmit :
            submit e reqBody w
            = (sendJsonResponse e
                 (JObj [("error", JStr "Failed to save data");
                        ("details", dev_details e message)]) 500,
               mkWorld
                 (docs w ++ [stamped e (omit "captchaToken" (fields_of reqBody))
                               (clock e (reads w)) (clock e (S (reads w)))])
                 (calls w ++ [Connect;
                              FindOne (get reqBody "roll_number")
                                      (get reqBody "email");
                              InsertOne
                                (stamped e (omit "captchaToken" (fields_of reqBody))
                                   (clock e (reads w)) (clock e (S (reads w))));
                              Close])
                 (S (S (reads w))))).
  { revert Hfind Hcaptcha. submit_cases e reqBody w; intros Hfind' Hcaptcha';
      try congruence;
      try (match goal with
           | H : store_fault e ?c = Some _ |- _ =>
               rewrite (Hok c) in H by discriminate; discriminate
           end). }
  rewrite Hsubmit. cbn [fst snd status sendJsonResponse docs].
  split; [reflexivity|]. split; [reflexivity|].
  intros e' Hfault' Hcaptcha'.
  destruct (valid_body reqBody Hvalid) as (o & n & s & -> & Hroll & Hemail).
  cbn [get fields_of] in *.
  rewrite (submit_accepted e' o _ Hvalid Hcaptcha' Hfault'). cbn [docs].
  rewrite find_app, Hfind. cbn [find]. rewrite Hroll.
  destruct (stamped_matches_roll e o (clock e (reads w)) (clock e (S (reads w)))
              n (lookup "email" o) Hroll) as (Hm & Heq).
  rewrite Hm, Heq. reflexivity.
Qed.

Lemma submit_close_failure_persists_witness :
  status (fst (submit (env_failing Close "socket closed" None) (JObj ann)
                 empty_world)) = 500
  /\ List.length
       (docs (snd (submit (env_failing Close "socket closed" None) (JObj ann)
                     empty_world))) = 1%nat
  /\ fst (submit sample_env (JObj ann)
            (snd (submit (env_failing Close "socket closed" None) (JObj ann)
                    empty_world)))
     = duplicate_response sample_env "roll number".
Proof.
  destruct (submit_close_failure_persists
              (env_failing Close "socket closed" None) (JObj ann) empty_world
              "socket closed")
    as (H500 & Hdocs & Hretry); try reflexivity.
  - intros c Hc. destruct c; try reflexivity. congruence.
  - split; [exact H500|]. split; [now rewrite Hdocs|].
    apply Hretry; [intros c|]; reflexivity.
Defined.

(** What a submission does to the documents: nothing, or it appends the
    stamped record of an accepted body that matches no stored document. *)
Lemma submit_docs (e : env) (reqBody : jsval) (w : world) :
  docs (snd (submit e reqBody w)) = docs w
  \/ exists o,
       reqBody = JObj o
       /\ isValidFormData reqBody = Valid
       /\ find (doc_matches (lookup "roll_number" o) (lookup "email" o)) (docs w)
          = None
       /\ docs (snd (submit e reqBody w))
          = (docs w ++ [stamped e (omit "captchaToken" o)
                          (clock e (reads w)) (clock e (S (reads w)))])%list.
Proof.
  submit_cases e reqBody w; try (left; reflexivity);
    right; exists o; repeat split; assumption.
Qed.

(** X7.  A submission never changes or removes a stored document: the
    documents after it are the documents before it, followed by at most one
    new document.  Nothing is added when the answer is 400 or 409, and the
    answer is always 200, 400, 409 or 500. *)
Theorem submit_store_grows (e : env) (reqBody : jsval) (w : world) :
  let r := fst (submit e reqBody w) in
  let w' := snd (submit e reqBody w) in
  (exists added,
     docs w' = (docs w ++ added)%list /\ (List.length added <= 1)%nat)
  /\ (status r = 400 \/ status r = 409 -> docs w' = docs w)
  /\ (status r = 200 \/ status r = 400 \/ status r = 409 \/ status r = 500).
Proof.
  cbn zeta. split; [|split].
  - destruct (submit_docs e reqBody w) as [H|(o & _ & _ & _ & H)]; rewrite H.
    + exists []. rewrite app_nil_r. split; [reflexivity | simpl; lia].
    + eexists. split; [reflexivity | simpl; lia].
  - submit_cases e reqBody w; intros [H|H]; try discriminate H; reflexivity.
  - submit_cases e reqBody w; tauto.
Qed.

Lemma submit_store_grows_witness :
  docs (snd (submit low_score_env (JObj ann) one_record_world))
  = docs one_record_world.
Proof.
  apply (proj1 (proj2 (submit_store_grows low_score_env (JObj ann)
                         one_record_world))).
  left. reflexivity.
Defined.

Lemma distinct_keys_snoc (ds : list props) (x : props) :
  distinct_keys (ds ++ [x])
  = distinct_keys ds && forallb (fun d => negb (collide d x)) ds.
Proof.
  induction ds as [|d ds IH]; simpl; [reflexivity|].
  rewrite forallb_app, IH. simpl.
  destruct (forallb (fun d' => negb (collide d d')) ds);
    destruct (negb (collide d x)); destruct (distinct_keys ds);
    destruct (forallb (fun d0 => negb (collide d0 x)) ds); reflexivity.
Qed.

Lemma submit_distinct_keys (e : env) (reqBody : jsval) (w : world) :
  distinct_keys (docs w) = true ->
  distinct_keys (docs (snd (submit e reqBody w))) = true.
Proof.
  intros Hinv.
  destruct (submit_docs e reqBody w) as [H|(o & _ & _ & Hfind & H)]; rewrite H;
    [assumption|].
  rewrite distinct_keys_snoc, Hinv. cbn [andb].
  apply forallb_forall. intros d Hin.
  apply (find_none _ _ Hfind) in Hin. unfold collide.
  destruct (stamped_fields e o (clock e (reads w)) (clock e (S (reads w))))
    as (_ & _ & _ & Hframe & _).
  rewrite (Hframe "roll_number"), (Hframe "email") by discriminate.
  unfold doc_matches in Hin. now rewrite Hin.
Qed.

(** X8.  Sequential submissions keep the stored records free of
    collisions: if no two stored records share a roll number or an email,
    the same holds after any sequence of requests to [POST /submit],
    whatever their bodies, the verdicts of the collaborator and the failures
    of the store. *)
Theorem submit_all_distinct_keys (requests : list (env * jsval)) (w : world) :
  distinct_keys (docs w) = true ->
  distinct_keys (docs (submit_all requests w)) = true.
Proof.
  revert w. induction requests as [|[e reqBody] requests IH]; intros w Hinv.
  - exact Hinv.
  - cbn [submit_all]. apply IH. now apply submit_distinct_keys.
Qed.

Lemma submit_all_distinct_keys_witness :
  distinct_keys
    (docs (submit_all [(sample_env, JObj ann); (sample_env, JObj bob);
                       (sample_env, JObj ann)] empty_world)) = true.
Proof. apply submit_all_distinct_keys. reflexivity. Defined.

(** The rules of the validator read a body through its fields only. *)
Lemma stamped_record_ok (e : env) (o : props) (t1 t2 : Z) :
  isValidFormData (JObj o) = Valid ->
  record_ok (stamped e (omit "captchaToken" o) t1 t2) = true.
Proof.
  intros Hvalid. rewrite isValidFormData_rules, first_failure_valid in Hvalid.
  destruct (stamped_fields e o t1 t2) as (Htoken & _ & _ & Hframe & _).
  cbn zeta in Htoken, Hframe.
  unfold record_ok, optional_ok, optionalStringFields.
  cbn [forallb field_rule fails rule_name rule_roll_number rule_gender
       rule_email_present rule_about rule_optional rule_referrer_email get].
  rewrite Htoken.
  rewrite !Hframe by discriminate.
  pose proof (Hvalid rule_name (field_rule_in_code_order F_name)) as H1.
  pose proof (Hvalid rule_roll_number (field_rule_in_code_order F_roll_number)) as H2.
  pose proof (Hvalid rule_gender (field_rule_in_code_order F_gender)) as H3.
  pose proof (Hvalid rule_email_present (field_rule_in_code_order F_email)) as H4.
  pose proof (Hvalid rule_about (field_rule_in_code_order F_about)) as H5.
  pose proof (Hvalid rule_email_pattern rule_email_pattern_in_code_order) as H6.
  pose proof (Hvalid rule_referrer_email rule_referrer_email_in_code_order) as H7.
  assert (Hopt : forall field, In field optionalStringFields ->
                               fails (rule_optional field) (JObj o) = false).
  { intros field Hin. apply Hvalid. now apply rule_optional_in_code_order. }
  pose proof (Hopt "github_link" ltac:(simpl; tauto)) as O1.
  pose proof (Hopt "linkedin_link" ltac:(simpl; tauto)) as O2.
  pose proof (Hopt "instagram_link" ltac:(simpl; tauto)) as O3.
  pose proof (Hopt "team_name" ltac:(simpl; tauto)) as O4.
  pose proof (Hopt "referrer_name" ltac:(simpl; tauto)) as O5.
  pose proof (Hopt "referrer_email" ltac:(simpl; tauto)) as O6.
  cbn [fails rule_name rule_roll_number rule_gender rule_email_present
       rule_about rule_email_pattern rule_referrer_email rule_optional get]
    in H1, H2, H3, H4, H5, H6, H7, O1, O2, O3, O4, O5, O6.
  rewrite H1, H2, H3, H4, H5, H7, O1, O2, O3, O4, O5, O6.
  apply negb_false_iff in H6. rewrite H6. reflexivity.
Qed.

Lemma submit_record_ok (e : env) (reqBody : jsval) (w : world) :
  forallb record_ok (docs w) = true ->
  forallb record_ok (docs (snd (submit e reqBody w))) = true.
Proof.
  intros Hinv.
  destruct (submit_docs e reqBody w) as [H|(o & -> & Hvalid & _ & H)]; rewrite H;
    [assumption|].
  rewrite forallb_app, Hinv. cbn [forallb andb].
  now rewrite stamped_record_ok.
Qed.

(** X9.  Every record that [POST /submit] stores satisfies the data model:
    it has no [captchaToken], a non-empty name and [about], a non-zero roll
    number, gender M or F, an email of the shape [local@domain.tld],
    optional fields that are absent or text and a referrer email that is
    absent, empty or of that shape.  Hence a store that holds only such
    records still does after any sequence of submissions. *)
Theorem submit_all_record_ok (requests : list (env * jsval)) (w : world) :
  forallb record_ok (docs w) = true ->
  forallb record_ok (docs (submit_all requests w)) = true
  /\ forall d,
       In d (docs (submit_all requests w)) ->
       lookup "captchaToken" d = JUndefined
       /\ matches_email_pattern (lookup "email" d)
       /\ exists n, lookup "roll_number" d = JNum n /\ n <> 0.
Proof.
  intros Hinv.
  assert (Hall : forallb record_ok (docs (submit_all requests w)) = true).
  { revert w Hinv.
    induction requests as [|[e reqBody] requests IH]; intros w Hinv.
    - exact Hinv.
    - cbn [submit_all]. apply IH. now apply submit_record_ok. }
  split; [exact Hall|].
  intros d Hin. rewrite forallb_forall in Hall. specialize (Hall d Hin).
  unfold record_ok in Hall. rewrite !andb_true_iff in Hall.
  destruct Hall as (((Htoken & Hreq) & Hemail) & _).
  split; [destruct (lookup "captchaToken" d); (reflexivity || discriminate)|].
  split; [now apply test_shape|].
  cbn [forallb field_rule fails rule_roll_number get] in Hreq.
  rewrite !andb_true_iff in Hreq. destruct Hreq as (_ & Hroll & _).
  apply negb_true_iff, orb_false_iff in Hroll. destruct Hroll as (Ht & Hn).
  destruct (lookup "roll_number" d) as [| | |n| | | |]; try discriminate.
  exists n. split; [reflexivity|]. simpl in Ht.
  apply negb_false_iff, negb_true_iff, Z.eqb_neq in Ht. exact Ht.
Qed.

Lemma submit_all_record_ok_witness :
  forallb record_ok
    (docs (submit_all [(sample_env, JObj ann); (low_score_env, JObj bob);
                       (sample_env, bad_email_no_about)] empty_world)) = true.
Proof.
  apply (submit_all_record_ok
           [(sample_env, JObj ann); (low_score_env, JObj bob);
            (sample_env, bad_email_no_about)] empty_world).
  reflexivity.
Defined.

(* ===================================================================== *)
(** ** The entry point and the export route *)
(* ===================================================================== *)

(** X10.  The entry point answers OPTIONS with an empty 200 whatever the
    path, before any route is looked at.  A request that is not OPTIONS and
    whose path and method match no route (the path is neither /health nor /,
    and the pair is neither POST /submit nor GET /csv) gets 404 with the
    path and the method echoed.  In both cases nothing is read from or
    written to the store or the clock. *)
Theorem handler_unmatched (e : env) (req : request) (w : world) :
  (method req = "OPTIONS" ->
   handler e req w = (mkResponse 200 (cors_headers e) (Text ""), w))
  /\ (method req <> "OPTIONS" ->
      resolved_path req <> "/health" ->
      resolved_path req <> "/" ->
      ~ (resolved_path req = "/submit" /\ method req = "POST") ->
      ~ (resolved_path req = "/csv" /\ method req = "GET") ->
      handler e req w = (not_found e req, w)).
Proof.
  split.
  - intros Hm. unfold handler, try_catch. rewrite Hm. reflexivity.
  - intros Hm Hh Hr Hs Hc. unfold handler, try_catch.
    fold (resolved_path req).
    apply String.eqb_neq in Hm, Hh, Hr. rewrite Hm, Hh, Hr. cbn [orb].
    destruct (resolved_path req =? "/submit")%string eqn:Es;
      destruct (method req =? "POST")%string eqn:Ep; cbn [andb];
      try (apply String.eqb_eq in Es, Ep; tauto);
      destruct (resolved_path req =? "/csv")%string eqn:Ec;
      destruct (method req =? "GET")%string eqn:Eg; cbn [andb];
      try (apply String.eqb_eq in Ec, Eg; tauto);
      reflexivity.
Qed.

Lemma handler_unmatched_witness :
  handler sample_env (mkRequest "GET" (Some "/submit") None [] [] (JObj ann))
          empty_world
  = (not_found sample_env
       (mkRequest "GET" (Some "/submit") None [] [] (JObj ann)),
     empty_world)
  /\ handler sample_env
       (mkRequest "OPTIONS" (Some "/submit") None [] [] (JObj ann)) empty_world
     = (mkResponse 200 (cors_headers sample_env) (Text ""), empty_world).
Proof.
  split.
  - apply (proj2 (handler_unmatched sample_env
                    (mkRequest "GET" (Some "/submit") None [] [] (JObj ann))
                    empty_world));
      try discriminate; intros (H1 & H2); discriminate.
  - apply (proj1 (handler_unmatched sample_env
                    (mkRequest "OPTIONS" (Some "/submit") None [] [] (JObj ann))
                    empty_world)).
    reflexivity.
Defined.

(** Every way through the export: the key check, then each store call. *)
Ltac export_cases e req w :=
  unfold export_csv, try_catch;
  let Hkey := fresh "Hkey" in
  destruct (validateAdminKey (provided_admin_key req) (ADMIN_KEY e)) eqn:Hkey;
  cbn [negb];
  [ unfold bind, find_all, store_op, bind, ret;
    let HfC := fresh "HfConnect" in
    destruct (store_fault e Connect) eqn:HfC;
    [ | cbn [docs calls reads];
        let HfA := fresh "HfFindAll" in
        destruct (store_fault e FindAll) eqn:HfA;
        [ | cbn [docs calls reads];
            let HfX := fresh "HfClose" in
            destruct (store_fault e Close) eqn:HfX;
            [ | let Hdocs := fresh "Hdocs" in
                destruct (docs w) eqn:Hdocs ] ] ]
  | ];
  cbn [fst snd status content headers sendJsonResponse docs calls reads
       List.length Nat.eqb];
  rewrite <- ?app_assoc; cbn [app].

(** X11.  The export never changes the collection, and the only store calls
    it makes are connect, find-all and close, in this order.  Its answer is
    200, 401 or 500, and it is 500 exactly when the key was accepted and a
    store call that it attempted threw; the error is then Failed to export
    CSV and the thrown message is shown only when NODE_ENV is development. *)
Theorem export_csv_outcomes (e : env) (req : request) (w : world) :
  let r := fst (export_csv e req w) in
  let w' := snd (export_csv e req w) in
  docs w' = docs w
  /\ (exists n, new_calls w w' = firstn n [Connect; FindAll; Close])
  /\ (status r = 200 \/ status r = 401 \/ status r = 500)
  /\ (status r = 500 <->
      exists c, In c (new_calls w w') /\ store_fault e c <> None)
  /\ (status r = 500 ->
      exists message,
        r = export_failed e message
        /\ (NODE_ENV e <> Some "development" ->
            content r = Json (JObj [("error", JStr "Failed to export CSV");
                                    ("details", JUndefined)]))).
Proof.
  assert (Hdev : forall message,
             NODE_ENV e <> Some "development" ->
             dev_details e message = JUndefined).
  { intros message. unfold dev_details. destruct (NODE_ENV e) as [m|];
      [|reflexivity].
    destruct (m =? "development")%string eqn:E; [|reflexivity].
    apply String.eqb_eq in E. subst. congruence. }
  cbn zeta. unfold export_failed.
  export_cases e req w; rewrite ?new_calls_added, ?new_calls_same;
    (split; [try rewrite Hdocs; reflexivity|]);
    (split; [first [ exists 0%nat; reflexivity | exists 1%nat; reflexivity
                   | exists 2%nat; reflexivity | exists 3%nat; reflexivity ]|]);
    (split; [tauto|]).
  all: try (split;
            [ split; [discriminate|];
              intros (c & Hin & Hc); simpl in Hin;
              repeat (destruct Hin as [<-|Hin]; [congruence|]); destruct Hin
            | discriminate ]).
  all: split;
    [ split; [intros _|reflexivity];
      eexists; split; [|match goal with H : store_fault _ _ = Some _ |- _ =>
                           rewrite H; discriminate end];
      simpl; tauto
    | intros _; eexists; split; [reflexivity|];
      intros Hmode; cbn [content sendJsonResponse]; now rewrite Hdev ].
Qed.

Lemma export_csv_outcomes_witness :
  exists message,
    fst (export_csv (env_failing FindAll "cursor lost" None)
           (csv_request (Some "admin-key")) one_record_world)
    = export_failed (env_failing FindAll "cursor lost" None) message.
Proof.
  destruct (export_csv_outcomes (env_failing FindAll "cursor lost" None)
              (csv_request (Some "admin-key")) one_record_world)
    as (_ & _ & _ & _ & H).
  destruct (H eq_refl) as (message & Hr & _).
  exists message. exact Hr.
Defined.

(** X12.  The key of an export request is the first non-empty one among the
    header x-admin-key, the header X-Admin-Key and the query parameter key.
    So a non-empty x-admin-key header that differs from the configured key
    makes the export answer 401 whatever the other header and the query
    string hold, also when they hold the right key. *)
Theorem admin_key_precedence (e : env) (req : request) (w : world) :
  (forall h,
     assoc "x-admin-key" (req_headers req) = Some h -> h <> "" ->
     provided_admin_key req = Some h)
  /\ (forall h,
        is_set (assoc "x-admin-key" (req_headers req)) = false ->
        assoc "X-Admin-Key" (req_headers req) = Some h -> h <> "" ->
        provided_admin_key req = Some h)
  /\ (is_set (assoc "x-admin-key" (req_headers req)) = false ->
      is_set (assoc "X-Admin-Key" (req_headers req)) = false ->
      provided_admin_key req = assoc "key" (query req))
  /\ (forall h,
        assoc "x-admin-key" (req_headers req) = Some h -> h <> "" ->
        Some h <> ADMIN_KEY e ->
        export_csv e req w = (invalid_admin_key e, w)).
Proof.
  assert (H1 : forall h,
             assoc "x-admin-key" (req_headers req) = Some h -> h <> "" ->
             provided_admin_key req = Some h).
  { intros h Hh Hne. unfold provided_admin_key. rewrite Hh.
    apply String.eqb_neq in Hne. cbn [or_else]. rewrite Hne.
    cbn [or_else]. now rewrite Hne. }
  split; [exact H1|]. split; [|split].
  - intros h Hlow Hh Hne. unfold provided_admin_key. rewrite Hh.
    apply String.eqb_neq in Hne.
    destruct (assoc "x-admin-key" (req_headers req)) as [l|]; cbn [or_else].
    + simpl in Hlow. apply negb_false_iff in Hlow. rewrite Hlow.
      cbn [or_else]. now rewrite Hne.
    + now rewrite Hne.
  - intros Hlow Hup. unfold provided_admin_key.
    destruct (assoc "x-admin-key" (req_headers req)) as [l|];
      destruct (assoc "X-Admin-Key" (req_headers req)) as [u|];
      simpl in Hlow, Hup; try apply negb_false_iff in Hlow;
      try apply negb_false_iff in Hup; cbn [or_else];
      rewrite ?Hlow, ?Hup; cbn [or_else]; rewrite ?Hup; reflexivity.
  - intros h Hh Hne Hwrong. apply export_csv_rejected.
    apply validateAdminKey_false. right. now rewrite (H1 h Hh Hne).
Qed.

Lemma admin_key_precedence_witness :
  export_csv sample_env
    (mkRequest "GET" (Some "/csv") None [("x-admin-key", "guess")]
               [("key", "admin-key")] JUndefined)
    empty_world
  = (invalid_admin_key sample_env, empty_world).
Proof.
  apply (proj2 (proj2 (proj2
           (admin_key_precedence sample_env
              (mkRequest "GET" (Some "/csv") None [("x-admin-key", "guess")]
                         [("key", "admin-key")] JUndefined)
              empty_world))) "guess");
    [reflexivity | discriminate | discriminate].
Defined.

Lemma submit_headers (e : env) (reqBody : jsval) (w : world) :
  headers (fst (submit e reqBody w)) = cors_headers e.
Proof. submit_cases e reqBody w; reflexivity. Qed.

Lemma export_csv_headers (e : env) (req : request) (w : world) :
  headers (fst (export_csv e req w)) = cors_headers e
  \/ (headers (fst (export_csv e req w)) = csv_headers
      /\ status (fst (export_csv e req w)) = 200).
Proof. export_cases e req w; auto. Qed.

(** X13.  Every answer of the entry point carries the four CORS headers,
    with the allowed origin taken from FRONTEND_URL or else the local
    development origin, except the 200 answer of a CSV export, which
    carries only the content type and the attachment name. *)
Theorem handler_cors (e : env) (req : request) (w : world) :
  let r := fst (handler e req w) in
  (headers r = cors_headers e
   \/ (headers r = csv_headers /\ status r = 200
       /\ method req = "GET" /\ resolved_path req = "/csv"))
  /\ assoc "Access-Control-Allow-Origin" (cors_headers e)
     = Some (or_default (FRONTEND_URL e) "http://localhost:5173")
  /\ assoc "Access-Control-Allow-Origin" csv_headers = None.
Proof.
  cbn zeta. split; [|split; reflexivity].
  unfold handler, try_catch, lift. fold (resolved_path req).
  destruct (method req =? "OPTIONS")%string; [left; reflexivity|].
  destruct ((resolved_path req =? "/health")%string
            || (resolved_path req =? "/")%string); [left; reflexivity|].
  destruct ((resolved_path req =? "/submit")%string
            && (method req =? "POST")%string).
  { left. pose proof (submit_headers e (body req) w) as H.
    destruct (submit e (body req) w). exact H. }
  destruct ((resolved_path req =? "/csv")%string
            && (method req =? "GET")%string) eqn:Ecsv; [|left; reflexivity].
  apply andb_true_iff in Ecsv. destruct Ecsv as (Ep & Em).
  apply String.eqb_eq in Ep, Em.
  pose proof (export_csv_headers e req w) as H.
  destruct (export_csv e req w). cbn [fst] in *.
  destruct H as [H|(H1 & H2)]; [left; exact H | right; auto].
Qed.

(* ===================================================================== *)
(** ** CSV rows can be read back *)
(* ===================================================================== *)

Lemma scan_in_quoted (v text : string) (done : list cell) (rest : string) :
  scan_row InQuoted text done (escape_quotes v ++ dquote ++ rest)
  = scan_row AfterQuote (text ++ v) done rest.
Proof.
  revert text. induction v as [|c v IH]; intros text.
  - cbn [escape_quotes append dquote scan_row].
    now rewrite Ascii.eqb_refl, append_empty_r.
  - cbn [escape_quotes]. destruct (Ascii.eqb c dquote_char) eqn:E.
    + apply Ascii.eqb_eq in E. subst c. cbn [append scan_row].
      rewrite !Ascii.eqb_refl, IH. now rewrite append_assoc.
    + cbn [append scan_row]. rewrite E, IH. now rewrite append_assoc.
Qed.

Lemma scan_in_bare (t text : string) (done : list cell) (rest : string) :
  count_char comma_char t = 0%nat ->
  scan_row InBare text done (t ++ rest)
  = scan_row InBare (text ++ t) done rest.
Proof.
  revert text. induction t as [|c t IH]; intros text Hcount.
  - now rewrite append_empty_r.
  - cbn [count_char] in Hcount. cbn [append scan_row].
    destruct (Ascii.eqb c comma_char); [discriminate Hcount|].
    rewrite IH by exact Hcount. now rewrite append_assoc.
Qed.

(** Reading one well-formed cell, at the end of the row or before the
    comma that separates it from the next cell. *)
Lemma scan_cell (c : cell) (done : list cell) :
  cell_ok c = true ->
  scan_row AtCellStart "" done (render c) = Some (done ++ [c])%list
  /\ forall rest,
       scan_row AtCellStart "" done (render c ++ String comma_char rest)
       = scan_row AtCellStart "" (done ++ [c])%list rest.
Proof.
  intros Hok. destruct c as [v|t]; cbn [render cell_ok] in *.
  - split.
    + change (dquote ++ escape_quotes v ++ dquote)
        with (String dquote_char (escape_quotes v ++ dquote ++ "")).
      cbn [scan_row]. rewrite Ascii.eqb_refl, scan_in_quoted. reflexivity.
    + intros rest. rewrite !append_assoc.
      change (dquote ++ escape_quotes v ++ dquote ++ String comma_char rest)
        with (String dquote_char
                (escape_quotes v ++ dquote ++ String comma_char rest)).
      cbn [scan_row]. rewrite Ascii.eqb_refl, scan_in_quoted.
      cbn [append scan_row].
      change (Ascii.eqb comma_char dquote_char) with false.
      now rewrite Ascii.eqb_refl.
  - unfold bare_ok in Hok. apply andb_true_iff in Hok.
    destruct Hok as (Hcount & Hstart). apply Nat.eqb_eq in Hcount.
    destruct t as [|c t].
    + split; [reflexivity|]. intros rest. cbn [append scan_row].
      change (Ascii.eqb comma_char dquote_char) with false.
      now rewrite Ascii.eqb_refl.
    + apply negb_true_iff in Hstart. cbn [count_char] in Hcount.
      destruct (Ascii.eqb c comma_char) eqn:Ecomma; [discriminate Hcount|].
      split.
      * rewrite <- (append_empty_r (String c t)) at 1.
        cbn [append scan_row]. rewrite Hstart, Ecomma.
        rewrite scan_in_bare by exact Hcount. reflexivity.
      * intros rest. cbn [append scan_row]. rewrite Hstart, Ecomma.
        rewrite scan_in_bare by exact Hcount. cbn [append scan_row].
        now rewrite Ascii.eqb_refl.
Qed.

Lemma scan_cells (cs : list cell) (done : list cell) :
  cs <> [] ->
  forallb cell_ok cs = true ->
  scan_row AtCellStart "" done (String.concat "," (map render cs))
  = Some (done ++ cs)%list.
Proof.
  revert done. induction cs as [|c cs IH]; intros done Hne Hok; [congruence|].
  cbn [forallb] in Hok. apply andb_true_iff in Hok. destruct Hok as (Hc & Hcs).
  destruct (scan_cell c done Hc) as (Hlast & Hmore).
  destruct cs as [|c2 cs].
  - exact Hlast.
  - change (String.concat "," (map render (c :: c2 :: cs)))
      with (render c ++ String comma_char
              (String.concat "," (map render (c2 :: cs)))).
    rewrite Hmore, IH by (discriminate || exact Hcs).
    now rewrite <- app_assoc.
Qed.

Lemma forallb_after_map {A B : Type} (f : B -> bool) (g : A -> B) (l : list A) :
  forallb f (map g l) = forallb (fun x => f (g x)) l.
Proof. induction l as [|x l IH]; simpl; [reflexivity | now rewrite IH]. Qed.

Lemma csv_cell_render (e : env) (row : props) (field : string) :
  csv_cell e row field = render (cell_of e row field).
Proof. unfold csv_cell, cell_of. destruct (lookup field row); reflexivity. Qed.

(** The decimal text of a number holds digits and a sign only. *)
Lemma digits_no_comma (d : Decimal.uint) :
  count_char comma_char (NilEmpty.string_of_uint d) = 0%nat.
Proof.
  induction d; cbn [NilEmpty.string_of_uint count_char]; [reflexivity|..];
    match goal with
    | |- context [Ascii.eqb ?a comma_char] =>
        change (Ascii.eqb a comma_char) with false
    end; cbn [Nat.add]; assumption.
Qed.

Lemma string_of_uint_bare (d : Decimal.uint) :
  bare_ok (NilZero.string_of_uint d) = true.
Proof.
  unfold bare_ok. apply andb_true_iff. split.
  - apply Nat.eqb_eq. destruct d; try apply digits_no_comma. reflexivity.
  - destruct d; reflexivity.
Qed.

Lemma number_cell_ok (n : Z) : bare_ok (string_of_Z n) = true.
Proof.
  unfold string_of_Z. destruct (Z.to_int n) as [d|d].
  - apply string_of_uint_bare.
  - cbn [NilZero.string_of_int]. unfold bare_ok.
    apply andb_true_iff. split; [|reflexivity].
    cbn [count_char]. change (Ascii.eqb "-" comma_char) with false.
    cbn [Nat.add]. apply Nat.eqb_eq.
    destruct d; try apply digits_no_comma. reflexivity.
Qed.

(** X14.  A row of the export can be read back.  With a string read as
    quoted text and any other value as the bare text that the row shows for
    it, a reader that splits the row at the commas outside quotes, and takes
    a doubled quote inside quotes for one quote, finds exactly the cells of
    the record under the header fields, in their order, whatever commas,
    quotes or line breaks the strings hold; the bare cells are to hold no
    comma and not to start with a quote, which holds of every number, of
    [null] and of a missing field.  So two such rows are equal only if
    their cells are. *)
Theorem csv_row_reads_back (e : env) (headers : list string) (row : props) :
  headers <> [] ->
  forallb (fun field => cell_ok (cell_of e row field)) headers = true ->
  read_row (csv_row e headers row) = Some (map (cell_of e row) headers)
  /\ (forall headers' row',
        headers' <> [] ->
        forallb (fun field => cell_ok (cell_of e row' field)) headers' = true ->
        csv_row e headers' row' = csv_row e headers row ->
        map (cell_of e row') headers' = map (cell_of e row) headers)
  /\ (forall field,
        match lookup field row with
        | JStr _ | JNum _ | JNull | JUndefined => true
        | _ => false
        end = true ->
        cell_ok (cell_of e row field) = true).
Proof.
  assert (Hread : forall hs r,
             hs <> [] ->
             forallb (fun field => cell_ok (cell_of e r field)) hs = true ->
             read_row (csv_row e hs r) = Some (map (cell_of e r) hs)).
  { intros hs r Hne Hok. unfold read_row, csv_row.
    rewrite (map_ext _ _ (csv_cell_render e r)), <- map_map.
    apply (scan_cells (map (cell_of e r) hs) []).
    - destruct hs; [congruence | discriminate].
    - now rewrite forallb_after_map. }
  intros Hne Hok. split; [now apply Hread|]. split.
  - intros headers' row' Hne' Hok' Heq.
    apply Hread in Hok; [|exact Hne]. apply Hread in Hok'; [|exact Hne'].
    rewrite Heq in Hok'. congruence.
  - intros field. unfold cell_of.
    destruct (lookup field row); try discriminate; intros _;
      try reflexivity.
    apply number_cell_ok.
Qed.

Lemma csv_row_reads_back_witness :
  docs (snd (submit sample_env (JObj carol) empty_world)) = [carol_stored]
  /\ csv_row sample_env (keys carol_stored) carol_stored
     = (dquote ++ "Carol" ++ dquote ++ ",12,"
        ++ dquote ++ "F" ++ dquote ++ ","
        ++ dquote ++ "carol@x.com" ++ dquote ++ ","
        ++ dquote ++ "Likes " ++ dquote ++ dquote ++ "Go" ++ dquote ++ dquote
        ++ ", chess" ++ dquote
        ++ ",Tue Nov 14 2023 22:13:20 GMT+0000,"
        ++ dquote ++ "2023-11-14T22:13:20.000Z" ++ dquote)
  /\ read_row (csv_row sample_env (keys carol_stored) carol_stored)
     = Some [Quoted "Carol"; Bare "12"; Quoted "F"; Quoted "carol@x.com";
             Quoted ("Likes " ++ dquote ++ "Go" ++ dquote ++ ", chess");
             Bare "Tue Nov 14 2023 22:13:20 GMT+0000";
             Quoted "2023-11-14T22:13:20.000Z"].
Proof.
  split; [reflexivity|]. split; [reflexivity|].
  refine (proj1 (csv_row_reads_back sample_env (keys carol_stored)
                   carol_stored _ _)).
  - discriminate.
  - reflexivity.
Defined.

Lemma csv_row_set_other (e : env) (headers : list string) (row : props)
      (k : string) (v : jsval) :
  ~ In k headers -> csv_row e headers (set k v row) = csv_row e headers row.
Proof.
  intros Hk. unfold csv_row. f_equal. apply map_ext_in. intros h Hin.
  unfold csv_cell. rewrite lookup_set_ne; [reflexivity|].
  intros ->. contradiction.
Qed.

(** X15.  The columns of the export are the fields of the first record
    only: a field that another record has and the first record lacks never
    shows in the export, and a header field that a record lacks, or holds as
    null, gives an empty cell. *)
Theorem csv_columns_from_first_record (e : env) (first : props)
        (before after : list props) (row : props) (k : string) (v : jsval) :
  (~ In k (keys first) ->
   to_csv e (first :: before ++ set k v row :: after)
   = to_csv e (first :: before ++ row :: after))
  /\ (forall field,
        lookup field row = JUndefined \/ lookup field row = JNull ->
        csv_cell e row field = "").
Proof.
  split.
  - intros Hk. unfold to_csv, csvRows. f_equal. f_equal.
    cbn [map]. f_equal. rewrite !map_app. cbn [map].
    now rewrite csv_row_set_other.
  - intros field [H|H]; unfold csv_cell; rewrite H; reflexivity.
Qed.

Lemma csv_columns_from_first_record_witness :
  to_csv sample_env [nicknamed; set "team_name" (JStr "Owls") nicknamed]
  = to_csv sample_env [nicknamed; nicknamed].
Proof.
  apply (proj1 (csv_columns_from_first_record sample_env nicknamed [] []
                  nicknamed "team_name" (JStr "Owls"))).
  simpl. intros [H|[H|[]]]; discriminate.
Defined.

(* ===================================================================== *)
(** ** More on the validator *)
(* ===================================================================== *)

(** X16.  The validator accepts a body exactly when the body is an object,
    every required field is present and well-typed with an email of the
    email shape, and the optional fields are acceptable; nothing else in
    the body matters. *)
Theorem isValidFormData_accepts_iff (reqBody : jsval) :
  isValidFormData reqBody = Valid <->
  fails rule_object reqBody = false
  /\ required_ok reqBody = true
  /\ optional_ok reqBody = true.
Proof.
  split.
  - intros H. rewrite isValidFormData_rules, first_failure_valid in H.
    split; [apply H; simpl; tauto|]. split.
    + apply required_ok_rules. split.
      * intros f. apply H. apply field_rule_in_code_order.
      * apply H. apply rule_email_pattern_in_code_order.
    + apply optional_ok_rules. split.
      * intros field Hin. apply H. now apply rule_optional_in_code_order.
      * apply H. apply rule_referrer_email_in_code_order.
  - intros (Hobj & Hreq & Hopt). apply required_ok_rules in Hreq.
    destruct Hreq as (Hreq & Hpat). now apply accepted_when_all_pass.
Qed.

(** X17.  The validator looks at twelve keys only: setting any other key of
    an object to any value does not change its verdict.  Unknown fields are
    therefore never a reason to reject. *)
Theorem isValidFormData_ignores_other_keys (o : props) (k : string) (v : jsval) :
  ~ In k validated_keys ->
  isValidFormData (JObj (set k v o)) = isValidFormData (JObj o).
Proof.
  intros Hk.
  assert (Hget : forall key, In key validated_keys ->
                             lookup key (set k v o) = lookup key o).
  { intros key Hin. apply lookup_set_ne. intros ->. contradiction. }
  unfold isValidFormData, optionalStringFields.
  cbn [check_optional get typeof jstype_eqb negb orb is_null].
  rewrite !Hget by (simpl; tauto). reflexivity.
Qed.

Lemma isValidFormData_ignores_other_keys_witness :
  isValidFormData (JObj (set "createdAt" (JNum 1) ann)) = isValidFormData (JObj ann).
Proof.
  apply isValidFormData_ignores_other_keys. simpl.
  intros H. repeat (destruct H as [H|H]; [discriminate H|]). destruct H.
Defined.

Lemma count_char_app (c : ascii) (a b : string) :
  count_char c (a ++ b) = (count_char c a + count_char c b)%nat.
Proof.
  induction a as [|x a IH]; simpl; [reflexivity|]. rewrite IH. lia.
Qed.

Lemma part_without_at (s : string) :
  part_ok s ->
  count_char "@" s = 0%nat
  /\ (1 <= String.length s)%nat
  /\ Forall (fun c => is_space c = false) (list_ascii_of_string s).
Proof.
  intros (Hne & Hall). split; [|split].
  - clear Hne. induction s as [|c s IH]; simpl; [reflexivity|].
    simpl in Hall. inversion Hall as [|? ? Hc Hrest]; subst.
    unfold not_space_at in Hc. apply andb_true_iff in Hc.
    destruct Hc as (_ & Hc). apply negb_true_iff in Hc. rewrite Hc.
    now rewrite IH.
  - destruct s; [congruence | simpl; lia].
  - clear Hne. induction s as [|c s IH]; simpl; [constructor|].
    simpl in Hall. inversion Hall as [|? ? Hc Hrest]; subst.
    constructor; [|now apply IH].
    unfold not_space_at in Hc. apply andb_true_iff in Hc.
    destruct Hc as (Hc & _). now apply negb_true_iff in Hc.
Qed.

Lemma length_app_string (a b : string) :
  String.length (a ++ b) = (String.length a + String.length b)%nat.
Proof. induction a as [|x a IH]; simpl; [reflexivity | now rewrite IH]. Qed.

(** X18.  An email that the expression accepts has exactly one [@], no
    white space anywhere, at least five characters, and does not start
    with [@]. *)
Theorem emailRegex_accepts_only (s : string) :
  matches emailRegex s = true ->
  count_char "@" s = 1%nat
  /\ Forall (fun c => is_space c = false) (list_ascii_of_string s)
  /\ (5 <= String.length s)%nat
  /\ (forall rest, s <> String "@" rest).
Proof.
  intros H. apply emailRegex_shape in H.
  destruct H as (l & d & t & -> & Hl & Hd & Ht).
  destruct (part_without_at l Hl) as (Cl & Ll & Sl).
  destruct (part_without_at d Hd) as (Cd & Ld & Sd).
  destruct (part_without_at t Ht) as (Ct & Lt & St).
  split; [|split; [|split]].
  - rewrite !count_char_app, Cl, Cd, Ct. reflexivity.
  - rewrite !list_ascii_app. repeat (apply Forall_app; split); try assumption;
      repeat constructor.
  - rewrite !length_app_string. simpl. lia.
  - intros rest Heq. destruct l as [|c l]; [destruct Hl; congruence|].
    simpl in Heq. injection Heq as Hc _. subst c.
    destruct Hl as (_ & Hall). simpl in Hall.
    inversion Hall as [|? ? Hc _]. discriminate Hc.
Qed.

Lemma emailRegex_accepts_only_witness :
  count_char "@" "ann@x.com" = 1%nat.
Proof. apply (emailRegex_accepts_only "ann@x.com"). reflexivity. Defined.

(* ===================================================================== *)
(** ** The Express routes, every outcome *)
(* ===================================================================== *)

Lemma bytes_eqb_refl (a : list N) : bytes_eqb a a = true.
Proof. now apply bytes_eqb_eq. Qed.

(** The Express export with the configured key. *)
Lemma Express_to_csv_granted (collection_to_csv : M string) (e : env)
      (rawKey : Express.query_value) (w : world) (s : string) :
  s <> "" ->
  Express.provided_key rawKey = Some s ->
  ADMIN_KEY e = Some s ->
  Express.to_csv collection_to_csv e rawKey w
  = match collection_to_csv w with
    | (Ok csv, w') => (Ok (express_csv csv), w')
    | (Throw _, w') => (Ok (express_failure "Failed to export CSV"), w')
    end.
Proof.
  intros Hne Hp Ha. unfold Express.to_csv. rewrite Hp, Ha.
  apply String.eqb_neq in Hne. cbn [is_set or_default]. rewrite Hne.
  cbn [negb orb]. unfold bind at 1. rewrite Nat.eqb_refl.
  unfold timingSafeEqual. rewrite Nat.eqb_refl, bytes_eqb_refl.
  cbn [ret negb]. unfold lift, try_catch, bind, ret.
  destruct (collection_to_csv w) as [[csv|m] w']; reflexivity.
Qed.

(** X19.  The Express route [/to_csv] always answers: although no [try]
    surrounds the key comparison, the comparison never throws, because the
    lengths are compared first.  The answer is 403 with the store untouched
    unless the provided key is non-empty and equal to the configured key;
    then [collection_to_csv] is run once, and the answer is 200 with its
    text as a CSV attachment, or 500 if it throws. *)
Theorem Express_to_csv_outcomes (collection_to_csv : M string) (e : env)
        (rawKey : Express.query_value) (w : world) :
  (exists r w',
     Express.to_csv collection_to_csv e rawKey w = (Ok r, w')
     /\ (status r = 200 \/ status r = 403 \/ status r = 500)
     /\ (status r = 403 -> w' = w))
  /\ (forall s,
        s <> "" -> Express.provided_key rawKey = Some s -> ADMIN_KEY e = Some s ->
        Express.to_csv collection_to_csv e rawKey w
        = match collection_to_csv w with
          | (Ok csv, w') => (Ok (express_csv csv), w')
          | (Throw _, w') => (Ok (express_failure "Failed to export CSV"), w')
          end)
  /\ ((forall s, s <> "" -> Express.provided_key rawKey = Some s ->
                 ADMIN_KEY e <> Some s) ->
      exists message,
        Express.to_csv collection_to_csv e rawKey w
        = (Ok (forbidden message), w)).
Proof.
  assert (Hrejected :
            (forall s, s <> "" -> Express.provided_key rawKey = Some s ->
                       ADMIN_KEY e <> Some s) ->
            exists message,
              Express.to_csv collection_to_csv e rawKey w
              = (Ok (forbidden message), w)).
  { intros Hno. eexists. apply Express_to_csv_rejected.
    destruct (Express.provided_key rawKey) as [p|] eqn:Hp; [|left; reflexivity].
    destruct (string_dec p "") as [->|Hne]; [left; reflexivity|].
    right. intros Heq. apply (Hno p Hne eq_refl). now rewrite <- Heq. }
  split; [|split; [|exact Hrejected]].
  - destruct (Express.provided_key rawKey) as [p|] eqn:Hp.
    + destruct (string_dec p "") as [->|Hne].
      * destruct Hrejected as (m & Hm); [intros s Hs H; congruence|].
        rewrite Hm. exists (forbidden m), w. cbn. tauto.
      * destruct (ADMIN_KEY e) as [a|] eqn:Ha.
        -- destruct (string_dec a p) as [->|Hap].
           ++ rewrite (Express_to_csv_granted collection_to_csv e rawKey w p
                         Hne Hp Ha).
              destruct (collection_to_csv w) as [[csv|m] w'];
                eexists _, _; (split; [reflexivity|]); cbn;
                (split; [tauto | discriminate]).
           ++ destruct Hrejected as (m & Hm); [intros s Hs H; congruence|].
              rewrite Hm. exists (forbidden m), w. cbn. tauto.
        -- destruct Hrejected as (m & Hm); [intros s Hs H; congruence|].
           rewrite Hm. exists (forbidden m), w. cbn. tauto.
    + destruct Hrejected as (m & Hm); [intros s Hs H; congruence|].
      rewrite Hm. exists (forbidden m), w. cbn. tauto.
  - intros s. apply Express_to_csv_granted.
Qed.

Lemma Express_to_csv_outcomes_witness :
  Express.to_csv (ret "name") sample_env (Express.QArray ["admin-key"; "x"])
                 empty_world
  = (Ok (express_csv "name"), empty_world)
  /\ exists message,
       Express.to_csv (ret "name") sample_env (Express.QArray []) empty_world
       = (Ok (forbidden message), empty_world).
Proof.
  destruct (Express_to_csv_outcomes (ret "name") sample_env
              (Express.QArray ["admin-key"; "x"]) empty_world)
    as (_ & Hgranted & _).
  destruct (Express_to_csv_outcomes (ret "name") sample_env
              (Express.QArray []) empty_world)
    as (_ & _ & Hrejected).
  split.
  - apply (Hgranted "admin-key"); [discriminate | reflexivity | reflexivity].
  - apply Hrejected. intros s _ H. discriminate H.
Defined.

(** X20.  The Express route [/submit] answers 200 exactly when the body
    can be destructured, the collaborator accepts its token and
    [insertData] returns; the store is then as [insertData] left it.  An
    undefined or null body, and a failure of [insertData], are answered 500
    with the message of the error, whatever NODE_ENV is; a rejected token
    is answered 400, and no other status occurs.  The body is never
    validated: its other fields have no part in the outcome before
    [insertData]. *)
Theorem Express_submit_outcomes (insertData : jsval -> M unit) (e : env)
        (reqBody : jsval) (w : world) :
  let r := fst (Express.submit insertData e reqBody w) in
  let w' := snd (Express.submit insertData e reqBody w) in
  (status r = 200 <->
   exists token formData,
     Express.destructure "captchaToken" reqBody = Ok (token, formData)
     /\ success (Express.verifyCaptcha e token) = true
     /\ fst (insertData (JObj formData) w) = Ok tt
     /\ w' = snd (insertData (JObj formData) w))
  /\ (forall message,
        Express.destructure "captchaToken" reqBody = Throw message ->
        r = express_failure message /\ w' = w)
  /\ (forall token formData message,
        Express.destructure "captchaToken" reqBody = Ok (token, formData) ->
        success (Express.verifyCaptcha e token) = true ->
        fst (insertData (JObj formData) w) = Throw message ->
        r = express_failure message)
  /\ (status r = 200 \/ status r = 400 \/ status r = 500).
Proof.
  cbn zeta. unfold Express.submit, try_catch.
  destruct (Express.destructure "captchaToken" reqBody) as [[token formData]|m]
    eqn:Hd.
  - destruct (success (Express.verifyCaptcha e token)) eqn:Hc; cbn [negb].
    + unfold bind, ret.
      destruct (insertData (JObj formData) w) as [[[]|m] w1] eqn:Hi;
        cbn [fst snd status].
      * split; [split; [|reflexivity]|].
        { intros _. exists token, formData.
          repeat split; try assumption; rewrite Hi; reflexivity. }
        split; [intros message H; discriminate H|]. split; [|tauto].
        intros t f message Heq _ Hthrow. inversion Heq; subst.
        rewrite Hi in Hthrow. discriminate Hthrow.
      * split; [split; [intros H; discriminate H|]|].
        { intros (t & f & Heq & _ & Hok & _). inversion Heq; subst.
          rewrite Hi in Hok. discriminate Hok. }
        split; [intros message H; discriminate H|]. split; [|tauto].
        intros t f message Heq _ Hthrow. inversion Heq; subst.
        rewrite Hi in Hthrow. cbn in Hthrow. now inversion Hthrow.
    + cbn [fst snd status ret].
      split; [split; [intros H; discriminate H|]|].
      { intros (t & f & Heq & Hok & _). inversion Heq; subst. congruence. }
      split; [intros message H; discriminate H|]. split; [|tauto].
      intros t f message Heq Hok. inversion Heq; subst. congruence.
  - cbn [fst snd status throw].
    split; [split; [intros H; discriminate H|]|].
    { intros (t & f & Heq & _). discriminate Heq. }
    split; [|split; [intros t f message H; discriminate H | tauto]].
    intros message Heq. inversion Heq. split; reflexivity.
Qed.

Lemma Express_submit_outcomes_witness :
  fst (Express.submit insert_refused sample_env (JObj ann) empty_world)
  = express_failure "E11000 duplicate key"
  /\ fst (Express.submit (insert_plainly sample_env) sample_env JUndefined
            empty_world)
     = express_failure "Cannot destructure property of undefined".
Proof.
  split.
  - apply (proj1 (proj2 (proj2
             (Express_submit_outcomes insert_refused sample_env (JObj ann)
                empty_world))) (JStr "valid") (omit "captchaToken" ann));
      reflexivity.
  - apply (proj1 (proj2
             (Express_submit_outcomes (insert_plainly sample_env) sample_env
                JUndefined empty_world))).
    reflexivity.
Defined.

(* ===================================================================== *)
(** ** The admin-key functions (index.js, index.ts) *)
(* ===================================================================== *)

Lemma stamped_without (e : env) (o : props) (k0 : string) (t1 t2 : Z) :
  k0 <> "createdAt" -> k0 <> "submittedAt" ->
  let doc := stamped e (omit k0 o) t1 t2 in
  lookup k0 doc = JUndefined
  /\ lookup "createdAt" doc = JDate t1
  /\ lookup "submittedAt" doc = JStr (toISOString e t2)
  /\ (forall k, k <> k0 -> k <> "createdAt" -> k <> "submittedAt" ->
                lookup k doc = lookup k o).
Proof.
  intros H1 H2. unfold stamped. cbn zeta. repeat split.
  - rewrite !lookup_set_ne by assumption. apply lookup_omit_eq.
  - rewrite lookup_set_ne by discriminate. apply lookup_set_eq.
  - apply lookup_set_eq.
  - intros k Hk Hc Hs. rewrite !lookup_set_ne by assumption.
    now apply lookup_omit_ne.
Qed.

(** A truthy value strictly equal to an environment variable is that
    variable, a non-empty string. *)
Lemma truthy_strict_eq_env (v : jsval) (var : option string) :
  truthy v = true -> strict_eq v (of_option var) = true ->
  exists s, s <> "" /\ v = JStr s /\ var = Some s.
Proof.
  intros Ht He. destruct var as [a|]; destruct v; simpl in *; try discriminate.
  apply String.eqb_eq in He. subst a. exists s.
  apply negb_true_iff, String.eqb_neq in Ht. auto.
Qed.

Ltac legacy_submit_cases guard e reqBody w :=
  unfold AdminKeyFunction.submit, try_catch;
  let Hguard := fresh "Hguard" in
  destruct (guard reqBody) eqn:Hguard; cbn [negb];
  [ let Htruthy := fresh "Htruthy" in
    destruct (truthy (get reqBody "adminKey")) eqn:Htruthy; cbn [negb orb];
    [ let Heq := fresh "Heq" in
      destruct (strict_eq (get reqBody "adminKey") (of_option (ADMIN_KEY e)))
        eqn:Heq; cbn [negb];
      [ unfold bind, insertOne, store_op, new_Date, bind, ret;
        let HfC := fresh "HfConnect" in
        destruct (store_fault e Connect) eqn:HfC;
        [ | cbn [docs calls reads];
            let HfI := fresh "HfInsertOne" in
            destruct (store_fault e (InsertOne _)) eqn:HfI;
            [ | cbn [docs calls reads];
                let HfX := fresh "HfClose" in
                destruct (store_fault e Close) eqn:HfX ] ]
      | ]
    | ]
  | ];
  cbn [fst snd status content headers AdminKeyFunction.json docs calls reads];
  rewrite <- ?app_assoc; cbn [app].

(** X21.  In index.js and in the second function of index.ts, whatever the
    guard of the body and whatever the answer, 500 included, the collection
    changes only when the body carries an [adminKey] that is a non-empty
    string equal to the configured key: the collection is then the old one
    with one document added, the body without [adminKey], stamped with
    [createdAt] and [submittedAt], every other field, a [captchaToken]
    included, as submitted.  A body without such a key is answered 400 or
    401 and leaves the world as it was, with no store call.  An answer 200
    tells that the document was stored; the store is never queried for an
    existing record; and a request answered 400 or 401 leaves the world as
    it was. *)
Theorem AdminKeyFunction_submit_stores (guard : jsval -> bool) (e : env)
        (reqBody : jsval) (w : world) :
  let r := fst (AdminKeyFunction.submit guard e reqBody w) in
  let w' := snd (AdminKeyFunction.submit guard e reqBody w) in
  (status r = 200 ->
   exists o s,
     reqBody = JObj o /\ s <> "" /\ lookup "adminKey" o = JStr s
     /\ ADMIN_KEY e = Some s
     /\ docs w' = (docs w ++ [stamped e (omit "adminKey" o)
                                (clock e (reads w)) (clock e (S (reads w)))])%list
     /\ forall doc, last (docs w') [] = doc ->
          lookup "adminKey" doc = JUndefined
          /\ forall k, k <> "adminKey" -> k <> "createdAt" -> k <> "submittedAt" ->
                       lookup k doc = lookup k o)
  /\ (forall c, In c (new_calls w w') ->
                c = Connect \/ c = Close \/ exists doc, c = InsertOne doc)
  /\ (status r = 400 \/ status r = 401 -> w' = w)
  /\ (docs w' = docs w
      \/ exists o s,
           reqBody = JObj o /\ s <> "" /\ lookup "adminKey" o = JStr s
           /\ ADMIN_KEY e = Some s
           /\ docs w'
              = (docs w ++ [stamped e (omit "adminKey" o)
                              (clock e (reads w)) (clock e (S (reads w)))])%list)
  /\ (~ (exists o s,
           reqBody = JObj o /\ s <> "" /\ lookup "adminKey" o = JStr s
           /\ ADMIN_KEY e = Some s) ->
      w' = w /\ (status r = 400 \/ status r = 401)).
Proof.
  cbn zeta.
  assert (Hmatch : truthy (get reqBody "adminKey") = true ->
                   strict_eq (get reqBody "adminKey") (of_option (ADMIN_KEY e))
                   = true ->
                   exists o s,
                     reqBody = JObj o /\ s <> "" /\ lookup "adminKey" o = JStr s
                     /\ ADMIN_KEY e = Some s).
  { intros Ht He.
    destruct (truthy_strict_eq_env _ _ Ht He) as (s & Hne & Hget & Hkey).
    destruct reqBody as [| | | | | | |o]; try discriminate Hget.
    exists o, s. auto. }
  legacy_submit_cases guard e reqBody w;
    rewrite ?new_calls_added, ?new_calls_same.
  all: split;
    [ try (intros H; discriminate H)
    | split;
        [ intros c Hin; simpl in Hin;
          repeat (destruct Hin as [<-|Hin]; [eauto|]); destruct Hin
        | split;
            [ intros [H|H]; try discriminate H; reflexivity
            | split;
                [ try (left; reflexivity)
                | intros Hno;
                  first [ exfalso; apply Hno; apply Hmatch; reflexivity
                        | split; [reflexivity | auto] ] ] ] ] ].
  - right. destruct (Hmatch eq_refl eq_refl) as (o & key & -> & Hne & Hget & Hkey).
    exists o, key. auto.
  - intros _. destruct (Hmatch eq_refl eq_refl) as (o & key & -> & Hne & Hget & Hkey).
    cbn [get fields_of] in *. exists o, key. repeat split; try assumption.
    + rewrite last_last in H. subst doc.
      apply (stamped_without e o "adminKey"); discriminate.
    + intros k Hk Hc Hs. rewrite last_last in H. subst doc.
      apply (stamped_without e o "adminKey"); (discriminate || assumption).
  - right. destruct (Hmatch eq_refl eq_refl) as (o & key & -> & Hne & Hget & Hkey).
    exists o, key. auto.
Qed.

Lemma AdminKeyFunction_submit_stores_witness :
  (exists o s,
     JObj keyed_only = JObj o /\ s <> ""
     /\ ADMIN_KEY sample_env = Some s
     /\ List.length
          (docs (snd (AdminKeyFunction.submit
                        AdminKeyFunction.isFormDataWithAdminKey sample_env
                        (JObj keyed_only) one_record_world))) = 2%nat)
  /\ status (fst (AdminKeyFunction.submit
                    AdminKeyFunction.isFormDataWithAdminKey
                    (env_failing Close "connection lost" None)
                    (JObj keyed_only) one_record_world)) = 500
  /\ (exists o s,
        JObj keyed_only = JObj o
        /\ ADMIN_KEY (env_failing Close "connection lost" None) = Some s
        /\ docs (snd (AdminKeyFunction.submit
                        AdminKeyFunction.isFormDataWithAdminKey
                        (env_failing Close "connection lost" None)
                        (JObj keyed_only) one_record_world))
           = [nicknamed;
              stamped (env_failing Close "connection lost" None)
                (omit "adminKey" o) 1700000000000 1700000000001]).
Proof.
  split; [|split; [reflexivity|]].
  - destruct (proj1 (AdminKeyFunction_submit_stores
                       AdminKeyFunction.isFormDataWithAdminKey sample_env
                       (JObj keyed_only) one_record_world))
      as (o & s & Ho & Hne & _ & Hkey & Hdocs & _).
    + reflexivity.
    + exists o, s. split; [exact Ho|]. split; [exact Hne|]. split; [exact Hkey|].
      now rewrite Hdocs.
  - destruct (proj1 (proj2 (proj2 (proj2
               (AdminKeyFunction_submit_stores
                  AdminKeyFunction.isFormDataWithAdminKey
                  (env_failing Close "connection lost" None)
                  (JObj keyed_only) one_record_world)))))
      as [Hsame | (o & s & Ho & _ & _ & Hkey & Hdocs)].
    + discriminate Hsame.
    + exists o, s. split; [exact Ho|]. split; [exact Hkey|]. exact Hdocs.
Defined.

(** X22.  The data route of index.js and index.ts never changes the
    collection.  It answers 200 only when the key in the header
    x-admin-key (or else X-Admin-Key) is a non-empty string equal to the
    configured key, and the answer then lists every stored document; with
    no configured key it answers 401 to every request, before any store
    call. *)
Theorem AdminKeyFunction_data_outcomes (e : env) (req : request) (w : world) :
  let r := fst (AdminKeyFunction.data e req w) in
  let w' := snd (AdminKeyFunction.data e req w) in
  docs w' = docs w
  /\ (status r = 200 ->
      content r = Json (JArr (map JObj (docs w)))
      /\ exists s,
           s <> ""
           /\ or_else (assoc "x-admin-key" (req_headers req))
                      (assoc "X-Admin-Key" (req_headers req)) = Some s
           /\ ADMIN_KEY e = Some s)
  /\ (is_set (ADMIN_KEY e) = false ->
      AdminKeyFunction.data e req w
      = (AdminKeyFunction.json (JObj [("error", JStr "Invalid admin key")]) 401,
         w)).
Proof.
  cbn zeta. unfold AdminKeyFunction.data, try_catch.
  set (adminKey := or_else (assoc "x-admin-key" (req_headers req))
                           (assoc "X-Admin-Key" (req_headers req))).
  destruct (is_set adminKey) eqn:Hset; cbn [negb orb].
  - destruct (strict_eq (of_option adminKey) (of_option (ADMIN_KEY e))) eqn:Heq;
      cbn [negb].
    + assert (Hkey : exists s, s <> "" /\ adminKey = Some s /\ ADMIN_KEY e = Some s).
      { destruct adminKey as [p|]; [|discriminate Hset].
        destruct (truthy_strict_eq_env (JStr p) (ADMIN_KEY e))
          as (key & Hne & Hp & Ha); [exact Hset | exact Heq |].
        inversion Hp; subst. eauto. }
      assert (Hconfigured : is_set (ADMIN_KEY e) = true).
      { destruct Hkey as (key & Hne & _ & Ha). rewrite Ha. simpl.
        now apply negb_true_iff, String.eqb_neq. }
      unfold bind, find_all, store_op, bind, ret.
      destruct (store_fault e Connect); cbn [fst snd docs status];
        [split; [reflexivity|]; split; [intros H; discriminate H|];
         intros Hunset; congruence|].
      destruct (store_fault e FindAll); cbn [fst snd docs status];
        [split; [reflexivity|]; split; [intros H; discriminate H|];
         intros Hunset; congruence|].
      destruct (store_fault e Close);
        cbn [fst snd docs status content AdminKeyFunction.json];
        (split; [reflexivity|]; split;
         [first [ intros H; discriminate H
                | intros _; split; [reflexivity | exact Hkey] ]|];
         intros Hunset; congruence).
    + cbn [fst snd status ret]. split; [reflexivity|].
      split; [intros H; discriminate H | reflexivity].
  - cbn [fst snd status ret]. split; [reflexivity|].
    split; [intros H; discriminate H | reflexivity].
Qed.

Lemma AdminKeyFunction_data_outcomes_witness :
  AdminKeyFunction.data no_admin_key_env
    (get_with_headers "/data" [("x-admin-key", "undefined")]) one_record_world
  = (AdminKeyFunction.json (JObj [("error", JStr "Invalid admin key")]) 401,
     one_record_world)
  /\ content (fst (AdminKeyFunction.data sample_env
                     (get_with_headers "/data" [("x-admin-key", "admin-key")])
                     one_record_world))
     = Json (JArr [JObj nicknamed]).
Proof.
  split.
  - apply (proj2 (proj2 (AdminKeyFunction_data_outcomes no_admin_key_env
                           (get_with_headers "/data" [("x-admin-key", "undefined")])
                           one_record_world))).
    reflexivity.
  - apply (proj1 (proj2 (AdminKeyFunction_data_outcomes sample_env
                           (get_with_headers "/data" [("x-admin-key", "admin-key")])
                           one_record_world))).
    reflexivity.
Defined.

(** An accepted key and a guard that lets the body through, with a store
    that answers: the record is stored. *)
Lemma AdminKeyFunction_submit_accepted (guard : jsval -> bool) (e : env)
      (o : props) (w : world) (s : string) :
  guard (JObj o) = true -> s <> "" ->
  lookup "adminKey" o = JStr s -> ADMIN_KEY e = Some s -> no_fault e ->
  AdminKeyFunction.submit guard e (JObj o) w
  = let doc := stamped e (omit "adminKey" o)
                 (clock e (reads w)) (clock e (S (reads w))) in
    (AdminKeyFunction.json
       (JObj [("success", JBool true);
              ("id", JStr (newObjectId e (List.length (docs w))));
              ("message", JStr "Form submitted successfully")]) 200,
     mkWorld (docs w ++ [doc]) (calls w ++ [Connect; InsertOne doc; Close])
             (S (S (reads w)))).
Proof.
  intros Hguard Hne Hget Hkey Hfault.
  unfold AdminKeyFunction.submit, try_catch. rewrite Hguard. cbn [negb get].
  rewrite Hget, Hkey. cbn [truthy of_option strict_eq].
  apply String.eqb_neq in Hne. rewrite Hne, String.eqb_refl. cbn [negb orb].
  unfold bind, insertOne, store_op, new_Date, bind, ret. cbn [fields_of].
  rewrite !Hfault. cbn [docs calls reads]. rewrite ?Hfault.
  cbn [docs calls reads]. rewrite <- !app_assoc. reflexivity.
Qed.

Lemma AdminKeyFunction_route_submit (guard : jsval -> bool)
      (submitPath dataPath : string) (e : env) (reqBody : jsval) (w : world) :
  submitPath <> "" -> submitPath <> "/health" -> submitPath <> "/" ->
  AdminKeyFunction.handler guard submitPath dataPath e (post submitPath reqBody) w
  = AdminKeyFunction.submit guard e reqBody w.
Proof.
  intros He Hh Hr. unfold AdminKeyFunction.handler, try_catch, lift, post.
  cbn [method path url body or_else or_default].
  apply String.eqb_neq in He, Hh, Hr. rewrite He. cbn [or_else or_default].
  rewrite He, Hh, Hr, String.eqb_refl. cbn.
  destruct (AdminKeyFunction.submit guard e reqBody w); reflexivity.
Qed.

(** X23.  The two admin-key functions differ in what they let through:
    given the right [adminKey] and a store that answers, index.js stores a
    body exactly when it has the keys [name] and [email], whatever their
    values, and answers 400 without touching the store otherwise; the second
    function of index.ts stores every such body, also one with neither
    [name] nor [email]. *)
Theorem index_js_vs_index_ts (e : env) (o : props) (w : world) (s : string) :
  s <> "" -> lookup "adminKey" o = JStr s -> ADMIN_KEY e = Some s ->
  no_fault e ->
  let js := AdminKeyFunction.index_js e (post "/submit" (JObj o)) w in
  let ts := AdminKeyFunction.index_ts e (post "/api/submit" (JObj o)) w in
  (status (fst js) = 200 <->
   AdminKeyFunction.key_in "name" (JObj o) = true
   /\ AdminKeyFunction.key_in "email" (JObj o) = true)
  /\ (status (fst js) <> 200 ->
      js = (AdminKeyFunction.json (JObj [("error", JStr "Invalid form data")]) 400,
            w))
  /\ status (fst ts) = 200
  /\ docs (snd ts)
     = (docs w ++ [stamped e (omit "adminKey" o)
                     (clock e (reads w)) (clock e (S (reads w)))])%list.
Proof.
  intros Hne Hget Hkey Hfault. cbn zeta.
  unfold AdminKeyFunction.index_js, AdminKeyFunction.index_ts.
  rewrite !AdminKeyFunction_route_submit by discriminate.
  assert (Hin : AdminKeyFunction.key_in "adminKey" (JObj o) = true).
  { cbn [AdminKeyFunction.key_in]. clear - Hget.
    induction o as [|[k v] o IH]; [discriminate Hget|].
    simpl in *. destruct (k =? "adminKey")%string; [reflexivity | now apply IH]. }
  assert (Hts : AdminKeyFunction.isFormDataWithAdminKey (JObj o) = true).
  { unfold AdminKeyFunction.isFormDataWithAdminKey. now rewrite Hin. }
  rewrite (AdminKeyFunction_submit_accepted _ e o w s Hts Hne Hget Hkey Hfault).
  cbn zeta. cbn [fst snd status AdminKeyFunction.json docs].
  destruct (AdminKeyFunction.isValidFormData (JObj o)) eqn:Hjs.
  - rewrite (AdminKeyFunction_submit_accepted _ e o w s Hjs Hne Hget Hkey Hfault).
    cbn zeta. cbn [fst snd status AdminKeyFunction.json].
    unfold AdminKeyFunction.isValidFormData in Hjs.
    rewrite !andb_true_iff in Hjs. destruct Hjs as ((_ & Hn) & Hm).
    repeat split; auto. intros H. congruence.
  - unfold AdminKeyFunction.submit, try_catch. rewrite Hjs.
    cbn [negb ret fst snd status AdminKeyFunction.json].
    unfold AdminKeyFunction.isValidFormData in Hjs. rewrite Hin in Hjs.
    cbn [typeof jstype_eqb is_null negb andb] in Hjs.
    repeat split; auto; try discriminate.
    intros (Hn & Hm). rewrite Hn, Hm in Hjs. discriminate Hjs.
Qed.

Lemma index_js_vs_index_ts_witness :
  AdminKeyFunction.index_js sample_env (post "/submit" (JObj keyed_only))
                            empty_world
  = (AdminKeyFunction.json (JObj [("error", JStr "Invalid form data")]) 400,
     empty_world)
  /\ status (fst (AdminKeyFunction.index_ts sample_env
                    (post "/api/submit" (JObj keyed_only)) empty_world)) = 200.
Proof.
  destruct (index_js_vs_index_ts sample_env keyed_only empty_world "admin-key")
    as (_ & Hjs & Hts & _); try reflexivity; try discriminate.
  - intros c. reflexivity.
  - split; [apply Hjs; discriminate | exact Hts].
Defined.

(** X24.  With no admin key configured (unset or empty), the submit route
    of index.js and index.ts stores nothing: every body is answered 400 or
    401 and the world is left as it was. *)
Theorem AdminKeyFunction_submit_fails_closed (guard : jsval -> bool) (e : env)
        (reqBody : jsval) (w : world) :
  is_set (ADMIN_KEY e) = false ->
  (status (fst (AdminKeyFunction.submit guard e reqBody w)) = 400
   \/ status (fst (AdminKeyFunction.submit guard e reqBody w)) = 401)
  /\ snd (AdminKeyFunction.submit guard e reqBody w) = w.
Proof.
  intros Hunset. unfold AdminKeyFunction.submit, try_catch.
  destruct (guard reqBody); cbn [negb]; [|split; [left|]; reflexivity].
  destruct (truthy (get reqBody "adminKey")) eqn:Ht; cbn [negb orb];
    [|split; [right|]; reflexivity].
  destruct (strict_eq (get reqBody "adminKey") (of_option (ADMIN_KEY e))) eqn:He;
    cbn [negb]; [|split; [right|]; reflexivity].
  destruct (truthy_strict_eq_env _ _ Ht He) as (s & Hne & _ & Ha).
  rewrite Ha in Hunset. simpl in Hunset.
  apply negb_false_iff, String.eqb_eq in Hunset. congruence.
Qed.

Lemma AdminKeyFunction_submit_fails_closed_witness :
  snd (AdminKeyFunction.submit AdminKeyFunction.isValidFormData
         no_admin_key_env (JObj keyed_only) one_record_world)
  = one_record_world.
Proof.
  apply (AdminKeyFunction_submit_fails_closed AdminKeyFunction.isValidFormData
           no_admin_key_env (JObj keyed_only) one_record_world).
  reflexivity.
Defined.

(* ===================================================================== *)
(** ** The data-handler function (index.ts) *)
(* ===================================================================== *)

(** X25.  The first function of index.ts never asks for a key: its export
    route hands out whatever [collection_to_csv] returns, with status 200, to
    every GET /csv, whatever the headers, the query string and the body of
    the request, and no request at all is answered 401 or 403. *)
Theorem DataHandlerFunction_no_key (connectDB closeDB : M unit)
        (insertData : jsval -> M unit) (collection_to_csv : M string)
        (e : env) (req : request) (w : world) :
  let handle :=
    DataHandlerFunction.handler connectDB closeDB insertData collection_to_csv e in
  (method req = "GET" -> path req = Some "/csv" ->
   forall csv w',
     collection_to_csv w = (Ok csv, w') ->
     content (fst (handle req w)) = Text csv
     /\ status (fst (handle req w)) = 200
     /\ snd (handle req w) = w')
  /\ (status (fst (handle req w)) = 200 \/ status (fst (handle req w)) = 400
      \/ status (fst (handle req w)) = 404 \/ status (fst (handle req w)) = 500).
Proof.
  cbn zeta. split.
  - intros Hm Hp csv w' Hcsv.
    unfold DataHandlerFunction.handler, try_catch. rewrite Hm, Hp. cbn.
    unfold DataHandlerFunction.export_csv, lift, try_catch, bind, ret.
    rewrite Hcsv. repeat split.
  - unfold DataHandlerFunction.handler, try_catch.
    destruct (method req =? "OPTIONS")%string; [cbn; tauto|].
    destruct ((method req =? "GET")%string
              && match path req with
                 | Some q => (q =? "/health")%string
                 | None => false
                 end).
    { unfold bind, ret. destruct (connectDB w) as [[[]|m] w1]; cbn; tauto. }
    destruct ((method req =? "POST")%string
              && match path req with
                 | Some q => (q =? "/submit")%string
                 | None => false
                 end).
    { unfold DataHandlerFunction.submit, DataHandlerFunction.read, bind, ret,
        throw, lift, try_catch.
      destruct (body req); cbn; try tauto;
        repeat match goal with
               | |- context [if ?c then _ else _] => destruct c; cbn; try tauto
               | |- context [insertData ?b ?w0] =>
                   destruct (insertData b w0) as [[[]|m] w1]; cbn; try tauto
               end. }
    destruct ((method req =? "GET")%string
              && match path req with
                 | Some q => (q =? "/csv")%string
                 | None => false
                 end).
    { unfold DataHandlerFunction.export_csv, lift, try_catch, bind, ret.
      destruct (collection_to_csv w) as [[csv|m] w1]; cbn; tauto. }
    destruct ((method req =? "GET")%string
              && match path req with
                 | Some q => (q =? "/close")%string
                 | None => false
                 end).
    { unfold bind, ret. destruct (closeDB w) as [[[]|m] w1]; cbn; tauto. }
    cbn. tauto.
Qed.

Lemma DataHandlerFunction_no_key_witness :
  content (fst (DataHandlerFunction.handler (ret tt) (ret tt)
                  (insert_plainly sample_env) (ret "name,roll_number")
                  sample_env (csv_request None) one_record_world))
  = Text "name,roll_number".
Proof.
  apply (proj1 (DataHandlerFunction_no_key (ret tt) (ret tt)
                  (insert_plainly sample_env) (ret "name,roll_number")
                  sample_env (csv_request None) one_record_world)
           eq_refl eq_refl "name,roll_number" one_record_world).
  reflexivity.
Defined.

(** X26.  The submit route of the first function of index.ts runs
    [insertData] exactly when [name] and [email] of the body are truthy,
    and then on the body as it came, [captchaToken] included.  A falsy
    [name] or [email] is answered 400 and an undefined or null body 500,
    both without running [insertData]. *)
Theorem DataHandlerFunction_submit_outcomes (connectDB closeDB : M unit)
        (insertData : jsval -> M unit) (collection_to_csv : M string)
        (e : env) (reqBody : jsval) (w : world) :
  let run :=
    DataHandlerFunction.handler connectDB closeDB insertData collection_to_csv e
      (post "/submit" reqBody) w in
  (truthy (get reqBody "name") = true -> truthy (get reqBody "email") = true ->
   snd run = snd (insertData reqBody w)
   /\ (fst (insertData reqBody w) = Ok tt -> status (fst run) = 200)
   /\ (forall message,
         fst (insertData reqBody w) = Throw message ->
         fst run = DataHandlerFunction.json e
                     (JObj [("success", JBool false);
                            ("message", JStr message)]) 500))
  /\ (reqBody <> JUndefined -> reqBody <> JNull ->
      truthy (get reqBody "name") = false \/ truthy (get reqBody "email") = false ->
      status (fst run) = 400 /\ snd run = w)
  /\ (reqBody = JUndefined \/ reqBody = JNull ->
      fst run = DataHandlerFunction.json e
                  (JObj [("success", JBool false);
                         ("message", JStr "Internal server error")]) 500
      /\ snd run = w).
Proof.
  cbn zeta. unfold DataHandlerFunction.handler, post, try_catch.
  cbn [method path body String.eqb Ascii.eqb Bool.eqb andb].
  unfold DataHandlerFunction.submit, DataHandlerFunction.read, bind, ret,
    throw, lift, try_catch.
  split; [|split].
  - intros Hn Hm.
    destruct reqBody; try discriminate Hn; cbn [get] in *; rewrite Hn;
      cbn [negb]; rewrite Hm; cbn [negb];
      destruct (insertData _ w) as [[[]|m] w1]; cbn;
      (split; [reflexivity|]; split;
       [intros H; (reflexivity || discriminate H)
       |intros message H; try discriminate H; now inversion H]).
  - intros Hu Hnull Hmissing.
    destruct reqBody; try congruence; cbn [get] in *;
      destruct Hmissing as [H|H]; try discriminate H;
      try (rewrite H; cbn; split; reflexivity);
      destruct (truthy (lookup "name" fields)); cbn [negb];
      try rewrite H; cbn; split; reflexivity.
  - intros [->| ->]; cbn; split; reflexivity.
Qed.

Lemma DataHandlerFunction_submit_outcomes_witness :
  docs (snd (DataHandlerFunction.handler (ret tt) (ret tt)
               (insert_plainly sample_env) (ret "")
               sample_env (post "/submit" (JObj ann)) empty_world))
  = [ann]
  /\ fst (DataHandlerFunction.handler (ret tt) (ret tt)
            (insert_plainly sample_env) (ret "")
            sample_env (post "/submit" JUndefined) empty_world)
     = DataHandlerFunction.json sample_env
         (JObj [("success", JBool false);
                ("message", JStr "Internal server error")]) 500.
Proof.
  split.
  - destruct (proj1 (DataHandlerFunction_submit_outcomes (ret tt) (ret tt)
                       (insert_plainly sample_env) (ret "")
                       sample_env (JObj ann) empty_world) eq_refl eq_refl)
      as (Hw & _).
    rewrite Hw. reflexivity.
  - apply (proj2 (proj2 (DataHandlerFunction_submit_outcomes (ret tt) (ret tt)
                           (insert_plainly sample_env) (ret "")
                           sample_env JUndefined empty_world))).
    left. reflexivity.
Defined.
